(** * Gravity-Launcher: instance supervisor, log broadcast and shared Redis

    A shallow embedding of the server side of the launcher:
    - [server/utils/wsHelper.js]       (module [WsHelper]),
    - [server/routes/instances.js]     (module [Instances]),
    - [server/routes/dependencies.js]  (module [Dependencies], the Redis part).

    The Node.js process is single threaded: every request handler and every
    child-process callback runs to completion (up to its next [await]) before
    the next one starts.  Each handler is therefore a function from the server
    state to the new server state (and a response); a handler that awaits is
    cut at its awaits into one function per synchronous piece.

    Modelling conventions:
    - strings are [string], characters are code units below 256 (the texts
      of the messages that are not ASCII are kept as their UTF-8 bytes);
    - a JS object used as a dictionary is a [gmap string _] where only lookup,
      delete and the number of keys are used ([runningProcesses]), and an
      association list in insertion order where the code enumerates it
      ([logHistory], [terminalLogs]); keys inherited from [Object.prototype]
      are not modelled;
    - OS-level actions (spawn, kill, exec, HTTP request) are recorded, oldest
      first, in the [effects] log of the state;
    - [console.log] output and the environment passed to spawned processes are
      not part of the state; exceptions of [spawn], [kill] and [send] are not
      modelled. *)

From Stdlib Require Import ZArith String Ascii List Bool Lia DecimalString.
From stdpp Require Import base strings gmap list.

Local Open Scope string_scope.

(** ** JavaScript values and strings *)

Module Js.

(** The values a JSON field such as [port] can hold. *)
Inductive value :=
| Undefined
| Num (n : Z)
| Str (s : string).

(** [if (v)], [v || d], [!v] *)
Definition truthy (v : value) : bool :=
  match v with
  | Undefined => false
  | Num n => negb (n =? 0)%Z
  | Str s => negb (String.eqb s "")
  end.

Definition string_of_Z (n : Z) : string := NilZero.string_of_int (Z.to_int n).
Definition string_of_nat (n : nat) : string := string_of_Z (Z.of_nat n).

(** [String(v)] and template interpolation *)
Definition ToString (v : value) : string :=
  match v with
  | Undefined => "undefined"
  | Num n => string_of_Z n
  | Str s => s
  end.

(** [a || b] on values *)
Definition or_else (a b : value) : value := if truthy a then a else b.

(** White space and line terminators below 256: TAB, LF, VT, FF, CR, SP, NBSP. *)
Definition is_space (c : ascii) : bool :=
  let n := nat_of_ascii c in
  (((9 <=? n) && (n <=? 13)) || (n =? 32) || (n =? 160))%nat.

Definition is_digit (c : ascii) : bool :=
  let n := nat_of_ascii c in ((48 <=? n) && (n <=? 57))%nat.

Fixpoint drop_while {A} (p : A -> bool) (l : list A) : list A :=
  match l with
  | [] => []
  | x :: l' => if p x then drop_while p l' else l
  end.

Fixpoint take_while {A} (p : A -> bool) (l : list A) : list A :=
  match l with
  | [] => []
  | x :: l' => if p x then x :: take_while p l' else []
  end.

(** [String.prototype.trim] *)
Definition trim (s : string) : string :=
  string_of_list_ascii
    (rev (drop_while is_space (rev (drop_while is_space (list_ascii_of_string s))))).

(** [Array.prototype.push] and [Array.prototype.shift] (the array after the call) *)
Definition push {A} (arr : list A) (x : A) : list A := (arr ++ [x])%list.
Definition shift {A} (arr : list A) : list A := tail arr.

(** *** Objects enumerated with [Object.keys]: insertion-ordered association lists *)

Definition obj (A : Type) := list (string * A).

Fixpoint get {A} (o : obj A) (k : string) : option A :=
  match o with
  | [] => None
  | (k', v) :: o' => if String.eqb k' k then Some v else get o' k
  end.

(** [o[k] = v]: an existing key keeps its place, a new key goes last. *)
Fixpoint set {A} (o : obj A) (k : string) (v : A) : obj A :=
  match o with
  | [] => [(k, v)]
  | (k', v') :: o' => if String.eqb k' k then (k', v) :: o' else (k', v') :: set o' k v
  end.

Definition keys {A} (o : obj A) : list string := map fst o.

End Js.

(** ** Backtracking regular expressions (for the two patterns the code uses) *)

Module Regex.

Inductive t :=
| Class (p : ascii -> bool)
| Eps
| Seq (r1 r2 : t)
| Alt (r1 r2 : t)          (* ordered: r1 is tried first *)
| Star (r : t).            (* greedy *)

Definition Opt (r : t) : t := Alt r Eps.

(** [run r s k]: match a prefix of [s] against [r], trying the alternatives in
    the priority order of a backtracking matcher, and hand the rest to [k];
    the result is that of the first alternative [k] accepts. *)
Fixpoint run (r : t) (s : list ascii)
    (k : list ascii -> option (list ascii)) {struct r} : option (list ascii) :=
  match r with
  | Class p =>
      match s with
      | c :: s' => if p c then k s' else None
      | [] => None
      end
  | Eps => k s
  | Seq r1 r2 => run r1 s (fun s' => run r2 s' k)
  | Alt r1 r2 =>
      match run r1 s k with
      | Some x => Some x
      | None => run r2 s k
      end
  | Star r' =>
      (fix star (n : nat) (s : list ascii) {struct n} : option (list ascii) :=
         match n with
         | O => k s
         | S n' =>
             match run r' s (fun s' =>
                     if (length s' <? length s)%nat then star n' s' else None) with
             | Some x => Some x
             | None => k s
             end
         end) (S (length s)) s
  end.

(** The rest of the input after a match anchored at the start of [s]. *)
Definition match_prefix (r : t) (s : list ascii) : option (list ascii) :=
  run r s Some.

(** [str.replace(/r/g, '')] *)
Fixpoint remove_all_from (fuel : nat) (r : t) (s : list ascii) : list ascii :=
  match fuel with
  | O => s
  | S fuel' =>
      match s with
      | [] => []
      | c :: s' =>
          match match_prefix r s with
          | Some rest =>
              if (length rest <? length s)%nat then remove_all_from fuel' r rest
              else c :: remove_all_from fuel' r s'
          | None => c :: remove_all_from fuel' r s'
          end
      end
  end.

Definition remove_all (r : t) (s : string) : string :=
  let l := list_ascii_of_string s in
  string_of_list_ascii (remove_all_from (length l) r l).

Definition one_of (cs : string) : ascii -> bool :=
  fun c => existsb (Ascii.eqb c) (list_ascii_of_string cs).

Definition between (lo hi : string) : ascii -> bool :=
  fun c =>
    match lo, hi with
    | String l _, String h _ =>
        ((nat_of_ascii l <=? nat_of_ascii c) && (nat_of_ascii c <=? nat_of_ascii h))%nat
    | _, _ => false
    end.

Definition code (n : nat) : ascii -> bool := fun c => (nat_of_ascii c =? n)%nat.

Definition either (p q : ascii -> bool) : ascii -> bool := fun c => p c || q c.

End Regex.

(** ** HTTP responses *)

Inductive body :=
| BError (error : string)              (* [{ error }] *)
| BMessage (message : string)          (* [{ message }] *)
| BLogs (logs : list string)           (* [{ logs }] *)
| BSuccess                             (* [{ success: true, ... }] *)
| BPort (available : bool) (usedBy : option string)
| BFailure (error : string).           (* [{ success: false, error }] *)

Record response := Json {
  status_code : nat;
  payload : body
}.

(** ** The server state *)

(** Messages sent to observers over the WebSocket, by their [type] field. *)
Inductive status := starting | running | stopped.

Inductive message :=
| WELCOME (text : string)
| GLOBAL_LOG (data : string)
| LOG (instanceId data : string)
| STATUS (instanceId : string) (st : status)
| TERMINAL_OUTPUT (instanceId data : string)
| TERMINAL_OPENED (instanceId : string).

Inductive ready_state := CONNECTING | OPEN | CLOSING | CLOSED.

(** An observer: one WebSocket of [wss.clients], with what it was sent so far
    (oldest first). *)
Record client := Client {
  sock : nat;
  readyState : ready_state;
  received : list message
}.

(** Module state of wsHelper.js *)
Record ws_state := WsState {
  wss : option (list client);          (* [null] before [init] *)
  globalLogHistory : list string
}.

(** What the start handler's callbacks close over, per spawned child. *)
Record closure := Closure {
  c_id : string;
  hasStarted : bool
}.

(** Module state of routes/instances.js.  A [ChildProcess] is a handle
    (a number, also used as its pid). *)
Record instances_state := InstancesState {
  runningProcesses : gmap string nat;
  terminalProcesses : gmap string nat;
  terminalLogs : Js.obj (list string);
  logHistory : Js.obj (list string);
  closures : gmap nat closure
}.

(** Module state of routes/dependencies.js (Redis part): the handle, and the
    [startFailed] flag of each start request's [close] callback. *)
Record deps_state := DepsState {
  redisProcess : option nat;
  startFailed : gmap nat bool
}.

Record proxy := Proxy {
  protocol : string;
  host : string;
  proxy_port : Js.value;
  auth : bool;
  username : string;
  password : string
}.

(** A record of [data.instances] (the fields this part of the code reads). *)
Record instance := Instance {
  inst_id : string;
  inst_name : string;
  inst_path : string;
  inst_port : Js.value;
  inst_type : string;                  (* [""] when the field is absent *)
  inst_proxy : option proxy
}.

(** data.json *)
Record datafile := DataFile {
  instances : list instance;
  redisKeepAlive : option bool;        (* [data.settings?.redisKeepAlive] *)
  redisPath : option string            (* [data.dependencies.redisPath] *)
}.

Inductive fsnode :=
| Dir
| File (content : string)
| Unreadable.                          (* exists, but reading it throws *)

Inductive effect :=
| Spawn (child : nat) (command : string) (args : list string) (cwd : string) (shell : bool)
| Exec (command : string)
| Kill (child : nat) (signal : string)
| HttpRequest (hostname : string) (port : nat) (path method : string)
| BindTest (port : string).            (* [checkPortAvailable]: listen on the port *)

(** What the process is started with. *)
Record config := Config {
  win32 : bool;                        (* [process.platform === 'win32'] *)
  execPath : string;                   (* [process.execPath] *)
  cwd : string;                        (* [process.cwd()] *)
  root : string                        (* [path.resolve(__dirname, '../..')] *)
}.

(** Everything outside the three modules: the data file, the file system, the
    process configuration, and the log of OS-level actions. *)
Record world := World {
  data : datafile;
  fs : gmap string fsnode;
  conf : config;
  next_child : nat;                    (* the handle the next spawn returns *)
  effects : list effect
}.

Record server := Server {
  ws : ws_state;
  inst : instances_state;
  deps : deps_state;
  os : world
}.

Definition upd_ws (f : ws_state -> ws_state) (s : server) : server :=
  Server (f (ws s)) (inst s) (deps s) (os s).
Definition upd_inst (f : instances_state -> instances_state) (s : server) : server :=
  Server (ws s) (f (inst s)) (deps s) (os s).
Definition upd_deps (f : deps_state -> deps_state) (s : server) : server :=
  Server (ws s) (inst s) (f (deps s)) (os s).
Definition upd_os (f : world -> world) (s : server) : server :=
  Server (ws s) (inst s) (deps s) (f (os s)).

Definition set_runningProcesses (m : gmap string nat) (i : instances_state) :=
  InstancesState m (terminalProcesses i) (terminalLogs i) (logHistory i) (closures i).
Definition set_terminalProcesses (m : gmap string nat) (i : instances_state) :=
  InstancesState (runningProcesses i) m (terminalLogs i) (logHistory i) (closures i).
Definition set_terminalLogs (o : Js.obj (list string)) (i : instances_state) :=
  InstancesState (runningProcesses i) (terminalProcesses i) o (logHistory i) (closures i).
Definition set_logHistory (o : Js.obj (list string)) (i : instances_state) :=
  InstancesState (runningProcesses i) (terminalProcesses i) (terminalLogs i) o (closures i).
Definition set_closures (m : gmap nat closure) (i : instances_state) :=
  InstancesState (runningProcesses i) (terminalProcesses i) (terminalLogs i) (logHistory i) m.

Definition set_data (d : datafile) (w : world) :=
  World d (fs w) (conf w) (next_child w) (effects w).
Definition set_fs (f : gmap string fsnode) (w : world) :=
  World (data w) f (conf w) (next_child w) (effects w).
Definition set_next_child (n : nat) (w : world) :=
  World (data w) (fs w) (conf w) n (effects w).
Definition set_effects (l : list effect) (w : world) :=
  World (data w) (fs w) (conf w) (next_child w) l.

(** Record one OS-level action. *)
Definition emit (e : effect) (s : server) : server :=
  upd_os (fun w => set_effects (effects w ++ [e])%list w) s.

(** [child_process.spawn]: a fresh handle, and the action recorded. *)
Definition spawn (command : string) (args : list string) (cwd : string) (shell : bool)
    (s : server) : nat * server :=
  let child := next_child (os s) in
  (child, emit (Spawn child command args cwd shell)
               (upd_os (set_next_child (S child)) s)).

(** [fs.existsSync] *)
Definition existsSync (w : world) (p : string) : bool :=
  bool_decide (is_Some (fs w !! p)).

(** [fs.readFileSync(p, 'utf8')]; [None] when it throws *)
Definition readFileSync (w : world) (p : string) : option string :=
  match fs w !! p with
  | Some (File content) => Some content
  | _ => None
  end.

(** [path.join], with [/] as the separator *)
Definition path_join (base : string) (parts : list string) : string :=
  fold_left (fun acc p => acc +:+ "/" +:+ p) parts base.

Definition BIN_DIR (w : world) : string := path_join (root (conf w)) ["bin"].

(** The double quote character, for messages that quote a name. *)
Definition dquote : string := String (ascii_of_nat 34) EmptyString.

(** A handler that awaits: either it ends with a response, or it goes on
    after an await, with what its continuation needs. *)
Inductive outcome (A : Type) :=
| Done (r : response)
| Await (k : A).
Arguments Done {A} r.
Arguments Await {A} k.

(** ** wsHelper.js *)

Module WsHelper.

Definition MAX_HISTORY : nat := 500.

(** [ws.send(JSON.stringify(m))]: delivered when the socket is open; the
    callers catch what a socket in another state throws. *)
Definition send (m : message) (c : client) : client :=
  match readyState c with
  | OPEN => Client (sock c) (readyState c) (received c ++ [m])%list
  | _ => c
  end.

Definition init (st : ws_state) : ws_state :=
  WsState (Some []) (globalLogHistory st).

(** The [connection] callback of [init], run for the new socket [ws]:
    welcome, global history, then every registered connection handler.  The
    socket is a member of [wss.clients] from then on. *)
Definition connection (handlers : list (client -> client)) (ws : client)
    (st : ws_state) : ws_state :=
  match wss st with
  | None => st
  | Some clients =>
      let ws := send (WELCOME "Connected to Launcher Server") ws in
      let ws := fold_left (fun w msg => send (GLOBAL_LOG msg) w) (globalLogHistory st) ws in
      let ws := fold_left (fun w handler => handler w) handlers ws in
      WsState (Some (clients ++ [ws])%list) (globalLogHistory st)
  end.

Definition broadcast (m : message) (st : ws_state) : ws_state :=
  match wss st with
  | None => st
  | Some clients => WsState (Some (map (send m) clients)) (globalLogHistory st)
  end.

Definition broadcastLog (instanceId data : string) : ws_state -> ws_state :=
  broadcast (LOG instanceId data).

Definition broadcastGlobalLog (message : string) (st : ws_state) : ws_state :=
  let history := Js.push (globalLogHistory st) message in
  let history := if (MAX_HISTORY <? length history)%nat then Js.shift history else history in
  broadcast (GLOBAL_LOG message) (WsState (wss st) history).

Definition broadcastStatus (instanceId : string) (status : status) : ws_state -> ws_state :=
  broadcast (STATUS instanceId status).

End WsHelper.

(** ** routes/instances.js *)

Module Instances.

(** *** Log history and broadcast wrappers *)

Definition broadcastLog (instanceId message : string) (s : server) : server :=
  let history := default [] (Js.get (logHistory (inst s)) instanceId) in
  let history := Js.push history message in
  let history := if (1000 <? length history)%nat then Js.shift history else history in
  upd_ws (WsHelper.broadcastLog instanceId message)
    (upd_inst (fun i => set_logHistory (Js.set (logHistory i) instanceId history) i) s).

Definition broadcastStatus (instanceId : string) (st : status) (s : server) : server :=
  upd_ws (WsHelper.broadcastStatus instanceId st) s.

Definition broadcastGlobalLog (message : string) (s : server) : server :=
  upd_ws (WsHelper.broadcastGlobalLog message) s.

(** The helper of the terminal route: [terminalLogs[id]] was initialised by
    the route before any call.  (Its fan-out to the observers goes through
    [getWss] and is left out.) *)
Definition broadcastTerminalOutput (id output : string) (s : server) : server :=
  match Js.get (terminalLogs (inst s)) id with
  | None => s
  | Some logs =>
      let logs := Js.push logs output in
      let logs := if (500 <? length logs)%nat then Js.shift logs else logs in
      upd_inst (fun i => set_terminalLogs (Js.set (terminalLogs i) id logs) i) s
  end.

(** The handler registered with [registerConnectionHandler]: replay of the
    instance logs, then of the terminal logs and open terminals. *)
Definition connectionHandler (i : instances_state) (ws : client) : client :=
  let ws :=
    fold_left (fun ws id =>
        fold_left (fun ws msg =>
            match readyState ws with
            | OPEN => WsHelper.send (LOG id msg) ws
            | _ => ws
            end)
          (default [] (Js.get (logHistory i) id)) ws)
      (Js.keys (logHistory i)) ws in
  fold_left (fun ws id =>
      let ws :=
        fold_left (fun ws msg =>
            match readyState ws with
            | OPEN => WsHelper.send (TERMINAL_OUTPUT id msg) ws
            | _ => ws
            end)
          (default [] (Js.get (terminalLogs i) id)) ws in
      match terminalProcesses i !! id with
      | Some _ =>
          match readyState ws with
          | OPEN => WsHelper.send (TERMINAL_OPENED id) ws
          | _ => ws
          end
      | None => ws
      end)
    (Js.keys (terminalLogs i)) ws.

(** A new observer connects: [ws] library adds the socket (open, nothing
    received yet) and fires the [connection] callback. *)
Definition connect (sock : nat) (s : server) : server :=
  upd_ws (WsHelper.connection [connectionHandler (inst s)] (Client sock OPEN [])) s.

(** The pattern of [stripAnsi]: a code unit 0x1b or 0x9b; any number of
    characters among [ ( ) # ; ? ; optionally 1 to 4 digits followed by any
    number of groups made of a semicolon and 0 to 4 digits; one final
    character among 0-9 A-O R Z c f-n q r y = > <.  All repetitions are
    greedy, and every match is removed (flag g). *)
Definition ansi_pattern : Regex.t :=
  let D := Regex.Class (Regex.between "0" "9") in
  let D14 := Regex.Seq D (Regex.Opt (Regex.Seq D (Regex.Opt (Regex.Seq D (Regex.Opt D))))) in
  let D04 := Regex.Opt D14 in
  Regex.Seq (Regex.Class (Regex.either (Regex.code 27) (Regex.code 155)))
    (Regex.Seq (Regex.Star (Regex.Class (Regex.one_of "[()#;?")))
       (Regex.Seq
          (Regex.Opt (Regex.Seq D14
             (Regex.Star (Regex.Seq (Regex.Class (Regex.one_of ";")) D04))))
          (Regex.Class
             (fun c =>
                Regex.between "0" "9" c || Regex.between "A" "O" c
                || Regex.one_of "RZc" c || Regex.between "f" "n" c
                || Regex.one_of "qry=><" c)))).

Definition stripAnsi (str : string) : string := Regex.remove_all ansi_pattern str.

(** *** Listing: [GET /] reports an instance as running as soon as it has an
    entry in [runningProcesses] *)
Definition list_status (s : server) (instance : instance) : status :=
  match runningProcesses (inst s) !! inst_id instance with
  | Some _ => running
  | None => stopped
  end.

Definition find_instance (d : datafile) (id : string) : option instance :=
  find (fun i => String.eqb (inst_id i) id) (instances d).

(** *** [POST /start/:id] *)

(** The credential-redacted proxy URL that is logged. *)
Definition proxy_logUrl (p : proxy) : string :=
  let proto := if String.eqb (protocol p) "" then "http" else protocol p in
  let port := if Js.truthy (proxy_port p) then ":" +:+ Js.ToString (proxy_port p) else "" in
  if auth p && negb (String.eqb (username p) "")
  then proto +:+ "://" +:+ username p +:+ ":******@" +:+ host p +:+ port
  else proto +:+ "://" +:+ host p +:+ port.

Definition start (id : string) (s : server) : response * server :=
  match find_instance (data (os s)) id with
  | None => (Json 404 (BError "Instance not found"), s)
  | Some instance =>
      match runningProcesses (inst s) !! id with
      | Some _ => (Json 400 (BError "Already running"), s)
      | None =>
          (* Proxy injection *)
          let s :=
            match inst_proxy instance with
            | Some p =>
                if negb (String.eqb (host p) "")
                then broadcastLog id ("[SYSTEM] Using Proxy: " +:+ proxy_logUrl p) s
                else s
            | None => s
            end in
          if negb (existsSync (os s) (inst_path instance)) then
            let error := "Instance path not found: " +:+ inst_path instance in
            (Json 500 (BError error), broadcastLog id ("--- ERROR: " +:+ error +:+ " ---") s)
          else
            let s := broadcastLog id ("--- Starting Instance " +:+ inst_name instance +:+ " ---") s in
            let s := broadcastLog id ("Working Directory: " +:+ inst_path instance) s in
            let instanceType :=
              if String.eqb (inst_type instance) "" then "yunzai" else inst_type instance in
            let '(child, s) :=
              if String.eqb instanceType "gsuid" then
                let s := broadcastLog id "Starting GSUID Core..." s in
                spawn "uv" ["run"; "core"] (inst_path instance) true s
              else
                let s := broadcastLog id ("Using Node: " +:+ execPath (conf (os s))) s in
                spawn (execPath (conf (os s))) [path_join (inst_path instance) ["app.js"]]
                      (inst_path instance) false s in
            let s := upd_inst (fun i =>
                       set_closures (<[child := Closure id false]> (closures i))
                         (set_runningProcesses (<[id := child]> (runningProcesses i)) i)) s in
            let s := broadcastStatus id starting s in
            (Json 200 (BMessage "Starting"), s)
      end
  end.

(** *** The callbacks of a spawned child *)

(** [child.stdout.on('data')] *)
Definition stdout_data (child : nat) (chunk : string) (s : server) : server :=
  match closures (inst s) !! child with
  | None => s
  | Some c =>
      let text := Js.trim chunk in
      let s := if negb (String.eqb text "")
               then broadcastLog (c_id c) (stripAnsi text) s else s in
      (* Mark as running when we get first output *)
      if negb (hasStarted c) then
        let s := upd_inst (fun i =>
                   set_closures (<[child := Closure (c_id c) true]> (closures i)) i) s in
        broadcastStatus (c_id c) running s
      else s
  end.

(** [child.stderr.on('data')] *)
Definition stderr_data (child : nat) (chunk : string) (s : server) : server :=
  match closures (inst s) !! child with
  | None => s
  | Some c =>
      let text := Js.trim chunk in
      if negb (String.eqb text "")
      then broadcastLog (c_id c) (stripAnsi text) s else s
  end.

(** [child.on('error')] *)
Definition on_error (child : nat) (message : string) (s : server) : server :=
  match closures (inst s) !! child with
  | None => s
  | Some c =>
      let id := c_id c in
      let s := broadcastLog id ("--- Launch Error: " +:+ message +:+ " ---") s in
      let s := upd_inst (fun i =>
                 set_runningProcesses (delete id (runningProcesses i)) i) s in
      broadcastStatus id stopped s
  end.

(** The self-addressed request that asks for Redis to be stopped. *)
Definition redis_stop_request : effect :=
  HttpRequest "localhost" 3575 "/api/deps/redis/stop" "POST".

(** [child.on('close')]; [code] is the exit code, [None] for [null] *)
Definition on_close (child : nat) (code : option Z) (s : server) : server :=
  match closures (inst s) !! child with
  | None => s
  | Some c =>
      let id := c_id c in
      let code := match code with Some n => Js.string_of_Z n | None => "null" end in
      let s := broadcastLog id ("--- Instance Exited (Code: " +:+ code +:+ ") ---") s in
      let s := upd_inst (fun i =>
                 set_runningProcesses (delete id (runningProcesses i)) i) s in
      let s := broadcastStatus id stopped s in
      (* Check if this was the last running instance and Redis should be stopped *)
      let runningCount := size (runningProcesses (inst s)) in
      if (runningCount =? 0)%nat then
        let redisLocked :=
          match redisKeepAlive (data (os s)) with Some true => true | _ => false end in
        if negb redisLocked then
          let s := broadcastGlobalLog "[SYSTEM] Last instance closed, stopping Redis..." s in
          emit redis_stop_request s
        else
          broadcastGlobalLog "[SYSTEM] Redis locked - keeping alive" s
      else s
  end.

(** *** [POST /stop/:id] *)
Definition stop (id : string) (s : server) : response * server :=
  match runningProcesses (inst s) !! id with
  | None => (Json 400 (BError "Not running"), s)
  | Some child =>
      let s :=
        if win32 (conf (os s))
        then emit (Exec ("taskkill /PID " +:+ Js.string_of_nat child +:+ " /T /F")) s
        else emit (Kill child "SIGKILL") s in
      let s := upd_inst (fun i =>
                 set_runningProcesses (delete id (runningProcesses i)) i) s in
      let s := broadcastStatus id stopped s in
      let s := broadcastLog id "--- Instance Stopped ---" s in
      (Json 200 (BMessage "Stop signal sent"), s)
  end.

(** The callback of the [taskkill] exec, when it reports an error: fallback
    to a regular kill. *)
Definition stop_taskkill_error (child : nat) (s : server) : server :=
  emit (Kill child "SIGKILL") s.

(** *** [GET /logs/:id] *)
Definition logs (id : string) (s : server) : response :=
  Json 200 (BLogs (default [] (Js.get (logHistory (inst s)) id))).

(** *** Ports *)

Fixpoint strip_prefix (p s : list ascii) : option (list ascii) :=
  match p, s with
  | [], _ => Some s
  | a :: p', b :: s' => if Ascii.eqb a b then strip_prefix p' s' else None
  | _ :: _, [] => None
  end.

(** A match of [port:] , white space, digits anchored at the start of [s]: the
    digits.  White space and digits are disjoint classes and nothing follows
    the digits, so the greedy choice is the only one. *)
Definition port_match_at (s : list ascii) : option (list ascii) :=
  match strip_prefix (list_ascii_of_string "port:") s with
  | Some rest =>
      match Js.take_while Js.is_digit (Js.drop_while Js.is_space rest) with
      | [] => None
      | digits => Some digits
      end
  | None => None
  end.

(** The leftmost match. *)
Fixpoint port_match_from (s : list ascii) : option (list ascii) :=
  match port_match_at s with
  | Some digits => Some digits
  | None =>
      match s with
      | [] => None
      | _ :: s' => port_match_from s'
      end
  end.

(** Group 1 of [content.match(/port:\s*(\d+)/)] *)
Definition port_match (content : string) : option string :=
  string_of_list_ascii <$> port_match_from (list_ascii_of_string content).

(** Helper: Get instance port from config file or data.json *)
Definition getInstancePort (w : world) (instance : instance) : string :=
  (* First check data.json port field *)
  if Js.truthy (inst_port instance) then Js.ToString (inst_port instance)
  else
    (* Then try to read from Yunzai config/config/server.yaml *)
    let serverYamlPath := path_join (inst_path instance) ["config"; "config"; "server.yaml"] in
    let found :=
      if existsSync w serverYamlPath then
        match readFileSync w serverYamlPath with
        | Some content => port_match content
        | None => None                 (* thrown and ignored *)
        end
      else None in
    (* Default port *)
    default "2536" found.

(** [checkPortAvailable(port)] listens on the port; its answer arrives later. *)
Definition checkPortAvailable (port : string) (s : server) : server :=
  emit (BindTest port) s.

(** [GET /checkPort/:port], up to its await; [port] is the parsed number. *)
Definition checkPort (port : Z) (s : server) : outcome unit * server :=
  if ((port <? 1) || (65535 <? port))%Z then (Done (Json 200 (BPort false None)), s)
  else
    match find (fun i => String.eqb (getInstancePort (os s) i) (Js.string_of_Z port))
               (instances (data (os s))) with
    | Some i => (Done (Json 200 (BPort false (Some (inst_name i)))), s)
    | None => (Await tt, checkPortAvailable (Js.string_of_Z port) s)
    end.

Definition checkPort_resume (available : bool) : response :=
  Json 200 (BPort available None).

(** *** [POST /create] *)

Record create_request := CreateRequest {
  req_name : string;                   (* [""] when absent *)
  req_port : Js.value;
  req_type : string                    (* [""] when absent *)
}.

(** What the pre-flight checks observe with [spawnSync]. *)
Record probes := Probes {
  hasSystemNode : bool;
  hasSystemGit : bool;
  hasUv : bool
}.

(** The creation that goes on after the response. *)
Record creation := Creation {
  instanceName : string;
  instancePort : Js.value;
  instanceType : string;
  installPath : string
}.

(** [/^[a-zA-Z0-9_-]+$/] *)
Definition validName (name : string) : bool :=
  let cs := list_ascii_of_string name in
  negb (Nat.eqb (length cs) 0) &&
  forallb (fun c => Regex.between "a" "z" c || Regex.between "A" "Z" c
                    || Regex.between "0" "9" c || Regex.one_of "_-" c) cs.

(** The handler up to its response.  [Done r]: a check failed and [r] is the
    answer.  [Await c]: every check passed, the handler has answered
    [{ message: 'Creation started' }] and goes on with the installation. *)
Definition create (req : create_request) (pr : probes) (s : server)
    : outcome creation * server :=
  let instanceName := if String.eqb (req_name req) "" then "Yunzai-Bot" else req_name req in
  let instancePort := Js.or_else (req_port req) (Js.Str "2536") in
  let instanceType := if String.eqb (req_type req) "" then "yunzai" else req_type req in
  if negb (validName instanceName) then
    (Done (Json 400 (BError "实例名称只能包含英文字母、数字、连字符(-)和下划线(_)，不支持中文或其他特殊字符")),
     broadcastGlobalLog ("[ERR] Invalid instance name: " +:+ dquote +:+ instanceName +:+ dquote
        +:+ ". Only English letters, numbers, hyphens and underscores allowed.") s)
  else
    let installPath := path_join (cwd (conf (os s))) ["instances"; instanceName] in
    let hasPortableNode :=
      existsSync (os s) (path_join (BIN_DIR (os s))
        ["node-v24.12.0-win-x64"; "node-v24.12.0-win-x64"; "node.exe"]) in
    let hasPortableGit :=
      existsSync (os s) (path_join (BIN_DIR (os s)) ["PortableGit"; "cmd"; "git.exe"]) in
    if String.eqb instanceType "yunzai" && negb hasPortableNode && negb (hasSystemNode pr) then
      (Done (Json 400 (BError "未检测到 Node.js，请先安装")), broadcastGlobalLog "[ERR] Node.js not found." s)
    else if String.eqb instanceType "gsuid" && negb (hasUv pr) then
      (Done (Json 400 (BError "未检测到 uv 命令，请在环境管理中安装 UV")),
       broadcastGlobalLog "[ERR] 'uv' command not found. Please install UV in Environment Management." s)
    else if negb hasPortableGit && negb (hasSystemGit pr) then
      (Done (Json 400 (BError "未检测到 Git，请先安装")), broadcastGlobalLog "[ERR] Git not found." s)
    else
      let currentData := data (os s) in
      (* Validate unique name *)
      if existsb (fun i => String.eqb (inst_name i) instanceName) (instances currentData) then
        (Done (Json 400 (BError ("实例名称 " +:+ dquote +:+ instanceName +:+ dquote +:+ " 已存在"))), s)
      else
        (* Check port usage (generic) *)
        match find (fun i => String.eqb (Js.ToString (inst_port i)) (Js.ToString instancePort))
                   (instances currentData) with
        | Some i =>
            (Done (Json 400 (BError ("端口 " +:+ Js.ToString instancePort +:+ " 已被实例 "
                                     +:+ dquote +:+ inst_name i +:+ dquote +:+ " 使用"))), s)
        | None =>
            if existsSync (os s) installPath then
              (Done (Json 400 (BError "Directory already exists")), s)
            else
              (Await (Creation instanceName instancePort instanceType installPath), s)
        end.

(** The rest of the handler once the install steps (clone, dependencies,
    port written to the instance's own configuration) have ended, with their
    error if one failed; [now] is [Date.now()].  The output of the install
    steps is not modelled; the cloned directory is. *)
Definition create_resume (c : creation) (failure : option string) (now : Z)
    (s : server) : server :=
  match failure with
  | Some message => broadcastGlobalLog ("[ERR] Creation failed: " +:+ message) s
  | None =>
      let s := upd_os (fun w => set_fs (<[installPath c := Dir]> (fs w)) w) s in
      (* Register Instance *)
      let newInstance :=
        Instance (Js.string_of_Z now) (instanceName c) (installPath c) (instancePort c)
                 (instanceType c) None in
      let currentData := data (os s) in
      let s := upd_os (set_data (DataFile (instances currentData ++ [newInstance])%list
                                          (redisKeepAlive currentData)
                                          (redisPath currentData))) s in
      let s := broadcastGlobalLog "[SYSTEM] Instance created successfully!" s in
      broadcastStatus (inst_id newInstance) stopped s
  end.

(** *** [POST /config/:id], the port part *)

(** [instance.port = port] on the first record with that id. *)
Fixpoint assign_port (l : list instance) (id : string) (port : Js.value) : list instance :=
  match l with
  | [] => []
  | i :: l' =>
      if String.eqb (inst_id i) id
      then Instance (inst_id i) (inst_name i) (inst_path i) port (inst_type i) (inst_proxy i) :: l'
      else i :: assign_port l' id port
  end.

(** The end of the port update: [instance.port = port; saveData(data)], on
    the [data] the handler loaded when it started.  (The rewrite of the
    instance's own configuration file that comes first is not modelled.) *)
Definition config_commit (id : string) (port : Js.value) (loaded : datafile)
    (s : server) : response * server :=
  (Json 200 BSuccess,
   upd_os (set_data (DataFile (assign_port (instances loaded) id port)
                              (redisKeepAlive loaded) (redisPath loaded))) s).

(** The handler up to its await (taken only when the instance is stopped).
    Both branches of the handler (GSUID and Yunzai) run the same checks in the
    same order; the [masterQQ] part, which follows the port part, is left
    out. *)
Definition config (id : string) (port : Js.value) (s : server)
    : outcome datafile * server :=
  let data := data (os s) in
  match find_instance data id with
  | None => (Done (Json 404 (BError "Instance not found")), s)
  | Some instance =>
      if Js.truthy port then
        (* Check for conflicts *)
        let newPort := Js.ToString port in
        (* Check other instances *)
        match find (fun i => negb (String.eqb (inst_id i) id)
                             && String.eqb (getInstancePort (os s) i) newPort)
                   (instances data) with
        | Some conflictInst =>
            (Done (Json 400 (BError ("Port " +:+ newPort +:+ " is used by instance "
                      +:+ dquote +:+ inst_name conflictInst +:+ dquote))), s)
        | None =>
            (* we only check system port usage if the instance is STOPPED *)
            match runningProcesses (inst s) !! id with
            | None => (Await data, checkPortAvailable newPort s)
            | Some _ =>
                let '(r, s) := config_commit id port data s in (Done r, s)
            end
        end
      else (Done (Json 200 BSuccess), s)
  end.

Definition config_resume (id : string) (port : Js.value) (loaded : datafile)
    (isAvailable : bool) (s : server) : response * server :=
  if negb isAvailable then
    (Json 400 (BError ("Port " +:+ Js.ToString port +:+ " is already in use by the system")), s)
  else config_commit id port loaded s.

(** *** [POST /terminal/:id]: open the embedded terminal *)
Definition terminal (id : string) (s : server) : response * server :=
  match find_instance (data (os s)) id with
  | None => (Json 404 (BError "Instance not found"), s)
  | Some instance =>
      let instancePath := inst_path instance in
      if negb (existsSync (os s) instancePath) then
        (Json 400 (BError "Instance directory not found"), s)
      else
        match terminalProcesses (inst s) !! id with
        | Some _ => (Json 200 BSuccess, s)
        | None =>
            let instanceName :=
              if String.eqb (inst_name instance) "" then "Instance" else inst_name instance in
            (* Initialize terminal log history *)
            let s :=
              match Js.get (terminalLogs (inst s)) id with
              | Some _ => s
              | None => upd_inst (fun i => set_terminalLogs (Js.set (terminalLogs i) id []) i) s
              end in
            let '(child, s) := spawn "cmd.exe" [] instancePath false s in
            let s := upd_inst (fun i =>
                       set_terminalProcesses (<[id := child]> (terminalProcesses i)) i) s in
            let s := broadcastTerminalOutput id "========================================" s in
            let s := broadcastTerminalOutput id ("  Debug Terminal: " +:+ instanceName) s in
            let s := broadcastTerminalOutput id ("  Path: " +:+ instancePath) s in
            let s := broadcastTerminalOutput id "========================================" s in
            let s := broadcastTerminalOutput id "" s in
            let s := broadcastGlobalLog ("[SYSTEM] Opened embedded terminal for: " +:+ instanceName) s in
            (Json 200 BSuccess, s)
        end
  end.

End Instances.

(** ** routes/dependencies.js: the shared Redis *)

Module Dependencies.

Definition broadcastGlobalLog (message : string) (s : server) : server :=
  upd_ws (WsHelper.broadcastGlobalLog message) s.

Definition redisDataDir (w : world) : string := path_join (root (conf w)) ["data"; "redis"].

Definition set_redisProcess (h : option nat) (d : deps_state) : deps_state :=
  DepsState h (startFailed d).
Definition set_startFailed (m : gmap nat bool) (d : deps_state) : deps_state :=
  DepsState (redisProcess d) m.

(** [POST /redis/start], up to its first await: the data directory, the
    already-running guard, then the force kill of stray [redis-server.exe]. *)
Definition redis_start (s : server) : outcome unit * server :=
  (* Ensure redis data directory exists *)
  let s :=
    if negb (existsSync (os s) (redisDataDir (os s)))
    then upd_os (fun w => set_fs (<[redisDataDir w := Dir]> (fs w)) w) s
    else s in
  match redisProcess (deps s) with
  | Some _ => (Done (Json 200 (BFailure "Redis is already running")), s)
  | None =>
      (* Force kill any existing redis-server processes *)
      (Await tt, emit (Exec "taskkill /F /IM redis-server.exe") s)
  end.

(** After the kill has returned: find the binary and spawn it.  The handler
    then sleeps 500 ms; it is suspended with the handle it spawned. *)
Definition redis_start_spawn (s : server) : outcome nat * server :=
  let deps_redisPath := redisPath (data (os s)) in
  (* Find Redis path *)
  let found :=
    match deps_redisPath with
    | Some p => if existsSync (os s) p then Some p else None
    | None => None
    end in
  let found :=
    match found with
    | Some p => Some p
    | None =>
        (* Check local bin *)
        let localRedis := path_join (BIN_DIR (os s)) ["redis"; "redis-server.exe"] in
        if existsSync (os s) localRedis then Some localRedis else None
    end in
  match found with
  | None => (Done (Json 200 (BFailure "Redis not found. Please install Redis first.")), s)
  | Some redisPath =>
      let '(child, s) := spawn redisPath ["--dir"; redisDataDir (os s)] "" false s in
      let s := upd_deps (fun d =>
                 set_startFailed (<[child := false]> (startFailed d))
                   (set_redisProcess (Some child) d)) s in
      (Await child, s)
  end.

(** [redisProcess.on('close')] of the process spawned as [child] *)
Definition redis_on_close (child : nat) (code : option Z) (s : server) : server :=
  let s :=
    match code with
    | Some 0%Z => s
    | _ => upd_deps (fun d => set_startFailed (<[child := true]> (startFailed d)) d) s
    end in
  let s := upd_deps (set_redisProcess None) s in
  let code := match code with Some n => Js.string_of_Z n | None => "null" end in
  broadcastGlobalLog ("[REDIS] Process exited with code " +:+ code) s.

(** After the 500 ms: verify the start. *)
Definition redis_start_verify (child : nat) (s : server) : response * server :=
  let failed := default false (startFailed (deps s) !! child) in
  match failed, redisProcess (deps s) with
  | false, Some _ =>
      (Json 200 BSuccess, broadcastGlobalLog "[SYSTEM] Redis started" s)
  | _, _ => (Json 200 (BFailure "Redis 启动失败，请检查日志"), s)
  end.

(** [POST /redis/stop] *)
Definition redis_stop (s : server) : response * server :=
  match redisProcess (deps s) with
  | None => (Json 200 (BFailure "Redis is not running"), s)
  | Some child =>
      let s := emit (Kill child "SIGTERM") s in
      let s := upd_deps (set_redisProcess None) s in
      let s := broadcastGlobalLog "[SYSTEM] Redis stopped" s in
      (Json 200 BSuccess, s)
  end.

(** Output of the Redis process: [decoder.decode(chunk).trim()], prefixed. *)
Definition redis_output (prefix : string) (chunk : string) (s : server) : server :=
  let text := Js.trim chunk in
  if negb (String.eqb text "") then broadcastGlobalLog (prefix +:+ " " +:+ text) s else s.

End Dependencies.

(** ** The server as a transition system *)

(** What the event loop can run next: a request handler (up to its await),
    the continuation of a suspended handler, or a callback of a child
    process or of a socket. *)
Inductive event :=
| Connect (sock : nat)
| Start (id : string)
| Stop (id : string)
| TaskkillError (child : nat)
| Stdout (child : nat) (chunk : string)
| Stderr (child : nat) (chunk : string)
| ChildError (child : nat) (message : string)
| Close (child : nat) (code : option Z)
| CheckPort (port : Z)
| Create (req : Instances.create_request) (pr : Instances.probes)
| CreateResume (c : Instances.creation) (failure : option string) (now : Z)
| ConfigPort (id : string) (port : Js.value)
| ConfigResume (id : string) (port : Js.value) (loaded : datafile) (isAvailable : bool)
| Terminal (id : string)
| TerminalOutput (id output : string)
| RedisStart
| RedisStartSpawn
| RedisStartVerify (child : nat)
| RedisOutput (prefix chunk : string)
| RedisClose (child : nat) (code : option Z)
| RedisStop.

Definition step (e : event) (s : server) : server :=
  match e with
  | Connect sock => Instances.connect sock s
  | Start id => snd (Instances.start id s)
  | Stop id => snd (Instances.stop id s)
  | TaskkillError child => Instances.stop_taskkill_error child s
  | Stdout child chunk => Instances.stdout_data child chunk s
  | Stderr child chunk => Instances.stderr_data child chunk s
  | ChildError child message => Instances.on_error child message s
  | Close child code => Instances.on_close child code s
  | CheckPort port => snd (Instances.checkPort port s)
  | Create req pr => snd (Instances.create req pr s)
  | CreateResume c failure now => Instances.create_resume c failure now s
  | ConfigPort id port => snd (Instances.config id port s)
  | ConfigResume id port loaded isAvailable =>
      snd (Instances.config_resume id port loaded isAvailable s)
  | Terminal id => snd (Instances.terminal id s)
  | TerminalOutput id output => Instances.broadcastTerminalOutput id output s
  | RedisStart => snd (Dependencies.redis_start s)
  | RedisStartSpawn => snd (Dependencies.redis_start_spawn s)
  | RedisStartVerify child => snd (Dependencies.redis_start_verify child s)
  | RedisOutput prefix chunk => Dependencies.redis_output prefix chunk s
  | RedisClose child code => Dependencies.redis_on_close child code s
  | RedisStop => snd (Dependencies.redis_stop s)
  end.

Definition run (es : list event) (s : server) : server :=
  fold_left (fun s e => step e s) es s.

(** The server once index.js has loaded the modules and called [initWs]. *)
Definition boot (c : config) (d : datafile) (files : gmap string fsnode) : server :=
  Server (WsHelper.init (WsState None []))
         (InstancesState ∅ ∅ [] [] ∅)
         (DepsState None ∅)
         (World d files c 0 []).

(** The stop requests for the shared Redis issued so far. *)
Definition is_redis_stop_request (e : effect) : bool :=
  match e with
  | HttpRequest hostname port path method =>
      String.eqb hostname "localhost" && Nat.eqb port 3575
      && String.eqb path "/api/deps/redis/stop" && String.eqb method "POST"
  | _ => false
  end.

Definition redis_stop_requests (s : server) : nat :=
  length (List.filter is_redis_stop_request (effects (os s))).


(** ** routes/instances.js: the other routes *)

(** The line feed, as a string. *)
Definition nl_ : string := String (ascii_of_nat 10) EmptyString.

Module InstancesMore.

(** *** [GET /checkName/:name] *)
Definition checkName (name : string) (s : server) : bool :=
  let exists_ := existsb (fun i => String.eqb (inst_name i) name) (instances (data (os s))) in
  negb exists_.

(** *** [POST /command/:id] *)

(** What the handler did, beside its answer. *)
Inductive command_outcome :=
| Interactive (child : nat) (written : string)   (* [child.stdin.write(written)] *)
| Offline (helper : nat)                         (* the helper process spawned *)
| Refused (r : response).

(** [stdin_usable] is what the handler observes of the child's input stream:
    [child.stdin && !child.stdin.destroyed].  (A write that throws is not
    modelled, nor is the output of the helper.) *)
Definition command (id command : string) (stdin_usable : bool) (s : server)
    : command_outcome * server :=
  match runningProcesses (inst s) !! id with
  | Some child =>
      (* If instance is running, send to stdin *)
      if negb stdin_usable then
        (Refused (Json 400 (BError "Instance stdin unavailable")), s)
      else
        let s := Instances.broadcastLog id ("> " +:+ command) s in
        (Interactive child (command +:+ nl_), s)
  | None =>
      (* If instance is NOT running, execute as system command in instance directory *)
      match Instances.find_instance (data (os s)) id with
      | None => (Refused (Json 404 (BError "Instance not found")), s)
      | Some instance =>
          let s := Instances.broadcastLog id ("[OFFLINE] > " +:+ command) s in
          let args := ["-NoProfile"; "-NonInteractive"; "-ExecutionPolicy"; "Bypass";
                       "-Command"; command] in
          let '(tempChild, s) := spawn "powershell" args (inst_path instance) false s in
          (* We don't track this process in runningProcesses *)
          (Offline tempChild, s)
      end
  end.

(** *** [POST /delete] *)

Fixpoint findIndex {A} (p : A → bool) (l : list A) : option nat :=
  match l with
  | [] => None
  | x :: l' => if p x then Some 0 else S <$> findIndex p l'
  end.

(** [p] is [dir] or lies under it. *)
Definition under (dir p : string) : bool :=
  String.eqb p dir || String.prefix (dir +:+ "/") p.

(** [fs.rmSync(dir, { recursive: true, force: true })] *)
Definition rmSync (dir : string) (files : gmap string fsnode) : gmap string fsnode :=
  filter (fun kv => under dir kv.1 = false) files.

(** (A removal that throws, answered with status 500, is not modelled.) *)
Definition delete_instance (id : string) (s : server) : response * server :=
  let currentData := data (os s) in
  match findIndex (fun i => String.eqb (inst_id i) id) (instances currentData) with
  | None => (Json 404 (BError "Instance not found"), s)
  | Some instanceIndex =>
      match instances currentData !! instanceIndex with
      | None => (Json 404 (BError "Instance not found"), s)
      | Some instance =>
          (* Remove directory *)
          let s :=
            if existsSync (os s) (inst_path instance)
            then upd_os (fun w => set_fs (rmSync (inst_path instance) (fs w)) w) s
            else s in
          (* Remove from DB *)
          let s := upd_os (set_data (DataFile (delete instanceIndex (instances currentData))
                                              (redisKeepAlive currentData)
                                              (redisPath currentData))) s in
          let s := Instances.broadcastGlobalLog
                     ("[SYSTEM] Instance '" +:+ inst_name instance +:+ "' deleted.") s in
          (Json 200 BSuccess, s)
      end
  end.


(** *** Step 4 of the creation of a Yunzai instance: the port in server.yaml *)

(** [content.includes(needle)] *)
Fixpoint includes_from (needle hay : list ascii) : bool :=
  match Instances.strip_prefix needle hay with
  | Some _ => true
  | None =>
      match hay with
      | [] => false
      | _ :: hay' => includes_from needle hay'
      end
  end.

Definition includes (needle content : string) : bool :=
  includes_from (list_ascii_of_string needle) (list_ascii_of_string content).

(** What follows a match of [port:], white space, digits at the start of [s]. *)
Definition port_rest_at (s : list ascii) : option (list ascii) :=
  match Instances.strip_prefix (list_ascii_of_string "port:") s with
  | Some rest =>
      let rest := Js.drop_while Js.is_space rest in
      match Js.take_while Js.is_digit rest with
      | [] => None
      | _ => Some (Js.drop_while Js.is_digit rest)
      end
  | None => None
  end.

(** [content.replace(/port:\s*\d+/, replacement)]: the leftmost match is
    replaced, a content without a match is unchanged.  (The replacement is
    taken literally; the code passes [port: ] followed by the port.) *)
Fixpoint replace_port_from (replacement s : list ascii) : list ascii :=
  match port_rest_at s with
  | Some rest => replacement ++ rest
  | None =>
      match s with
      | [] => []
      | c :: s' => c :: replace_port_from replacement s'
      end
  end.

Definition replace_port (content replacement : string) : string :=
  string_of_list_ascii
    (replace_port_from (list_ascii_of_string replacement) (list_ascii_of_string content)).

(** The content written to server.yaml; [existing] is the content of the file
    when the clone brought one. *)
Definition serverConfig (existing : option string) (instancePort : string) : string :=
  match existing with
  | None =>
      "# Server Configuration" +:+ nl_ +:+ "port: " +:+ instancePort +:+ nl_
      +:+ "host: " +:+ dquote +:+ "0.0.0.0" +:+ dquote +:+ nl_
  | Some content =>
      if includes "port:" content
      then replace_port content ("port: " +:+ instancePort)
      else "port: " +:+ instancePort +:+ nl_ +:+ content
  end.

End InstancesMore.

(** ** routes/dependencies.js: Redis status and keep-alive *)

Module DependenciesMore.

(** [GET /redis/status]; [portActive] is the answer of the connection test on
    port 6379. *)
Definition redis_status (portActive : bool) (s : server) : bool :=
  bool_decide (is_Some (redisProcess (deps s))) || portActive.

(** [POST /redis/keepalive], for a boolean [enabled] *)
Definition redis_keepalive (enabled : bool) (s : server) : response * server :=
  let d := data (os s) in
  let s := upd_os (set_data (DataFile (instances d) (Some enabled) (redisPath d))) s in
  let s := Dependencies.broadcastGlobalLog
             ("[SYSTEM] Redis keep-alive " +:+ (if enabled then "enabled" else "disabled")) s in
  (Json 200 BSuccess, s).

(** [GET /redis/keepalive]: [data.settings?.redisKeepAlive || false] *)
Definition redis_keepalive_enabled (s : server) : bool :=
  default false (redisKeepAlive (data (os s))).

End DependenciesMore.

(** ** migrate_ports.js

    The script that gives every instance of data.json a [llonebotPort].  Its
    two early exits (no data file, no [instances] field) write nothing and
    are not modelled; port numbers are integers. *)

Module MigratePorts.

(** A record of [data.instances] (the fields the script reads or writes). *)
Record inst := Inst {
  name : string;
  llonebotPort : Js.value
}.

(** SameValueZero, the equality of a [Set] *)
Definition sameValueZero (a b : Js.value) : bool :=
  match a, b with
  | Js.Undefined, Js.Undefined => true
  | Js.Num n, Js.Num m => (n =? m)%Z
  | Js.Str s, Js.Str t => String.eqb s t
  | _, _ => false
  end.

(** [usedPorts.has(v)]; a [Set] is the list of its elements in insertion
    order. *)
Definition has (usedPorts : list Js.value) (v : Js.value) : bool :=
  existsb (sameValueZero v) usedPorts.

(** [usedPorts.add(v)] *)
Definition add (usedPorts : list Js.value) (v : Js.value) : list Js.value :=
  if has usedPorts v then usedPorts else usedPorts ++ [v].

(** [new Set(values)] *)
Definition new_Set (values : list Js.value) : list Js.value :=
  fold_left add values [].

(** [while (usedPorts.has(port)) port++], with at most [fuel] tests of the
    condition; [None] when they do not suffice. *)
Fixpoint free_port (fuel : nat) (usedPorts : list Js.value) (port : Z) : option Z :=
  match fuel with
  | 0 => None
  | S fuel =>
      if has usedPorts (Js.Num port) then free_port fuel usedPorts (port + 1)
      else Some port
  end.

(** [data.instances.forEach(inst => ...)]: the instances after the loop, and
    [changed]. *)
Fixpoint forEach (fuel : nat) (usedPorts : list Js.value) (changed : bool)
    (instances : list inst) : option (list inst * bool) :=
  match instances with
  | [] => Some ([], changed)
  | i :: rest =>
      if negb (Js.truthy (llonebotPort i)) then
        match free_port fuel usedPorts 3000 with
        | Some port =>
            match forEach fuel (add usedPorts (Js.Num port)) true rest with
            | Some (rest, changed) => Some (Inst (name i) (Js.Num port) :: rest, changed)
            | None => None
            end
        | None => None
        end
      else
        match forEach fuel usedPorts changed rest with
        | Some (rest, changed) => Some (i :: rest, changed)
        | None => None
        end
  end.

(** The script on the instances of data.json: the instances after the loop,
    and [changed]; data.json is written, with these instances, when
    [changed] is true and left alone otherwise. *)
Definition migrate (fuel : nat) (instances : list inst) : option (list inst * bool) :=
  let usedPorts :=
    new_Set (List.filter Js.truthy (List.map llonebotPort instances)) in
  forEach fuel usedPorts false instances.

End MigratePorts.
(** * Vocabulary of the properties *)

Local Open Scope list_scope.
Local Open Scope nat_scope.

(** The pattern shared by the three buffers: push, then one shift when the
    length exceeds the capacity. *)
Definition push_capped (cap : nat) (buf : list string) (line : string) : list string :=
  let buf := Js.push buf line in
  if (cap <? length buf)%nat then Js.shift buf else buf.

(** Deliver a list of messages, in order, to one socket. *)
Definition send_all (msgs : list message) (c : client) : client :=
  fold_left (fun c m => WsHelper.send m c) msgs c.

(** Every buffer is within its capacity. *)
Definition bounded (s : server) : Prop :=
  (∀ id buf, Js.get (logHistory (inst s)) id = Some buf → length buf ≤ 1000) ∧
  length (globalLogHistory (ws s)) ≤ WsHelper.MAX_HISTORY ∧
  (∀ id buf, Js.get (terminalLogs (inst s)) id = Some buf → length buf ≤ 500).

(** From [s] to [s'] the sockets of [s] were all sent the same messages, and
    sockets were only added. *)
Definition delivered (s s' : server) : Prop :=
  ∀ clients, wss (ws s) = Some clients →
    ∃ msgs later, wss (ws s') = Some (map (send_all msgs) clients ++ later).

(** [prim s0 s]: [s] is obtained from [s0] by the operations through which
    the handlers touch the buffers and the sockets, and by changes to the
    rest of the state. *)
Inductive prim (s0 : server) : server → Prop :=
| prim_here : prim s0 s0
| prim_log id m s :
    prim s0 s → prim s0 (Instances.broadcastLog id m s)
| prim_status id st s :
    prim s0 s → prim s0 (Instances.broadcastStatus id st s)
| prim_global m s :
    prim s0 s → prim s0 (Instances.broadcastGlobalLog m s)
| prim_terminal id m s :
    prim s0 s → prim s0 (Instances.broadcastTerminalOutput id m s)
| prim_terminal_init id s :
    prim s0 s →
    prim s0 (upd_inst (fun i => set_terminalLogs (Js.set (terminalLogs i) id []) i) s)
| prim_connect sock s :
    prim s0 s → prim s0 (Instances.connect sock s)
| prim_frame s s' :
    prim s0 s →
    ws s' = ws s →
    logHistory (inst s') = logHistory (inst s) →
    terminalLogs (inst s') = terminalLogs (inst s) →
    prim s0 s'.

Create HintDb prim discriminated.

(** [quiet s0 s]: no stop request was issued from [s0] to [s]. *)
Definition quiet (s0 s : server) : Prop :=
  redis_stop_requests s = redis_stop_requests s0.

Create HintDb quiet discriminated.

(** What a new observer is sent on connection, written out: the welcome, the
    global history, each instance's history, each terminal's history (and
    whether the terminal is open). *)
Definition replay (s : server) : list message :=
  [WELCOME "Connected to Launcher Server"]
  ++ map GLOBAL_LOG (globalLogHistory (ws s))
  ++ flat_map (fun id => map (LOG id) (default [] (Js.get (logHistory (inst s)) id)))
       (Js.keys (logHistory (inst s)))
  ++ flat_map (fun id =>
         map (TERMINAL_OUTPUT id) (default [] (Js.get (terminalLogs (inst s)) id))
         ++ match terminalProcesses (inst s) !! id with
            | Some _ => [TERMINAL_OPENED id]
            | None => []
            end)
       (Js.keys (terminalLogs (inst s))).



(** The [running] status events of instance [id] among some messages. *)
Definition running_events (id : string) (msgs : list message) : nat :=
  length (List.filter (fun m => match m with
                                | STATUS id' running => String.eqb id' id
                                | _ => false
                                end) msgs).

(** What a child writes: a chunk on its standard output or on its standard
    error. *)
Inductive output :=
| Out (chunk : string)
| Err (chunk : string).

Definition is_out (o : output) : bool :=
  match o with Out _ => true | Err _ => false end.

Definition output_event (child : nat) (o : output) : event :=
  match o with
  | Out chunk => Stdout child chunk
  | Err chunk => Stderr child chunk
  end.

(** The data callbacks of [child] run on its successive chunks. *)
Definition feed (child : nat) (outs : list output) (s : server) : server :=
  run (map (output_event child) outs) s.

(** The log message a chunk gives rise to, if any. *)
Definition chunk_log (id chunk : string) : list message :=
  if String.eqb (Js.trim chunk) "" then []
  else [LOG id (Instances.stripAnsi (Js.trim chunk))].


(** The one configuration file [getInstancePort] looks at. *)
Definition serverYamlPath (i : instance) : string :=
  path_join (inst_path i) ["config"; "config"; "server.yaml"].

(** The same record with another declared type. *)
Definition with_type (t : string) (i : instance) : instance :=
  Instance (inst_id i) (inst_name i) (inst_path i) (inst_port i) t (inst_proxy i).

Definition nl : string := String (ascii_of_nat 10) EmptyString.

(** No two records with different ids have the same effective port. *)
Definition distinct_ports (w : world) : Prop :=
  ∀ a b, a ∈ instances (data w) → b ∈ instances (data w) →
    inst_id a ≠ inst_id b →
    Instances.getInstancePort w a ≠ Instances.getInstancePort w b.

(** Sample data for the examples. *)
Module Ex.

Definition cfg : config := Config false "/usr/bin/node" "/srv" "/srv/launcher".

Definition alpha : instance :=
  Instance "1" "alpha" "/srv/instances/alpha" (Js.Str "3000") "yunzai" None.
Definition beta : instance :=
  Instance "2" "beta" "/srv/instances/beta" (Js.Num 3001) "gsuid" None.
(** A record whose directory is gone. *)
Definition gamma : instance :=
  Instance "3" "gamma" "/srv/instances/gamma" (Js.Str "3002") "yunzai" None.

Definition files : gmap string fsnode :=
  <["/srv/instances/alpha" := Dir]> (<["/srv/instances/beta" := Dir]> ∅).

Definition s0 : server := boot cfg (DataFile [alpha; beta; gamma] None None) files.

(** Both instances started: alpha is child 0, beta is child 1. *)
Definition s2 : server := run [Start "1"; Start "2"] s0.

(** The history of alpha holds exactly 1000 lines. *)
Definition full : server :=
  upd_inst (set_logHistory [("1", "oldest" :: replicate 999 "old")]) s0.

(** A GSUID instance and a Yunzai instance without a [port] field. *)
Definition delta : instance :=
  Instance "4" "delta" "/srv/instances/delta" Js.Undefined "gsuid" None.
Definition epsilon : instance :=
  Instance "5" "epsilon" "/srv/instances/epsilon" Js.Undefined "yunzai" None.

(** delta has only the GSUID configuration file (port 8765); epsilon has a
    server.yaml (port 2537). *)
Definition port_files : gmap string fsnode :=
  <["/srv/instances/delta/data/config.json" :=
      File ("{ " +:+ dquote +:+ "HOST" +:+ dquote +:+ ": " +:+ dquote +:+ "0.0.0.0" +:+ dquote
            +:+ ", " +:+ dquote +:+ "PORT" +:+ dquote +:+ ": 8765 }")]>
  (<["/srv/instances/epsilon/config/config/server.yaml" :=
       File ("# Server Configuration" +:+ nl +:+ "port: 2537" +:+ nl +:+ "host: 0.0.0.0" +:+ nl)]>
   (<["/srv/instances/delta" := Dir]> (<["/srv/instances/epsilon" := Dir]> ∅))).

Definition port_world : world :=
  World (DataFile [delta; epsilon] None None) port_files cfg 0 [].

(** Two creation requests that leave the port to its default, and one that
    asks for the port of epsilon's server.yaml. *)
Definition tools : Instances.probes := Instances.Probes true true true.
Definition req_a : Instances.create_request := Instances.CreateRequest "a" Js.Undefined "".
Definition req_b : Instances.create_request := Instances.CreateRequest "b" Js.Undefined "".
Definition req_c : Instances.create_request :=
  Instances.CreateRequest "c" (Js.Str "2537") "".

Definition creation_a : Instances.creation :=
  Instances.Creation "a" (Js.Str "2536") "yunzai" "/srv/instances/a".
Definition creation_b : Instances.creation :=
  Instances.Creation "b" (Js.Str "2536") "yunzai" "/srv/instances/b".
Definition creation_c : Instances.creation :=
  Instances.Creation "c" (Js.Str "2537") "yunzai" "/srv/instances/c".

Definition created_a : instance :=
  Instance "1700000000000" "a" "/srv/instances/a" (Js.Str "2536") "yunzai" None.
Definition created_b : instance :=
  Instance "1700000000001" "b" "/srv/instances/b" (Js.Str "2536") "yunzai" None.
Definition created_c : instance :=
  Instance "1700000000002" "c" "/srv/instances/c" (Js.Str "2537") "yunzai" None.

(** A server with an empty registry, and one whose registry is delta and
    epsilon. *)
Definition empty : server := boot cfg (DataFile [] None None) ∅.
Definition legacy : server := boot cfg (DataFile [delta; epsilon] None None) port_files.

(** Redis is installed; it is stopped in [r0] and running (child 0) in [r1]. *)
Definition r0 : server :=
  boot cfg (DataFile [] None None) (<["/srv/launcher/bin/redis/redis-server.exe" := File ""]> ∅).
Definition r1 : server := run [RedisStart; RedisStartSpawn] r0.

(** An observer is connected and alpha has just been started (child 0). *)
Definition s_started : server := run [Connect 7; Start "1"] s0.

Definition observer_log : list message :=
  [WELCOME "Connected to Launcher Server";
   LOG "1" "--- Starting Instance alpha ---";
   LOG "1" "Working Directory: /srv/instances/alpha";
   LOG "1" "Using Node: /usr/bin/node";
   STATUS "1" starting].

End Ex.


(** * Vocabulary of the further properties *)

(** No code unit of [str] starts an escape sequence (0x1b or 0x9b). *)
Definition plain (str : string) : bool :=
  forallb (fun c => negb (Regex.either (Regex.code 27) (Regex.code 155) c))
          (list_ascii_of_string str).

(** The line a chunk is logged as: trimmed, escape sequences removed; none
    for a blank chunk. *)
Definition logged_line (o : output) : option string :=
  let chunk := match o with Out chunk => chunk | Err chunk => chunk end in
  if String.eqb (Js.trim chunk) "" then None
  else Some (Instances.stripAnsi (Js.trim chunk)).

Definition is_status (m : message) : bool :=
  match m with STATUS _ _ => true | _ => false end.

(** Every record carries its port in its [port] field. *)
Definition ports_explicit (d : datafile) : Prop :=
  ∀ i, i ∈ instances d → Js.truthy (inst_port i) = true.


(** The command line of an instance, by its declared type: program,
    arguments, and whether it goes through a shell. *)
Definition launch (w : world) (i : instance) : string * list string * bool :=
  if String.eqb (inst_type i) "gsuid" then ("uv", ["run"; "core"], true)
  else (execPath (conf w), [path_join (inst_path i) ["app.js"]], false).

(** Every process of the table has the callbacks of its own instance, and
    every handle in use was given out by a spawn. *)
Definition table_ok (s : server) : Prop :=
  (∀ id child, runningProcesses (inst s) !! id = Some child →
     ∃ c, closures (inst s) !! child = Some c ∧ c_id c = id)
  ∧ (∀ child c, closures (inst s) !! child = Some c → child < next_child (os s)).

Create HintDb tab discriminated.

(** How the stop handler kills a child, by platform. *)
Definition kill_action (w : world) (child : nat) : effect :=
  if win32 (conf w)
  then Exec ("taskkill /PID " +:+ Js.string_of_nat child +:+ " /T /F")
  else Kill child "SIGKILL".

(** The bundled Redis binary. *)
Definition localRedis (w : world) : string :=
  path_join (BIN_DIR w) ["redis"; "redis-server.exe"].

(** The spawn of Redis from binary [p] as handle [h]. *)
Definition redis_spawn (w : world) (h : nat) (p : string) : effect :=
  Spawn h p ["--dir"; Dependencies.redisDataDir w] "" false.

(** A port as the creation form sends it: a non-empty run of digits. *)
Definition is_port_number (p : string) : bool :=
  match list_ascii_of_string p with
  | [] => false
  | l => forallb Js.is_digit l
  end.

(** An instance without a usable [llonebotPort]. *)
Definition portless (i : MigratePorts.inst) : bool :=
  negb (Js.truthy (MigratePorts.llonebotPort i)).

(** A number from [p] on. *)
Definition num_from (p : Z) (v : Js.value) : bool :=
  match v with
  | Js.Num m => (p <=? m)%Z
  | _ => false
  end.

(** Three instances before and after the migration: the second one holds
    port 3000. *)
Module ExMore.

Definition unmigrated : list MigratePorts.inst :=
  [MigratePorts.Inst "a" Js.Undefined;
   MigratePorts.Inst "b" (Js.Num 3000);
   MigratePorts.Inst "c" (Js.Num 0)].

Definition migrated : list MigratePorts.inst :=
  [MigratePorts.Inst "a" (Js.Num 3001);
   MigratePorts.Inst "b" (Js.Num 3000);
   MigratePorts.Inst "c" (Js.Num 3002)].

End ExMore.

(** * Properties *)

(** ** Association lists *)

Lemma get_set_eq {A} (o : Js.obj A) (k : string) (v : A) :
  Js.get (Js.set o k v) k = Some v.
Proof.
  induction o as [|[k' v'] o IH]; simpl.
  - by rewrite String.eqb_refl.
  - destruct (String.eqb k' k) eqn:E; simpl; rewrite E; auto.
Qed.

Lemma get_set_ne {A} (o : Js.obj A) (k k' : string) (v : A) :
  k ≠ k' → Js.get (Js.set o k v) k' = Js.get o k'.
Proof.
  intros Hne. induction o as [|[k0 v0] o IH]; simpl.
  - destruct (String.eqb k k') eqn:E; [apply String.eqb_eq in E; done | done].
  - destruct (String.eqb k0 k) eqn:E; simpl.
    + apply String.eqb_eq in E; subst k0.
      destruct (String.eqb k k') eqn:E'; [apply String.eqb_eq in E'; done | done].
    + by rewrite IH.
Qed.

(** ** Bounded buffers *)

Lemma push_capped_below cap buf line :
  length buf < cap → push_capped cap buf line = (buf ++ [line])%list.
Proof.
  intros H. unfold push_capped, Js.push.
  rewrite length_app; simpl.
  destruct (Nat.ltb_spec cap (length buf + 1)); [lia | done].
Qed.

Lemma push_capped_full cap buf line :
  length buf = cap → 0 < cap → push_capped cap buf line = (tail buf ++ [line])%list.
Proof.
  intros H Hpos. unfold push_capped, Js.push, Js.shift.
  rewrite length_app; simpl.
  destruct (Nat.ltb_spec cap (length buf + 1)); [| lia].
  destruct buf; simpl in *; [lia | done].
Qed.

Lemma push_capped_length cap buf line :
  length buf ≤ cap → length (push_capped cap buf line) ≤ cap.
Proof.
  intros H. unfold push_capped, Js.push, Js.shift.
  rewrite length_app; simpl.
  destruct (Nat.ltb_spec cap (length buf + 1)) as [Hlt|Hge].
  - destruct buf; simpl in *; [lia |]. rewrite length_app; simpl. lia.
  - rewrite length_app; simpl. lia.
Qed.

(** Appending a whole list of lines to an empty buffer keeps its last [cap]. *)
Lemma push_capped_fold cap (lines : list string) :
  0 < cap →
  fold_left (push_capped cap) lines [] = drop (length lines - cap) lines.
Proof.
  intros Hpos. induction lines as [|line lines IH] using rev_ind; [done|].
  rewrite fold_left_app; simpl. rewrite IH, length_app; simpl.
  destruct (decide (length lines < cap)) as [Hlt|Hge].
  - replace (length lines - cap) with 0 by lia.
    replace (length lines + 1 - cap) with 0 by lia.
    rewrite !drop_0. apply push_capped_below. done.
  - rewrite push_capped_full; [| rewrite length_drop; lia | done].
    replace (length lines + 1 - cap) with (S (length lines - cap)) by lia.
    rewrite drop_app_le by lia.
    f_equal. change (tail (drop (length lines - cap) lines))
      with (drop 1 (drop (length lines - cap) lines)).
    rewrite drop_drop. f_equal. lia.
Qed.

(** ** Every handler is a sequence of buffer and socket operations *)

Lemma prim_upd_os s0 f s : prim s0 s → prim s0 (upd_os f s).
Proof. intros H. by eapply prim_frame. Qed.

Lemma prim_upd_deps s0 f s : prim s0 s → prim s0 (upd_deps f s).
Proof. intros H. by eapply prim_frame. Qed.

Lemma prim_emit s0 e s : prim s0 s → prim s0 (emit e s).
Proof. apply prim_upd_os. Qed.

Lemma prim_upd_inst s0 f s :
  (∀ i, logHistory (f i) = logHistory i) →
  (∀ i, terminalLogs (f i) = terminalLogs i) →
  prim s0 s → prim s0 (upd_inst f s).
Proof. intros H1 H2 H. eapply prim_frame; eauto; simpl; auto. Qed.

Lemma prim_deps_global s0 m s : prim s0 s → prim s0 (Dependencies.broadcastGlobalLog m s).
Proof. apply prim_global. Qed.

Lemma prim_checkPortAvailable s0 p s : prim s0 s → prim s0 (Instances.checkPortAvailable p s).
Proof. apply prim_emit. Qed.

#[local] Hint Resolve prim_here prim_log prim_status prim_global prim_terminal
  prim_terminal_init prim_connect prim_upd_os prim_upd_deps prim_emit
  prim_deps_global prim_checkPortAvailable : prim.
#[local] Hint Extern 2 (prim _ (upd_inst _ _)) =>
  apply prim_upd_inst; [intros; reflexivity | intros; reflexivity |] : prim.

Ltac handler_cases :=
  repeat (simpl in *; case_match; simplify_eq); simpl in *.

Lemma step_prim e s : prim s (step e s).
Proof.
  destruct e; simpl.
  - auto with prim.
  - unfold Instances.start, spawn. handler_cases; auto 20 with prim.
  - unfold Instances.stop. handler_cases; auto 20 with prim.
  - unfold Instances.stop_taskkill_error. auto with prim.
  - unfold Instances.stdout_data. handler_cases; auto 20 with prim.
  - unfold Instances.stderr_data. handler_cases; auto 20 with prim.
  - unfold Instances.on_error. handler_cases; auto 20 with prim.
  - unfold Instances.on_close. handler_cases; auto 20 with prim.
  - unfold Instances.checkPort. handler_cases; auto 20 with prim.
  - unfold Instances.create. handler_cases; auto 20 with prim.
  - unfold Instances.create_resume. handler_cases; auto 20 with prim.
  - unfold Instances.config, Instances.config_commit. handler_cases; auto 20 with prim.
  - unfold Instances.config_resume, Instances.config_commit. handler_cases; auto 20 with prim.
  - unfold Instances.terminal, spawn. handler_cases; auto 20 with prim.
  - auto with prim.
  - unfold Dependencies.redis_start. handler_cases; auto 20 with prim.
  - unfold Dependencies.redis_start_spawn, spawn. handler_cases; auto 20 with prim.
  - unfold Dependencies.redis_start_verify. handler_cases; auto 20 with prim.
  - unfold Dependencies.redis_output. handler_cases; auto 20 with prim.
  - unfold Dependencies.redis_on_close. handler_cases; auto 20 with prim.
  - unfold Dependencies.redis_stop. handler_cases; auto 20 with prim.
Qed.

Lemma prim_trans s0 s1 s2 : prim s0 s1 → prim s1 s2 → prim s0 s2.
Proof.
  intros H01 H12. induction H12; eauto with prim.
  eapply prim_frame; eauto.
Qed.

Lemma run_prim es s : prim s (run es s).
Proof.
  revert s. induction es as [|e es IH]; intros s; simpl.
  - constructor.
  - eapply prim_trans; [apply step_prim | apply IH].
Qed.

(** ** The buffers stay within their capacities *)

Lemma broadcastLog_history id m s :
  Js.get (logHistory (inst (Instances.broadcastLog id m s))) id
  = Some (push_capped 1000 (default [] (Js.get (logHistory (inst s)) id)) m).
Proof. unfold Instances.broadcastLog; simpl. by rewrite get_set_eq. Qed.

Lemma broadcastLog_history_ne id id' m s :
  id ≠ id' →
  Js.get (logHistory (inst (Instances.broadcastLog id m s))) id'
  = Js.get (logHistory (inst s)) id'.
Proof. intros. unfold Instances.broadcastLog; simpl. by rewrite get_set_ne. Qed.

Lemma broadcastGlobalLog_history m s :
  globalLogHistory (ws (Instances.broadcastGlobalLog m s))
  = push_capped WsHelper.MAX_HISTORY (globalLogHistory (ws s)) m.
Proof.
  unfold Instances.broadcastGlobalLog, WsHelper.broadcastGlobalLog, WsHelper.broadcast.
  simpl. by destruct (wss (ws s)).
Qed.

Lemma broadcast_history m st :
  globalLogHistory (WsHelper.broadcast m st) = globalLogHistory st.
Proof. unfold WsHelper.broadcast. by destruct (wss st). Qed.

Lemma bounded_log id m s : bounded s → bounded (Instances.broadcastLog id m s).
Proof.
  intros (Hl & Hg & Ht). split; [| split].
  - intros id' buf. destruct (decide (id = id')) as [<-|Hne].
    + rewrite broadcastLog_history. intros [= <-].
      apply push_capped_length.
      destruct (Js.get (logHistory (inst s)) id) eqn:E; [exact (Hl _ _ E) | apply Nat.le_0_l].
    + rewrite broadcastLog_history_ne by done. apply Hl.
  - unfold Instances.broadcastLog; simpl.
    unfold WsHelper.broadcastLog. by rewrite broadcast_history.
  - apply Ht.
Qed.

Lemma bounded_status id st s : bounded s → bounded (Instances.broadcastStatus id st s).
Proof.
  intros (Hl & Hg & Ht). split; [| split]; [apply Hl | | apply Ht].
  unfold Instances.broadcastStatus; simpl.
  unfold WsHelper.broadcastStatus. by rewrite broadcast_history.
Qed.

Lemma bounded_global m s : bounded s → bounded (Instances.broadcastGlobalLog m s).
Proof.
  intros (Hl & Hg & Ht). split; [| split]; [apply Hl | | apply Ht].
  rewrite broadcastGlobalLog_history. by apply push_capped_length.
Qed.

Lemma bounded_terminal id m s :
  bounded s → bounded (Instances.broadcastTerminalOutput id m s).
Proof.
  intros (Hl & Hg & Ht). unfold Instances.broadcastTerminalOutput.
  destruct (Js.get (terminalLogs (inst s)) id) as [logs|] eqn:E; [| done].
  split; [| split]; [apply Hl | apply Hg |].
  intros id' buf; simpl. destruct (decide (id = id')) as [<-|Hne].
  - rewrite get_set_eq. intros [= <-].
    apply (push_capped_length 500). exact (Ht _ _ E).
  - rewrite get_set_ne by done. apply Ht.
Qed.

Lemma bounded_prim s0 s : prim s0 s → bounded s0 → bounded s.
Proof.
  intros Hp H0. induction Hp as [| | | | | id s Hp IH | sock s Hp IH | s s' Hp IH Hws Hl Ht];
    auto using bounded_log, bounded_status, bounded_global, bounded_terminal.
  - destruct IH as (Hl & Hg & Ht). split; [| split]; [apply Hl | apply Hg |].
    intros id' buf; simpl. destruct (decide (id = id')) as [<-|Hne].
    + rewrite get_set_eq. intros [= <-]. apply Nat.le_0_l.
    + rewrite get_set_ne by done. apply Ht.
  - destruct IH as (Hl & Hg & Ht). split; [| split]; [apply Hl | | apply Ht].
    unfold Instances.connect, WsHelper.connection; simpl.
    by destruct (wss (ws s)).
  - destruct IH as (Hl' & Hg' & Ht'). unfold bounded. by rewrite Hws, Hl, Ht.
Qed.

Lemma bounded_boot c d files : bounded (boot c d files).
Proof. split; [| split]; [done | apply Nat.le_0_l | done]. Qed.

Lemma broadcastTerminalOutput_history id m s logs :
  Js.get (terminalLogs (inst s)) id = Some logs →
  Js.get (terminalLogs (inst (Instances.broadcastTerminalOutput id m s))) id
  = Some (push_capped 500 logs m).
Proof.
  intros E. unfold Instances.broadcastTerminalOutput. rewrite E; simpl.
  by rewrite get_set_eq.
Qed.

Lemma broadcastLog_fold id lines s :
  Js.get (logHistory (inst (fold_left (fun s m => Instances.broadcastLog id m s) lines s))) id
  = match lines with
    | [] => Js.get (logHistory (inst s)) id
    | _ => Some (fold_left (push_capped 1000) lines
                   (default [] (Js.get (logHistory (inst s)) id)))
    end.
Proof.
  revert s. induction lines as [|m lines IH]; intros s; [done|].
  simpl. rewrite IH. rewrite broadcastLog_history.
  destruct lines; [done|]. done.
Qed.

(** C4. No buffer ever exceeds its capacity: after any sequence of events
    from the start of the server, each instance's log history holds at most
    1000 lines, the global history at most 500, each terminal history at most
    500.  An append to a buffer below its capacity evicts nothing; an append
    to a buffer that holds exactly its capacity (the line is then the
    (capacity+1)-th) evicts exactly the oldest line.  Hence a fresh instance
    buffer that is appended a list of lines holds its last 1000. *)
Theorem C4_log_buffers_bounded :
  (∀ c d files es, let s := run es (boot c d files) in
     (∀ id buf, Js.get (logHistory (inst s)) id = Some buf → length buf ≤ 1000)
     ∧ length (globalLogHistory (ws s)) ≤ 500
     ∧ (∀ id buf, Js.get (terminalLogs (inst s)) id = Some buf → length buf ≤ 500))
  ∧ (∀ s id line, let buf := default [] (Js.get (logHistory (inst s)) id) in
       let buf' := Js.get (logHistory (inst (Instances.broadcastLog id line s))) id in
       (length buf < 1000 → buf' = Some (buf ++ [line]))
       ∧ (length buf = 1000 → buf' = Some (tail buf ++ [line])))
  ∧ (∀ s line, let buf := globalLogHistory (ws s) in
       let buf' := globalLogHistory (ws (Instances.broadcastGlobalLog line s)) in
       (length buf < 500 → buf' = buf ++ [line])
       ∧ (length buf = 500 → buf' = tail buf ++ [line]))
  ∧ (∀ s id line buf, Js.get (terminalLogs (inst s)) id = Some buf →
       let buf' := Js.get (terminalLogs (inst (Instances.broadcastTerminalOutput id line s))) id in
       (length buf < 500 → buf' = Some (buf ++ [line]))
       ∧ (length buf = 500 → buf' = Some (tail buf ++ [line])))
  ∧ (∀ s id lines, Js.get (logHistory (inst s)) id = None → lines ≠ [] →
       Js.get (logHistory (inst (fold_left (fun s m => Instances.broadcastLog id m s) lines s))) id
       = Some (drop (length lines - 1000) lines)).
Proof.
  split; [| split; [| split; [| split]]].
  - intros c d files es s.
    apply (bounded_prim (boot c d files)); [apply run_prim | apply bounded_boot].
  - intros s id line buf buf'. subst buf'. rewrite broadcastLog_history. fold buf.
    split; intros H.
    + by rewrite push_capped_below.
    + rewrite push_capped_full; [done | done | apply Nat.lt_0_succ].
  - intros s line buf buf'. subst buf'. rewrite broadcastGlobalLog_history. fold buf.
    split; intros H.
    + by rewrite push_capped_below.
    + rewrite push_capped_full; [done | done | apply Nat.lt_0_succ].
  - intros s id line buf E buf'. subst buf'.
    rewrite (broadcastTerminalOutput_history _ _ _ _ E).
    split; intros H.
    + by rewrite push_capped_below.
    + rewrite push_capped_full; [done | done | apply Nat.lt_0_succ].
  - intros s id lines E Hne. rewrite broadcastLog_fold, E; simpl.
    destruct lines; [done|].
    f_equal. apply push_capped_fold, Nat.lt_0_succ.
Qed.

Lemma C4_log_buffers_bounded_witness :
  length (globalLogHistory (ws (run [Start "1"; Stop "1"] Ex.s0))) ≤ 500
  ∧ Js.get (logHistory (inst (Instances.broadcastLog "1" "x" Ex.s0))) "1" = Some ["x"]
  ∧ Js.get (logHistory (inst (Instances.broadcastLog "1" "new" Ex.full))) "1"
    = Some (replicate 999 "old" ++ ["new"])
  ∧ Js.get (logHistory (inst (fold_left (fun s m => Instances.broadcastLog "1" m s)
                                ["a"; "b"] Ex.s0))) "1" = Some ["a"; "b"].
Proof.
  split; [| split; [| split]].
  - apply (proj1 C4_log_buffers_bounded Ex.cfg _ Ex.files [Start "1"; Stop "1"]).
  - apply (proj1 (proj1 (proj2 C4_log_buffers_bounded) Ex.s0 "1" "x")).
    apply Nat.lt_0_succ.
  - apply (proj2 (proj1 (proj2 C4_log_buffers_bounded) Ex.full "1" "new")).
    vm_compute. reflexivity.
  - apply (proj2 (proj2 (proj2 (proj2 C4_log_buffers_bounded))) Ex.s0 "1" ["a"; "b"]);
      [reflexivity | discriminate].
Defined.

(** ** Log history query *)



(** ** Stop *)

Lemma send_all_nil c : send_all [] c = c.
Proof. done. Qed.

Lemma send_all_app l1 l2 c : send_all (l1 ++ l2) c = send_all l2 (send_all l1 c).
Proof. unfold send_all. by rewrite fold_left_app. Qed.

Lemma send_all_open sock msgs l :
  send_all l (Client sock OPEN msgs) = Client sock OPEN (msgs ++ l).
Proof.
  revert msgs. induction l as [|m l IH]; intros msgs.
  - unfold send_all; simpl. by rewrite app_nil_r.
  - change (send_all (m :: l) (Client sock OPEN msgs))
      with (send_all l (Client sock OPEN (msgs ++ [m]))).
    rewrite IH. by rewrite <- app_assoc.
Qed.

Lemma wss_broadcast m st :
  wss (WsHelper.broadcast m st) = map (WsHelper.send m) <$> wss st.
Proof. unfold WsHelper.broadcast. by destruct (wss st) eqn:E; simpl; rewrite ?E. Qed.



(** ** Start *)

Lemma broadcastLog_os id m s : os (Instances.broadcastLog id m s) = os s.
Proof. done. Qed.

Lemma broadcastLog_running id m s :
  runningProcesses (inst (Instances.broadcastLog id m s)) = runningProcesses (inst s).
Proof. done. Qed.

Lemma broadcastLog_closures id m s :
  closures (inst (Instances.broadcastLog id m s)) = closures (inst s).
Proof. done. Qed.

(** C5. For a registered instance: when the process table has an entry for
    it, start answers "Already running" and the whole state is unchanged (so
    nothing is spawned and the entry is untouched); when it has none and the
    instance's root path does not exist, start answers the path-missing
    error, nothing is spawned and the process table is unchanged.  Hence a
    start that succeeded, called again at once, answers "Already running" and
    changes nothing. *)
Theorem C5_start_guards (s : server) (id : string) (instance : instance) :
  Instances.find_instance (data (os s)) id = Some instance →
  (∀ child, runningProcesses (inst s) !! id = Some child →
     Instances.start id s = (Json 400 (BError "Already running"), s))
  ∧ (runningProcesses (inst s) !! id = None →
     existsSync (os s) (inst_path instance) = false →
     let s' := snd (Instances.start id s) in
     fst (Instances.start id s)
       = Json 500 (BError ("Instance path not found: " +:+ inst_path instance))
     ∧ effects (os s') = effects (os s)
     ∧ next_child (os s') = next_child (os s)
     ∧ runningProcesses (inst s') = runningProcesses (inst s)
     ∧ closures (inst s') = closures (inst s))
  ∧ (∀ s', Instances.start id s = (Json 200 (BMessage "Starting"), s') →
     Instances.start id s' = (Json 400 (BError "Already running"), s')).
Proof.
  intros Hfind. split; [| split].
  - intros child Hrun. unfold Instances.start. by rewrite Hfind, Hrun.
  - intros Hrun Hpath s'. subst s'. unfold Instances.start. rewrite Hfind, Hrun.
    destruct (inst_proxy instance) as [p|]; [destruct (negb (String.eqb (host p) ""))|];
      rewrite ?broadcastLog_os, Hpath; done.
  - intros s' Hstart. unfold Instances.start in Hstart. rewrite Hfind in Hstart.
    destruct (runningProcesses (inst s) !! id) eqn:Hrun; [done|].
    set (s1 := match inst_proxy instance with
               | Some p => _ | None => _ end) in Hstart.
    assert (os s1 = os s) as Hos.
    { subst s1. destruct (inst_proxy instance) as [p|]; [| done].
      by destruct (negb (String.eqb (host p) "")). }
    destruct (negb (existsSync (os s1) (inst_path instance))); [done|].
    assert (Instances.find_instance (data (os s')) id = Some instance
            ∧ is_Some (runningProcesses (inst s') !! id)) as [Hfind' [child Hrun']].
    { unfold spawn in Hstart.
      destruct (String.eqb _ "gsuid"); simplify_eq; simpl; rewrite Hos;
        (split; [done | rewrite lookup_insert_eq; eauto]). }
    unfold Instances.start. by rewrite Hfind', Hrun'.
Qed.

Lemma C5_start_guards_witness :
  Instances.start "1" Ex.s2 = (Json 400 (BError "Already running"), Ex.s2)
  ∧ fst (Instances.start "3" Ex.s2)
    = Json 500 (BError "Instance path not found: /srv/instances/gamma")
  ∧ effects (os (snd (Instances.start "3" Ex.s2))) = effects (os Ex.s2)
  ∧ Instances.start "1" (snd (Instances.start "1" Ex.s0))
    = (Json 400 (BError "Already running"), snd (Instances.start "1" Ex.s0)).
Proof.
  split; [| split; [| split]].
  - refine (proj1 (C5_start_guards Ex.s2 "1" Ex.alpha _) 0 _); vm_compute; reflexivity.
  - refine (proj1 (proj1 (proj2 (C5_start_guards Ex.s2 "3" Ex.gamma _)) _ _));
      vm_compute; reflexivity.
  - refine (proj1 (proj2 (proj1 (proj2 (C5_start_guards Ex.s2 "3" Ex.gamma _)) _ _)));
      vm_compute; reflexivity.
  - refine (proj2 (proj2 (C5_start_guards Ex.s0 "1" Ex.alpha _)) _ _);
      vm_compute; reflexivity.
Defined.

(** ** Replay on connection, then live delivery *)

Lemma send_open sock r m :
  WsHelper.send m (Client sock OPEN r) = Client sock OPEN (r ++ [m]).
Proof. done. Qed.

Lemma fold_send_open {A} (f : A → message) (l : list A) sock r :
  fold_left (fun w x => WsHelper.send (f x) w) l (Client sock OPEN r)
  = Client sock OPEN (r ++ map f l).
Proof.
  revert r. induction l as [|x l IH]; intros r; simpl.
  - by rewrite app_nil_r.
  - rewrite send_open, IH. by rewrite <- app_assoc.
Qed.

Lemma fold_guarded_send_open {A} (f : A → message) (l : list A) sock r :
  fold_left (fun w x => match readyState w with
                        | OPEN => WsHelper.send (f x) w
                        | _ => w
                        end) l (Client sock OPEN r)
  = Client sock OPEN (r ++ map f l).
Proof.
  revert r. induction l as [|x l IH]; intros r; simpl.
  - by rewrite app_nil_r.
  - rewrite send_open, IH. by rewrite <- app_assoc.
Qed.

Lemma fold_keys_open (h : client → string → client) (g : string → list message)
    (ks : list string) sock r :
  (∀ r id, h (Client sock OPEN r) id = Client sock OPEN (r ++ g id)) →
  fold_left h ks (Client sock OPEN r) = Client sock OPEN (r ++ flat_map g ks).
Proof.
  intros Hh. revert r. induction ks as [|k ks IH]; intros r; simpl.
  - by rewrite app_nil_r.
  - rewrite Hh, IH. by rewrite <- app_assoc.
Qed.

Lemma connectionHandler_open i sock r :
  Instances.connectionHandler i (Client sock OPEN r)
  = Client sock OPEN
      (r ++ flat_map (fun id => map (LOG id) (default [] (Js.get (logHistory i) id)))
              (Js.keys (logHistory i))
         ++ flat_map (fun id =>
                map (TERMINAL_OUTPUT id) (default [] (Js.get (terminalLogs i) id))
                ++ match terminalProcesses i !! id with
                   | Some _ => [TERMINAL_OPENED id]
                   | None => []
                   end)
              (Js.keys (terminalLogs i))).
Proof.
  unfold Instances.connectionHandler.
  rewrite (fold_keys_open _
             (fun id => map (LOG id) (default [] (Js.get (logHistory i) id))));
    [| intros; apply fold_guarded_send_open].
  rewrite (fold_keys_open _
             (fun id => map (TERMINAL_OUTPUT id) (default [] (Js.get (terminalLogs i) id))
                        ++ match terminalProcesses i !! id with
                           | Some _ => [TERMINAL_OPENED id]
                           | None => []
                           end)).
  - by rewrite <- app_assoc.
  - intros r' id. rewrite fold_guarded_send_open.
    destruct (terminalProcesses i !! id); simpl.
    + rewrite send_open. by rewrite <- app_assoc.
    + by rewrite app_nil_r.
Qed.

Lemma connect_replay sock s clients :
  wss (ws s) = Some clients →
  wss (ws (Instances.connect sock s)) = Some (clients ++ [Client sock OPEN (replay s)]).
Proof.
  intros E. unfold Instances.connect, WsHelper.connection; simpl. rewrite E; simpl.
  do 3 f_equal. rewrite send_open, fold_send_open, connectionHandler_open.
  unfold replay. simpl. by rewrite <- ?app_assoc.
Qed.

Lemma map_send_all_nil (clients : list client) : map (send_all []) clients = clients.
Proof. induction clients as [|c clients IH]; simpl; [done | by rewrite IH]. Qed.

Lemma delivered_refl s : delivered s s.
Proof.
  intros clients E. exists [], []. by rewrite app_nil_r, map_send_all_nil.
Qed.

Lemma delivered_trans s1 s2 s3 : delivered s1 s2 → delivered s2 s3 → delivered s1 s3.
Proof.
  intros H12 H23 clients E.
  destruct (H12 _ E) as (l1 & later1 & E2).
  destruct (H23 _ E2) as (l2 & later2 & E3).
  exists (l1 ++ l2), (map (send_all l2) later1 ++ later2).
  rewrite E3, map_app, map_map, <- app_assoc.
  do 2 f_equal. apply map_ext. intros c. by rewrite send_all_app.
Qed.

Lemma delivered_broadcast m f s :
  ws (f s) = WsHelper.broadcast m (ws s) → delivered s (f s).
Proof.
  intros Hf clients E. exists [m], []. rewrite app_nil_r, Hf, wss_broadcast, E. done.
Qed.

Lemma delivered_prim s0 s : prim s0 s → delivered s0 s.
Proof.
  induction 1 as [| id m s _ IH | id st s _ IH | m s _ IH | id m s _ IH
                  | id s _ IH | sock s _ IH | s s' _ IH Hws _ _].
  - apply delivered_refl.
  - eapply delivered_trans; [exact IH|].
    by apply (delivered_broadcast (LOG id m) (Instances.broadcastLog id m)).
  - eapply delivered_trans; [exact IH|].
    by apply (delivered_broadcast (STATUS id st) (Instances.broadcastStatus id st)).
  - eapply delivered_trans; [exact IH|].
    intros clients E. exists [GLOBAL_LOG m], []. rewrite app_nil_r.
    simpl. unfold WsHelper.broadcastGlobalLog. rewrite wss_broadcast. simpl.
    by rewrite E.
  - eapply delivered_trans; [exact IH|].
    intros clients E. exists [], []. rewrite app_nil_r.
    rewrite map_send_all_nil.
    unfold Instances.broadcastTerminalOutput. by case_match; simpl; rewrite E.
  - eapply delivered_trans; [exact IH|].
    intros clients E. exists [], []. rewrite app_nil_r, map_send_all_nil. simpl.
    by rewrite E.
  - eapply delivered_trans; [exact IH|].
    intros clients E. exists [], [Client sock OPEN (replay s)].
    by rewrite (connect_replay _ _ _ E), map_send_all_nil.
  - eapply delivered_trans; [exact IH|].
    intros clients E. exists [], []. by rewrite app_nil_r, map_send_all_nil, Hws, E.
Qed.
















(** ** From starting to running *)

Lemma running_events_app id l1 l2 :
  running_events id (l1 ++ l2) = running_events id l1 + running_events id l2.
Proof. unfold running_events. by rewrite List.filter_app, length_app. Qed.

Lemma running_events_chunk_log id id' chunk : running_events id (chunk_log id' chunk) = 0.
Proof. unfold chunk_log. by destruct (String.eqb (Js.trim chunk) ""). Qed.

Lemma running_events_running id : running_events id [STATUS id running] = 1.
Proof. unfold running_events. simpl. by rewrite String.eqb_refl. Qed.

Lemma wss_broadcastLog id m s :
  wss (ws (Instances.broadcastLog id m s)) = map (WsHelper.send (LOG id m)) <$> wss (ws s).
Proof. simpl. unfold WsHelper.broadcastLog. by rewrite wss_broadcast. Qed.

Lemma wss_broadcastStatus id st s :
  wss (ws (Instances.broadcastStatus id st s))
  = map (WsHelper.send (STATUS id st)) <$> wss (ws s).
Proof. simpl. unfold WsHelper.broadcastStatus. by rewrite wss_broadcast. Qed.

Lemma map_send_all_cons m (clients : list client) :
  map (WsHelper.send m) clients = map (send_all [m]) clients.
Proof. done. Qed.

Lemma map_send_all_app l1 l2 (clients : list client) :
  map (send_all l2) (map (send_all l1) clients) = map (send_all (l1 ++ l2)) clients.
Proof. rewrite map_map. apply map_ext. intros c. by rewrite send_all_app. Qed.

(** One chunk on the standard output of a child that has not been marked as
    started: the line is logged when it is not blank, and the [running]
    status goes out in any case. *)
Lemma stdout_data_first child id chunk s clients :
  closures (inst s) !! child = Some (Closure id false) →
  wss (ws s) = Some clients →
  wss (ws (Instances.stdout_data child chunk s))
  = Some (map (send_all (chunk_log id chunk ++ [STATUS id running])) clients)
  ∧ closures (inst (Instances.stdout_data child chunk s))
    = <[child := Closure id true]> (closures (inst s)).
Proof.
  intros Hc Hw. unfold Instances.stdout_data, chunk_log. rewrite Hc; simpl.
  destruct (String.eqb (Js.trim chunk) ""); simpl.
  - unfold WsHelper.broadcastStatus, WsHelper.broadcast. by rewrite Hw.
  - unfold WsHelper.broadcastStatus, WsHelper.broadcastLog, WsHelper.broadcast.
    rewrite Hw. simpl. by rewrite map_map.
Qed.

Lemma stdout_data_later child id chunk s clients :
  closures (inst s) !! child = Some (Closure id true) →
  wss (ws s) = Some clients →
  wss (ws (Instances.stdout_data child chunk s))
  = Some (map (send_all (chunk_log id chunk)) clients)
  ∧ closures (inst (Instances.stdout_data child chunk s)) = closures (inst s).
Proof.
  intros Hc Hw. unfold Instances.stdout_data, chunk_log. rewrite Hc; simpl.
  destruct (String.eqb (Js.trim chunk) ""); simpl.
  - by rewrite Hw, map_send_all_nil.
  - unfold WsHelper.broadcastLog, WsHelper.broadcast. by rewrite Hw.
Qed.

Lemma stderr_data_any child c chunk s clients :
  closures (inst s) !! child = Some c →
  wss (ws s) = Some clients →
  wss (ws (Instances.stderr_data child chunk s))
  = Some (map (send_all (chunk_log (c_id c) chunk)) clients)
  ∧ closures (inst (Instances.stderr_data child chunk s)) = closures (inst s).
Proof.
  intros Hc Hw. unfold Instances.stderr_data, chunk_log. rewrite Hc; simpl.
  destruct (String.eqb (Js.trim chunk) ""); simpl.
  - by rewrite Hw, map_send_all_nil.
  - unfold WsHelper.broadcastLog, WsHelper.broadcast. by rewrite Hw.
Qed.

Lemma feed_running child id outs : ∀ started s clients,
  closures (inst s) !! child = Some (Closure id started) →
  wss (ws s) = Some clients →
  ∃ msgs,
    wss (ws (feed child outs s)) = Some (map (send_all msgs) clients)
    ∧ running_events id msgs
      = (if started then 0 else if existsb is_out outs then 1 else 0).
Proof.
  induction outs as [|o outs IH]; intros started s clients Hc Hw.
  - exists []. rewrite map_send_all_nil. by destruct started.
  - unfold feed in *. destruct o as [chunk|chunk]; simpl.
    + destruct started.
      * destruct (stdout_data_later _ _ chunk _ _ Hc Hw) as [Hw' Hc'].
        rewrite <- Hc' in Hc.
        destruct (IH true _ _ Hc Hw') as (msgs & E & Hn).
        exists (chunk_log id chunk ++ msgs). rewrite E, map_send_all_app.
        by rewrite running_events_app, running_events_chunk_log, Hn.
      * destruct (stdout_data_first _ _ chunk _ _ Hc Hw) as [Hw' Hc'].
        assert (closures (inst (Instances.stdout_data child chunk s)) !! child
                = Some (Closure id true)) as Hc''.
        { by rewrite Hc', lookup_insert_eq. }
        destruct (IH true _ _ Hc'' Hw') as (msgs & E & Hn).
        exists ((chunk_log id chunk ++ [STATUS id running]) ++ msgs).
        rewrite E, map_send_all_app.
        by rewrite !running_events_app, running_events_chunk_log,
                   running_events_running, Hn.
    + destruct (stderr_data_any _ _ chunk _ _ Hc Hw) as [Hw' Hc'].
      rewrite <- Hc' in Hc.
      destruct (IH started _ _ Hc Hw') as (msgs & E & Hn).
      exists (chunk_log id chunk ++ msgs). rewrite E, map_send_all_app.
      by rewrite running_events_app, running_events_chunk_log, Hn.
Qed.

(** C6, as stated, fails on the code.  A child whose first non-blank line
    comes on its standard error is logged but never reported as running; a
    child whose first chunk on its standard output is blank is reported as
    running although it has produced no line. *)
Lemma C6_first_line_counterexample :
  (wss (ws (run [Stderr 0 "Bot ready"] Ex.s_started))
   = Some [Client 7 OPEN (Ex.observer_log ++ [LOG "1" "Bot ready"])])
  ∧ (wss (ws (run [Stdout 0 "   "] Ex.s_started))
     = Some [Client 7 OPEN (Ex.observer_log ++ [STATUS "1" running])])
  ∧ logHistory (inst (run [Stdout 0 "   "] Ex.s_started))
    = logHistory (inst Ex.s_started).
Proof. vm_compute. done. Qed.

(** C6, amended.  For a started child not yet marked as started: the
    [running] status is sent on the first chunk that arrives on its standard
    output, blank or not, after the line of that chunk (if any) has been
    logged; a chunk on its standard error is logged and sends no status; over
    any sequence of chunks the observers are sent [running] once when some
    chunk came on the standard output, and never otherwise (the instance
    stays in [starting]). *)
Theorem C6_running_on_first_stdout_chunk (s : server) (child : nat) (id : string)
    (clients : list client) :
  closures (inst s) !! child = Some (Closure id false) →
  wss (ws s) = Some clients →
  (∀ chunk,
     wss (ws (Instances.stdout_data child chunk s))
     = Some (map (send_all (chunk_log id chunk ++ [STATUS id running])) clients))
  ∧ (∀ chunk,
       wss (ws (Instances.stderr_data child chunk s))
       = Some (map (send_all (chunk_log id chunk)) clients)
       ∧ closures (inst (Instances.stderr_data child chunk s)) = closures (inst s))
  ∧ (∀ outs, ∃ msgs,
       wss (ws (feed child outs s)) = Some (map (send_all msgs) clients)
       ∧ running_events id msgs = if existsb is_out outs then 1 else 0).
Proof.
  intros Hc Hw. split; [| split].
  - intros chunk. by destruct (stdout_data_first _ _ chunk _ _ Hc Hw).
  - intros chunk. apply (stderr_data_any _ _ chunk _ _ Hc Hw).
  - intros outs. apply (feed_running child id outs false s clients Hc Hw).
Qed.

Lemma C6_running_on_first_stdout_chunk_witness :
  wss (ws (Instances.stdout_data 0 "listening" Ex.s_started))
  = Some (map (send_all (chunk_log "1" "listening" ++ [STATUS "1" running]))
              [Client 7 OPEN Ex.observer_log])
  ∧ ∃ msgs,
      wss (ws (feed 0 [Err "warn"; Err "boot"] Ex.s_started))
      = Some (map (send_all msgs) [Client 7 OPEN Ex.observer_log])
      ∧ running_events "1" msgs = 0.
Proof.
  split.
  - refine (proj1 (C6_running_on_first_stdout_chunk Ex.s_started 0 "1" _ _ _) "listening");
      vm_compute; reflexivity.
  - refine (proj2 (proj2 (C6_running_on_first_stdout_chunk Ex.s_started 0 "1" _ _ _))
              [Err "warn"; Err "boot"]);
      vm_compute; reflexivity.
Defined.

(** ** Automatic stop of the shared Redis *)

Lemma redis_stop_requests_emit e s :
  redis_stop_requests (emit e s)
  = redis_stop_requests s + (if is_redis_stop_request e then 1 else 0).
Proof.
  unfold redis_stop_requests. simpl. rewrite List.filter_app, length_app. simpl.
  by destruct (is_redis_stop_request e).
Qed.

Lemma stop_effect id child s :
  runningProcesses (inst s) !! id = Some child →
  let s' := snd (Instances.stop id s) in
  runningProcesses (inst s') = delete id (runningProcesses (inst s))
  ∧ closures (inst s') = closures (inst s)
  ∧ data (os s') = data (os s)
  ∧ redis_stop_requests s' = redis_stop_requests s.
Proof.
  intros H s'. subst s'. unfold Instances.stop. rewrite H. cbn [snd].
  destruct (win32 (conf (os s))); repeat split;
    change (redis_stop_requests (Instances.broadcastLog ?i ?m ?x))
      with (redis_stop_requests x);
    (etransitivity; [apply redis_stop_requests_emit | simpl; lia]).
Qed.

Lemma stop_not_running id s :
  runningProcesses (inst s) !! id = None → snd (Instances.stop id s) = s.
Proof. intros H. unfold Instances.stop. by rewrite H. Qed.

(** What the exit callback does to the process table and to the requests. *)
Lemma on_close_effect child c code s :
  closures (inst s) !! child = Some c →
  let s' := Instances.on_close child code s in
  let table := delete (c_id c) (runningProcesses (inst s)) in
  runningProcesses (inst s') = table
  ∧ closures (inst s') = closures (inst s)
  ∧ data (os s') = data (os s)
  ∧ redis_stop_requests s'
    = redis_stop_requests s
      + (if bool_decide (size table = 0 ∧ redisKeepAlive (data (os s)) ≠ Some true)
         then 1 else 0).
Proof.
  intros H s' table. subst s' table. unfold Instances.on_close. rewrite H.
  set (s1 := Instances.broadcastStatus _ _ _).
  assert (runningProcesses (inst s1) = delete (c_id c) (runningProcesses (inst s))) as Ht
    by done.
  assert (data (os s1) = data (os s)) as Hd by done.
  assert (closures (inst s1) = closures (inst s)) as Hc by done.
  assert (redis_stop_requests s1 = redis_stop_requests s) as Hr by done.
  rewrite Ht, Hd.
  destruct (Nat.eqb_spec (size (delete (c_id c) (runningProcesses (inst s)))) 0) as [E|E].
  - destruct (redisKeepAlive (data (os s))) as [[|]|] eqn:K; cbn [negb].
    + rewrite bool_decide_false by (intros [_ ?]; done).
      repeat split; try done; try (rewrite Hr; lia).
    + rewrite bool_decide_true by (split; [done | congruence]).
      repeat split; try done.
      change (redis_stop_requests (emit Instances.redis_stop_request s1)
              = redis_stop_requests s + 1).
      rewrite redis_stop_requests_emit, Hr. simpl. lia.
    + rewrite bool_decide_true by (split; [done | congruence]).
      repeat split; try done.
      change (redis_stop_requests (emit Instances.redis_stop_request s1)
              = redis_stop_requests s + 1).
      rewrite redis_stop_requests_emit, Hr. simpl. lia.
  - rewrite bool_decide_false by (intros [? _]; done).
    repeat split; try done; try (rewrite Hr; lia).
Qed.

Lemma quiet_here s0 : quiet s0 s0.
Proof. done. Qed.
Lemma quiet_log s0 id m s : quiet s0 s → quiet s0 (Instances.broadcastLog id m s).
Proof. done. Qed.
Lemma quiet_status s0 id st s : quiet s0 s → quiet s0 (Instances.broadcastStatus id st s).
Proof. done. Qed.
Lemma quiet_global s0 m s : quiet s0 s → quiet s0 (Instances.broadcastGlobalLog m s).
Proof. done. Qed.
Lemma quiet_deps_global s0 m s : quiet s0 s → quiet s0 (Dependencies.broadcastGlobalLog m s).
Proof. done. Qed.
Lemma quiet_terminal s0 id m s :
  quiet s0 s → quiet s0 (Instances.broadcastTerminalOutput id m s).
Proof. unfold Instances.broadcastTerminalOutput. by case_match. Qed.
Lemma quiet_connect s0 sock s : quiet s0 s → quiet s0 (Instances.connect sock s).
Proof. done. Qed.
Lemma quiet_upd_inst s0 f s : quiet s0 s → quiet s0 (upd_inst f s).
Proof. done. Qed.
Lemma quiet_upd_deps s0 f s : quiet s0 s → quiet s0 (upd_deps f s).
Proof. done. Qed.
Lemma quiet_upd_os s0 f s :
  (∀ w, effects (f w) = effects w) → quiet s0 s → quiet s0 (upd_os f s).
Proof. intros Hf H. unfold quiet, redis_stop_requests in *. simpl. by rewrite Hf. Qed.
Lemma quiet_emit s0 e s :
  is_redis_stop_request e = false → quiet s0 s → quiet s0 (emit e s).
Proof. intros He H. unfold quiet in *. rewrite redis_stop_requests_emit, He. lia. Qed.
Lemma quiet_checkPortAvailable s0 p s :
  quiet s0 s → quiet s0 (Instances.checkPortAvailable p s).
Proof. by apply quiet_emit. Qed.

#[local] Hint Resolve quiet_here quiet_log quiet_status quiet_global quiet_deps_global
  quiet_terminal quiet_connect quiet_upd_inst quiet_upd_deps quiet_checkPortAvailable : quiet.
#[local] Hint Extern 2 (quiet _ (emit _ _)) => apply quiet_emit; [reflexivity |] : quiet.
#[local] Hint Extern 2 (quiet _ (upd_os _ _)) =>
  apply quiet_upd_os; [intros; reflexivity |] : quiet.

Lemma only_exit_callback_requests_redis_stop e s :
  (∀ child code, e ≠ Close child code) →
  redis_stop_requests (step e s) = redis_stop_requests s.
Proof.
  intros Hne. change (quiet s (step e s)).
  destruct e; try (by exfalso; eapply Hne); clear Hne; simpl.
  - auto with quiet.
  - unfold Instances.start, spawn. handler_cases; auto 20 with quiet.
  - unfold Instances.stop. handler_cases; auto 20 with quiet.
  - unfold Instances.stop_taskkill_error. auto with quiet.
  - unfold Instances.stdout_data. handler_cases; auto 20 with quiet.
  - unfold Instances.stderr_data. handler_cases; auto 20 with quiet.
  - unfold Instances.on_error. handler_cases; auto 20 with quiet.
  - unfold Instances.checkPort. handler_cases; auto 20 with quiet.
  - unfold Instances.create. handler_cases; auto 20 with quiet.
  - unfold Instances.create_resume. handler_cases; auto 20 with quiet.
  - unfold Instances.config, Instances.config_commit. handler_cases; auto 20 with quiet.
  - unfold Instances.config_resume, Instances.config_commit. handler_cases; auto 20 with quiet.
  - unfold Instances.terminal, spawn. handler_cases; auto 20 with quiet.
  - auto with quiet.
  - unfold Dependencies.redis_start. handler_cases; auto 20 with quiet.
  - unfold Dependencies.redis_start_spawn, spawn. handler_cases; auto 20 with quiet.
  - unfold Dependencies.redis_start_verify. handler_cases; auto 20 with quiet.
  - unfold Dependencies.redis_output. handler_cases; auto 20 with quiet.
  - unfold Dependencies.redis_on_close. handler_cases; auto 20 with quiet.
  - unfold Dependencies.redis_stop. handler_cases; auto 20 with quiet.
Qed.

(** C1, as stated, fails on the code.  Both instances are running; both are
    stopped before either exit callback has run.  The exit callback of the
    instance stopped first already finds the table empty and issues a stop
    request, and the exit callback of the second issues another: two
    requests, not one. *)
Lemma C1_two_stops_counterexample :
  size (runningProcesses (inst Ex.s2)) = 2
  ∧ redis_stop_requests Ex.s2 = 0
  ∧ redis_stop_requests (run [Stop "1"; Stop "2"; Close 0 None] Ex.s2) = 1
  ∧ redis_stop_requests (run [Stop "1"; Stop "2"; Close 0 None; Close 1 None] Ex.s2) = 2.
Proof. vm_compute. done. Qed.

(** C1, amended.  A stop request for the shared Redis is issued by the exit
    callback of a child, and by it only when, after it has deleted its
    instance's entry, the process table is empty and the persisted keep-alive
    flag is not true; the stop handler issues none, nor does any other
    handler or callback.  With exactly two
    instances running and keep-alive not set: when the first is stopped and
    its exit callback runs before the second is stopped, no request is
    issued for the first, and exactly one once the second is stopped and its
    exit callback has run. *)
Theorem C1_auto_stop_on_exit :
  (∀ s child c code, closures (inst s) !! child = Some c →
     redis_stop_requests (Instances.on_close child code s)
     = redis_stop_requests s
       + (if bool_decide (size (delete (c_id c) (runningProcesses (inst s))) = 0
                          ∧ redisKeepAlive (data (os s)) ≠ Some true)
          then 1 else 0))
  ∧ (∀ s id, redis_stop_requests (snd (Instances.stop id s)) = redis_stop_requests s)
  ∧ (∀ s e, (∀ child code, e ≠ Close child code) →
       redis_stop_requests (step e s) = redis_stop_requests s)
  ∧ (∀ s a b ca cb cla clb code_a code_b,
       a ≠ b →
       size (runningProcesses (inst s)) = 2 →
       runningProcesses (inst s) !! a = Some ca →
       runningProcesses (inst s) !! b = Some cb →
       closures (inst s) !! ca = Some cla → c_id cla = a →
       closures (inst s) !! cb = Some clb → c_id clb = b →
       redisKeepAlive (data (os s)) ≠ Some true →
       redis_stop_requests (run [Stop a; Close ca code_a] s) = redis_stop_requests s
       ∧ redis_stop_requests (run [Stop a; Close ca code_a; Stop b; Close cb code_b] s)
         = redis_stop_requests s + 1).
Proof.
  split; [| split; [| split]].
  - intros s child c code Hc. by destruct (on_close_effect child c code s Hc) as (_ & _ & _ & ?).
  - intros s id. destruct (runningProcesses (inst s) !! id) as [child|] eqn:E.
    + by destruct (stop_effect id child s E) as (_ & _ & _ & ?).
    + by rewrite stop_not_running.
  - intros s e. apply only_exit_callback_requests_redis_stop.
  - intros s a b ca cb cla clb code_a code_b Hab Hsize Ha Hb Hca Hida Hcb Hidb Hk.
    simpl.
    destruct (stop_effect a ca s Ha) as (Ht1 & Hc1 & Hd1 & Hr1).
    set (s1 := snd (Instances.stop a s)) in *.
    rewrite <- Hc1 in Hca, Hcb.
    destruct (on_close_effect ca cla code_a s1 Hca) as (Ht2 & Hc2 & Hd2 & Hr2).
    set (s2 := Instances.on_close ca code_a s1) in *.
    rewrite Hida, Ht1 in Ht2, Hr2.
    assert (size (delete a (delete a (runningProcesses (inst s)))) = 1) as Hs2.
    { rewrite (map_size_delete_None a (delete a _)) by apply lookup_delete_eq.
      rewrite map_size_delete_Some by eauto. by rewrite Hsize. }
    rewrite bool_decide_false in Hr2 by (intros [? _]; lia).
    assert (runningProcesses (inst s2) !! b = Some cb) as Hb2.
    { rewrite Ht2, !lookup_delete_ne by done. done. }
    destruct (stop_effect b cb s2 Hb2) as (Ht3 & Hc3 & Hd3 & Hr3).
    set (s3 := snd (Instances.stop b s2)) in *.
    rewrite <- Hc2, <- Hc3 in Hcb.
    destruct (on_close_effect cb clb code_b s3 Hcb) as (Ht4 & Hc4 & Hd4 & Hr4).
    rewrite Hidb, Ht3 in Hr4.
    assert (size (delete b (delete b (runningProcesses (inst s2)))) = 0) as Hs4.
    { rewrite (map_size_delete_None b (delete b _)) by apply lookup_delete_eq.
      rewrite map_size_delete_Some by eauto. by rewrite Ht2, Hs2. }
    rewrite bool_decide_true in Hr4
      by (split; [done | by rewrite Hd3, Hd2, Hd1]).
    split; lia.
Qed.

Lemma C1_auto_stop_on_exit_witness :
  redis_stop_requests (run [Stop "1"; Close 0 None] Ex.s2) = redis_stop_requests Ex.s2
  ∧ redis_stop_requests (run [Stop "1"; Close 0 None; Stop "2"; Close 1 (Some 1%Z)] Ex.s2)
    = redis_stop_requests Ex.s2 + 1.
Proof.
  refine (proj2 (proj2 (proj2 C1_auto_stop_on_exit)) Ex.s2 "1" "2" 0 1
            (Closure "1" false) (Closure "2" false) None (Some 1%Z) _ _ _ _ _ _ _ _ _);
    try (vm_compute; reflexivity); discriminate.
Defined.

(** ** Effective port *)

(** C7, as stated, fails on the code: the declared type plays no part.  A
    GSUID instance without a [port] field whose own configuration file gives
    port 8765 resolves to 2536, the default of a Yunzai instance; the same
    record declared as Yunzai resolves to the same port; and with a Yunzai
    server.yaml in place the GSUID record takes its port from that file. *)
Lemma C7_type_counterexample :
  Instances.getInstancePort Ex.port_world Ex.delta = "2536"
  ∧ Instances.getInstancePort Ex.port_world (with_type "yunzai" Ex.delta) = "2536"
  ∧ Instances.getInstancePort Ex.port_world Ex.epsilon = "2537"
  ∧ Instances.getInstancePort Ex.port_world (with_type "gsuid" Ex.epsilon) = "2537".
Proof. vm_compute. done. Qed.

(** C7, amended.  The effective port is: the record's [port] field, as a
    string, when it is set (truthy); otherwise the digits of the first
    [port: <digits>] in [<path>/config/config/server.yaml] when that file can
    be read and has one; otherwise ["2536"].  The file looked at and the
    default are the same for every declared type. *)
Theorem C7_effective_port (w : world) (i : instance) :
  (Js.truthy (inst_port i) = true →
     Instances.getInstancePort w i = Js.ToString (inst_port i))
  ∧ (∀ content digits,
       Js.truthy (inst_port i) = false →
       fs w !! serverYamlPath i = Some (File content) →
       Instances.port_match content = Some digits →
       Instances.getInstancePort w i = digits)
  ∧ (Js.truthy (inst_port i) = false →
     (∀ content, fs w !! serverYamlPath i = Some (File content) →
                 Instances.port_match content = None) →
     Instances.getInstancePort w i = "2536")
  ∧ (∀ t, Instances.getInstancePort w (with_type t i) = Instances.getInstancePort w i).
Proof.
  unfold Instances.getInstancePort, existsSync, readFileSync. fold (serverYamlPath i).
  split; [| split; [| split]].
  - by intros ->.
  - intros content digits -> Hf Hm. rewrite Hf.
    rewrite bool_decide_true by eauto. by rewrite Hm.
  - intros -> Hnone. destruct (fs w !! serverYamlPath i) as [[| content |]|] eqn:Hf;
      try (by case_bool_decide).
    rewrite bool_decide_true by eauto. by rewrite (Hnone content).
  - done.
Qed.

Lemma C7_effective_port_witness :
  Instances.getInstancePort (os Ex.s0) Ex.beta = "3001"
  ∧ Instances.getInstancePort Ex.port_world Ex.epsilon = "2537"
  ∧ Instances.getInstancePort Ex.port_world Ex.delta = "2536".
Proof.
  split; [| split].
  - apply (proj1 (C7_effective_port (os Ex.s0) Ex.beta)). reflexivity.
  - refine (proj1 (proj2 (C7_effective_port Ex.port_world Ex.epsilon)) _ _ _ _ _);
      vm_compute; reflexivity.
  - refine (proj1 (proj2 (proj2 (C7_effective_port Ex.port_world Ex.delta))) _ _).
    + reflexivity.
    + intros content Hf. vm_compute in Hf. discriminate.
Defined.

(** ** Port uniqueness *)

(** C3: the code breaks the claim on creation.  The creation handler answers
    after its checks and registers the record only when the installation has
    ended, without checking again; and its port check compares the raw
    [port] fields where the port query and the configuration update compare
    effective ports.
    - Two creations that both take the default port, the second requested
      while the first is still installing, both pass the check and both get
      registered: two records with effective port 2536.
    - With a registered record that has no [port] field and whose
      server.yaml says 2537, the port query reports 2537 as used by it and a
      configuration update to 2537 is rejected naming it, yet a creation
      with port 2537 passes and gets registered. *)
Theorem C3_create_misses_port_conflict :
  (let '(r1, s1) := Instances.create Ex.req_a Ex.tools Ex.empty in
   let '(r2, s2) := Instances.create Ex.req_b Ex.tools s1 in
   let s3 := Instances.create_resume Ex.creation_a None 1700000000000%Z s2 in
   let s4 := Instances.create_resume Ex.creation_b None 1700000000001%Z s3 in
   r1 = Await Ex.creation_a
   ∧ r2 = Await Ex.creation_b
   ∧ instances (data (os s4)) = [Ex.created_a; Ex.created_b]
   ∧ Instances.getInstancePort (os s4) Ex.created_a = "2536"
   ∧ Instances.getInstancePort (os s4) Ex.created_b = "2536")
  ∧ (fst (Instances.checkPort 2537 Ex.legacy) = Done (Json 200 (BPort false (Some "epsilon")))
     ∧ fst (Instances.config "4" (Js.Str "2537") Ex.legacy)
       = Done (Json 400 (BError ("Port 2537 is used by instance "
                                 +:+ dquote +:+ "epsilon" +:+ dquote)))
     ∧ let '(r, s1) := Instances.create Ex.req_c Ex.tools Ex.legacy in
       let s2 := Instances.create_resume Ex.creation_c None 1700000000002%Z s1 in
       r = Await Ex.creation_c
       ∧ instances (data (os s2)) = [Ex.delta; Ex.epsilon; Ex.created_c]
       ∧ Instances.getInstancePort (os s2) Ex.epsilon = "2537"
       ∧ Instances.getInstancePort (os s2) Ex.created_c = "2537").
Proof. vm_compute. repeat split. Qed.

(** The configuration update, for comparison: it compares effective ports,
    names the record in the way, tests the bind only for a stopped instance,
    and keeps the ports distinct. *)

Lemma config_rejects_conflict s id port instance j :
  Instances.find_instance (data (os s)) id = Some instance →
  Js.truthy port = true →
  j ∈ instances (data (os s)) →
  inst_id j ≠ id →
  Instances.getInstancePort (os s) j = Js.ToString port →
  ∃ k, k ∈ instances (data (os s)) ∧ inst_id k ≠ id
       ∧ Instances.getInstancePort (os s) k = Js.ToString port
       ∧ Instances.config id port s
         = (Done (Json 400 (BError ("Port " +:+ Js.ToString port +:+ " is used by instance "
                                    +:+ dquote +:+ inst_name k +:+ dquote))), s).
Proof.
  intros Hfind Hport Hj Hid Hp. unfold Instances.config. rewrite Hfind, Hport.
  destruct (find _ (instances (data (os s)))) as [k|] eqn:E.
  - apply find_some in E as [Hk Hc]. apply andb_prop in Hc as [Hc1 Hc2].
    exists k. repeat split.
    + by apply list_elem_of_In.
    + apply negb_true_iff, String.eqb_neq in Hc1. done.
    + by apply String.eqb_eq.
  - exfalso. apply list_elem_of_In in Hj.
    pose proof (find_none _ _ E j Hj) as Hn. simpl in Hn.
    apply String.eqb_neq in Hid. rewrite Hid in Hn. simpl in Hn.
    apply String.eqb_neq in Hn. done.
Qed.

Lemma config_bind_test_iff_stopped s id port instance :
  Instances.find_instance (data (os s)) id = Some instance →
  Js.truthy port = true →
  (∀ j, j ∈ instances (data (os s)) → inst_id j ≠ id →
        Instances.getInstancePort (os s) j ≠ Js.ToString port) →
  match runningProcesses (inst s) !! id with
  | Some _ =>
      Instances.config id port s
      = (Done (Json 200 BSuccess), snd (Instances.config_commit id port (data (os s)) s))
      ∧ effects (os (snd (Instances.config id port s))) = effects (os s)
  | None =>
      Instances.config id port s
      = (Await (data (os s)), emit (BindTest (Js.ToString port)) s)
  end.
Proof.
  intros Hfind Hport Hfree. unfold Instances.config. rewrite Hfind, Hport.
  destruct (find _ (instances (data (os s)))) as [k|] eqn:E.
  - exfalso. apply find_some in E as [Hk Hc]. apply andb_prop in Hc as [Hc1 Hc2].
    apply negb_true_iff, String.eqb_neq in Hc1. apply String.eqb_eq in Hc2.
    apply list_elem_of_In in Hk. by apply (Hfree k).
  - by destruct (runningProcesses (inst s) !! id).
Qed.

Lemma elem_of_assign_port x l id port :
  x ∈ Instances.assign_port l id port →
  x ∈ l ∨ (inst_id x = id ∧ inst_port x = port).
Proof.
  induction l as [|i l IH]; simpl; [by left|].
  destruct (String.eqb_spec (inst_id i) id) as [Heq|Hne].
  - intros [->|Hx]%elem_of_cons; [by right | left; by apply list_elem_of_further].
  - intros [->|Hx]%elem_of_cons; [left; apply list_elem_of_here|].
    destruct (IH Hx) as [?|?]; [left; by apply list_elem_of_further | by right].
Qed.

Lemma distinct_ports_config_commit s id port :
  Js.truthy port = true →
  (∀ j, j ∈ instances (data (os s)) → inst_id j ≠ id →
        Instances.getInstancePort (os s) j ≠ Js.ToString port) →
  distinct_ports (os s) →
  distinct_ports (os (snd (Instances.config_commit id port (data (os s)) s))).
Proof.
  intros Hport Hfree Hd a b Ha Hb Hab. simpl in *.
  assert (∀ x, Instances.getInstancePort
                 (set_data (DataFile (Instances.assign_port (instances (data (os s))) id port)
                                     (redisKeepAlive (data (os s))) (redisPath (data (os s))))
                           (os s)) x
               = Instances.getInstancePort (os s) x) as Hsame by done.
  rewrite !Hsame.
  assert (∀ x, inst_id x = id → inst_port x = port →
               Instances.getInstancePort (os s) x = Js.ToString port) as Hnew.
  { intros x _ Hx. unfold Instances.getInstancePort. by rewrite Hx, Hport. }
  apply elem_of_assign_port in Ha as [Ha|[Ha1 Ha2]];
    apply elem_of_assign_port in Hb as [Hb|[Hb1 Hb2]].
  - by apply Hd.
  - rewrite (Hnew b) by done. apply Hfree; [done | congruence].
  - rewrite (Hnew a) by done. intros E. symmetry in E. revert E.
    apply Hfree; [done | congruence].
  - congruence.
Qed.

(** ** The shared Redis *)

(** C9. The module keeps one optional handle.  Start with a handle present
    answers "Redis is already running" and issues nothing (no kill, no
    spawn), the handle unchanged.  Start without a handle first issues the
    force kill of stray redis-server processes and only then, in its
    continuation, spawns at most one process, whose handle it stores; when no
    binary is found it answers with an error and spawns nothing.  Stop
    without a handle answers "Redis is not running" and changes nothing.
    Stop with a handle sends it the termination signal, clears the handle and
    answers success. *)
Theorem C9_redis_single_handle (s : server) :
  (∀ child, redisProcess (deps s) = Some child →
     fst (Dependencies.redis_start s) = Done (Json 200 (BFailure "Redis is already running"))
     ∧ effects (os (snd (Dependencies.redis_start s))) = effects (os s)
     ∧ deps (snd (Dependencies.redis_start s)) = deps s)
  ∧ (redisProcess (deps s) = None →
     fst (Dependencies.redis_start s) = Await tt
     ∧ effects (os (snd (Dependencies.redis_start s)))
       = effects (os s) ++ [Exec "taskkill /F /IM redis-server.exe"]
     ∧ deps (snd (Dependencies.redis_start s)) = deps s)
  ∧ (∀ r s', Dependencies.redis_start_spawn s = (Done r, s') →
       r = Json 200 (BFailure "Redis not found. Please install Redis first.") ∧ s' = s)
  ∧ (∀ child s', Dependencies.redis_start_spawn s = (Await child, s') →
       redisProcess (deps s') = Some child
       ∧ ∃ redisPath,
           effects (os s')
           = effects (os s)
             ++ [Spawn child redisPath ["--dir"; Dependencies.redisDataDir (os s)] "" false])
  ∧ (redisProcess (deps s) = None →
     Dependencies.redis_stop s = (Json 200 (BFailure "Redis is not running"), s))
  ∧ (∀ child, redisProcess (deps s) = Some child →
     let s' := snd (Dependencies.redis_stop s) in
     fst (Dependencies.redis_stop s) = Json 200 BSuccess
     ∧ redisProcess (deps s') = None
     ∧ effects (os s') = effects (os s) ++ [Kill child "SIGTERM"]).
Proof.
  repeat apply conj.
  - intros child H. unfold Dependencies.redis_start.
    destruct (negb (existsSync (os s) (Dependencies.redisDataDir (os s))));
      simpl; by rewrite H.
  - intros H. unfold Dependencies.redis_start.
    destruct (negb (existsSync (os s) (Dependencies.redisDataDir (os s))));
      simpl; by rewrite H.
  - intros r s'. unfold Dependencies.redis_start_spawn, spawn.
    repeat case_match; intros; by simplify_eq.
  - intros child s'. unfold Dependencies.redis_start_spawn, spawn.
    repeat case_match; intros; simplify_eq; simpl; eauto.
  - intros H. unfold Dependencies.redis_stop. by rewrite H.
  - intros child H s'. subst s'. unfold Dependencies.redis_stop. by rewrite H.
Qed.

Lemma C9_redis_single_handle_witness :
  fst (Dependencies.redis_start Ex.r1) = Done (Json 200 (BFailure "Redis is already running"))
  ∧ effects (os (snd (Dependencies.redis_start Ex.r1))) = effects (os Ex.r1)
  ∧ Dependencies.redis_stop Ex.r0 = (Json 200 (BFailure "Redis is not running"), Ex.r0)
  ∧ redisProcess (deps (snd (Dependencies.redis_stop Ex.r1))) = None
  ∧ effects (os (snd (Dependencies.redis_stop Ex.r1)))
    = effects (os Ex.r1) ++ [Kill 0 "SIGTERM"].
Proof.
  split; [| split; [| split; [| split]]].
  - refine (proj1 (proj1 (C9_redis_single_handle Ex.r1) 0 _)).
    vm_compute; reflexivity.
  - refine (proj1 (proj2 (proj1 (C9_redis_single_handle Ex.r1) 0 _))).
    vm_compute; reflexivity.
  - refine (proj1 (proj2 (proj2 (proj2 (proj2 (C9_redis_single_handle Ex.r0))))) _).
    vm_compute; reflexivity.
  - refine (proj1 (proj2
              (proj2 (proj2 (proj2 (proj2 (proj2 (C9_redis_single_handle Ex.r1))))) 0 _))).
    vm_compute; reflexivity.
  - refine (proj2 (proj2
              (proj2 (proj2 (proj2 (proj2 (proj2 (C9_redis_single_handle Ex.r1))))) 0 _))).
    vm_compute; reflexivity.
Defined.

(** Two start requests that both pass the guard before either has spawned
    each spawn a process; the handle is that of the second. *)
Lemma redis_overlapping_starts :
  let s := run [RedisStart; RedisStart; RedisStartSpawn; RedisStartSpawn] Ex.r0 in
  redisProcess (deps s) = Some 1
  ∧ length (List.filter (fun e => match e with Spawn _ _ _ _ _ => true | _ => false end)
                        (effects (os s))) = 2.
Proof. vm_compute. done. Qed.

(** * Further properties of the code *)

(** ** Escape sequences and logged lines *)

Lemma remove_all_from_plain fuel (l : list ascii) :
  forallb (fun c => negb (Regex.either (Regex.code 27) (Regex.code 155) c)) l = true →
  Regex.remove_all_from fuel Instances.ansi_pattern l = l.
Proof.
  revert l. induction fuel as [|fuel IH]; intros l Hl; [done|].
  destruct l as [|c l]; [done|].
  simpl in Hl. apply andb_prop in Hl as [Hc Hl].
  apply negb_true_iff in Hc.
  cbn [Regex.remove_all_from].
  assert (Regex.match_prefix Instances.ansi_pattern (c :: l) = None) as ->.
  { unfold Regex.match_prefix, Instances.ansi_pattern. cbn [Regex.run]. by rewrite Hc. }
  by rewrite IH.
Qed.

(** X1. A text that contains no escape character (no code unit 0x1b or 0x9b)
    is left as it is by [stripAnsi]. *)
Theorem stripAnsi_plain (str : string) :
  plain str = true → Instances.stripAnsi str = str.
Proof.
  intros H. unfold Instances.stripAnsi, Regex.remove_all.
  rewrite remove_all_from_plain by exact H.
  apply string_of_list_ascii_of_string.
Qed.

Lemma stripAnsi_plain_witness :
  Instances.stripAnsi "Yunzai: listening on [::]:2536 (ok)" = "Yunzai: listening on [::]:2536 (ok)".
Proof. apply stripAnsi_plain. vm_compute. reflexivity. Defined.

Lemma data_callback_history child c o s :
  closures (inst s) !! child = Some c →
  let s' := step (output_event child o) s in
  (∃ c', closures (inst s') !! child = Some c' ∧ c_id c' = c_id c)
  ∧ default [] (Js.get (logHistory (inst s')) (c_id c))
    = match logged_line o with
      | Some line => push_capped 1000 (default [] (Js.get (logHistory (inst s)) (c_id c))) line
      | None => default [] (Js.get (logHistory (inst s)) (c_id c))
      end
  ∧ ∀ id', id' ≠ c_id c →
      Js.get (logHistory (inst s')) id' = Js.get (logHistory (inst s)) id'.
Proof.
  intros Hc s'. subst s'. destruct o as [chunk|chunk]; simpl;
    unfold Instances.stdout_data, Instances.stderr_data, logged_line; rewrite Hc.
  - destruct (String.eqb (Js.trim chunk) "") eqn:E; cbn [negb];
      destruct (hasStarted c); cbn [negb].
    + split; [eauto|]. done.
    + split; [simpl; rewrite lookup_insert_eq; eauto|]. done.
    + split; [eauto|]. split.
      * by rewrite broadcastLog_history.
      * intros id' Hne. by rewrite broadcastLog_history_ne.
    + split; [simpl; rewrite lookup_insert_eq; eauto|].
      match goal with
      | |- context [logHistory (inst (Instances.broadcastStatus ?a ?b (upd_inst ?f ?x)))] =>
          change (logHistory (inst (Instances.broadcastStatus a b (upd_inst f x))))
            with (logHistory (inst x))
      end.
      split.
      * by rewrite broadcastLog_history.
      * intros id' Hne. by rewrite broadcastLog_history_ne.
  - destruct (String.eqb (Js.trim chunk) "") eqn:E; cbn [negb].
    + split; [eauto|]. done.
    + split; [eauto|]. split.
      * by rewrite broadcastLog_history.
      * intros id' Hne. by rewrite broadcastLog_history_ne.
Qed.

(** X2. The output of a child reaches the history of its instance line by
    line: over any sequence of chunks on its standard output and standard
    error, the history of the instance is appended, in order and under the
    cap of 1000, the trimmed and escape-stripped text of every chunk that is
    not blank; blank chunks add nothing, and no other instance's history
    changes. *)
Theorem output_reaches_history (child : nat) (c : closure) (outs : list output) (s : server) :
  closures (inst s) !! child = Some c →
  default [] (Js.get (logHistory (inst (feed child outs s))) (c_id c))
  = fold_left (push_capped 1000) (omap logged_line outs)
      (default [] (Js.get (logHistory (inst s)) (c_id c)))
  ∧ ∀ id', id' ≠ c_id c →
      Js.get (logHistory (inst (feed child outs s))) id' = Js.get (logHistory (inst s)) id'.
Proof.
  revert c s. induction outs as [|o outs IH]; intros c s Hc; [done|].
  destruct (data_callback_history child c o s Hc) as ((c' & Hc' & Hid) & Hh & Hne).
  change (feed child (o :: outs) s) with (feed child outs (step (output_event child o) s)).
  destruct (IH c' _ Hc') as [IH1 IH2]. rewrite Hid in IH1, IH2.
  split.
  - rewrite IH1, Hh. simpl. by destruct (logged_line o).
  - intros id' Hid'. rewrite IH2 by done. by apply Hne.
Qed.

Lemma output_reaches_history_witness :
  default [] (Js.get (logHistory (inst
     (feed 0 [Err "  warn: slow start "; Out "   "; Out "ready"] Ex.s_started))) "1")
  = fold_left (push_capped 1000) ["warn: slow start"; "ready"]
      (default [] (Js.get (logHistory (inst Ex.s_started)) "1")).
Proof.
  refine (proj1 (output_reaches_history 0 (Closure "1" false) _ Ex.s_started _)).
  vm_compute. reflexivity.
Defined.

(** ** Observers *)

Lemma replay_no_status s m : m ∈ replay s → is_status m = false.
Proof.
  unfold replay. rewrite !elem_of_app. intros [H|[H|[H|H]]].
  - by apply list_elem_of_singleton in H as ->.
  - apply list_elem_of_In, in_map_iff in H as (? & <- & _). done.
  - apply list_elem_of_In, in_flat_map in H as (k & _ & H).
    apply in_map_iff in H as (? & <- & _). done.
  - apply list_elem_of_In, in_flat_map in H as (k & _ & H).
    apply in_app_or in H as [H|H].
    + apply in_map_iff in H as (? & <- & _). done.
    + destruct (terminalProcesses (inst s) !! k); simpl in H; [| done].
      by destruct H as [<-|[]].
Qed.

(** X3. Status events are never replayed: whatever has been broadcast
    before, what a new observer has been sent by the end of the connection
    callback contains no status message. *)
Theorem connection_replays_no_status (s : server) (clients : list client) (sock : nat) :
  wss (ws s) = Some clients →
  ∃ sent,
    wss (ws (Instances.connect sock s)) = Some (clients ++ [Client sock OPEN sent])
    ∧ ∀ m, m ∈ sent → is_status m = false.
Proof.
  intros E. exists (replay s). split; [by apply connect_replay | apply replay_no_status].
Qed.

Lemma connection_replays_no_status_witness :
  ∃ sent,
    wss (ws (Instances.connect 9 Ex.s_started))
    = Some ([Client 7 OPEN Ex.observer_log] ++ [Client 9 OPEN sent])
    ∧ ∀ m, m ∈ sent → is_status m = false.
Proof. apply connection_replays_no_status. vm_compute. reflexivity. Defined.

Lemma broadcastGlobalLog_closed_fold (lines : list string) (hist : list string) :
  fold_left (fun st m => WsHelper.broadcastGlobalLog m st) lines (WsState None hist)
  = WsState None (fold_left (push_capped WsHelper.MAX_HISTORY) lines hist).
Proof.
  revert hist. induction lines as [|m lines IH]; intros hist; [done|].
  cbn [fold_left]. rewrite <- IH. done.
Qed.

(** X4. Global log lines broadcast before the WebSocket server exists are not
    lost: they are stored (the last 500 of them) while nothing is sent, and
    the first observer to connect after [init] is sent the welcome and then
    those lines in order. *)
Theorem global_lines_before_init_are_replayed (lines : list string) (sock : nat) :
  let st := fold_left (fun st m => WsHelper.broadcastGlobalLog m st) lines (WsState None []) in
  wss st = None
  ∧ wss (WsHelper.connection [] (Client sock OPEN []) (WsHelper.init st))
    = Some [Client sock OPEN
              (WELCOME "Connected to Launcher Server"
               :: map GLOBAL_LOG (drop (length lines - 500) lines))].
Proof.
  intros st. subst st. rewrite broadcastGlobalLog_closed_fold. split; [done|].
  unfold WsHelper.connection, WsHelper.init. cbn [wss globalLogHistory].
  rewrite send_open, fold_send_open. cbn [fold_left].
  rewrite push_capped_fold by apply Nat.lt_0_succ. done.
Qed.

Lemma send_all_frame msgs c :
  sock (send_all msgs c) = sock c
  ∧ readyState (send_all msgs c) = readyState c
  ∧ (readyState c ≠ OPEN → send_all msgs c = c)
  ∧ ∃ more, received (send_all msgs c) = received c ++ more.
Proof.
  destruct c as [k st r]. destruct st;
    try (assert (send_all msgs (Client k _ r) = Client k _ r) as ->
           by (induction msgs; [done | assumption]);
         repeat split; try done; exists []; by rewrite app_nil_r).
  rewrite send_all_open. repeat split; try done. by eexists.
Qed.

(** X5. A broadcast never loses, reorders or rewrites what a socket has
    already received and never sends to a socket that is not open: over any
    sequence of events every socket stays at its place in the client list
    with its identity and state, what it had received is a prefix of what it
    has received, and a socket that is not open has received nothing more. *)
Theorem sockets_only_gain_messages (s : server) (clients : list client) (es : list event) :
  wss (ws s) = Some clients →
  ∃ clients' later,
    wss (ws (run es s)) = Some (clients' ++ later)
    ∧ length clients' = length clients
    ∧ ∀ i c, clients !! i = Some c →
        ∃ c', clients' !! i = Some c'
              ∧ sock c' = sock c
              ∧ readyState c' = readyState c
              ∧ (readyState c ≠ OPEN → c' = c)
              ∧ ∃ more, received c' = received c ++ more.
Proof.
  intros E.
  destruct (delivered_prim _ _ (run_prim es s) _ E) as (msgs & later & E').
  exists (map (send_all msgs) clients), later.
  split; [done|]. split; [by rewrite length_map|].
  intros i c Hi. exists (send_all msgs c).
  split; [by rewrite list_lookup_fmap, Hi|].
  apply send_all_frame.
Qed.

Lemma sockets_only_gain_messages_witness :
  ∃ clients' later,
    wss (ws (run [Stdout 0 "up"; Stop "1"; Connect 8] Ex.s_started)) = Some (clients' ++ later)
    ∧ length clients' = 1.
Proof.
  destruct (sockets_only_gain_messages Ex.s_started [Client 7 OPEN Ex.observer_log]
              [Stdout 0 "up"; Stop "1"; Connect 8]) as (clients' & later & H1 & H2 & _).
  - vm_compute. reflexivity.
  - exists clients', later. split; [exact H1 | exact H2].
Defined.

(** ** Creation *)

Lemma create_await_inv
    (req : Instances.create_request) (pr : Instances.probes) (s s' : server)
    (c : Instances.creation) :
  Instances.create req pr s = (Await c, s') →
  s' = s
  ∧ Instances.validName (Instances.instanceName c) = true
  ∧ InstancesMore.checkName (Instances.instanceName c) s = true
  ∧ (∀ i, i ∈ instances (data (os s)) →
       Js.ToString (inst_port i) ≠ Js.ToString (Instances.instancePort c))
  ∧ Instances.installPath c
    = path_join (cwd (conf (os s))) ["instances"; Instances.instanceName c]
  ∧ existsSync (os s) (Instances.installPath c) = false
  ∧ Instances.instancePort c = Js.or_else (Instances.req_port req) (Js.Str "2536")
  ∧ Js.truthy (Instances.instancePort c) = true.
Proof.
  unfold Instances.create. intros H.
  assert (Js.truthy (Js.or_else (Instances.req_port req) (Js.Str "2536")) = true) as Htr.
  { unfold Js.or_else. by destruct (Js.truthy (Instances.req_port req)) eqn:E. }
  repeat (case_match; try discriminate);
    simplify_eq;
    cbn [Instances.instanceName Instances.instancePort Instances.installPath];
    (split; [done|]);
    (split; [by apply negb_false_iff|]);
    (split; [unfold InstancesMore.checkName; by apply negb_true_iff|]);
    (split; [| done]);
    intros i Hi Heq;
    match goal with
    | Hf : find _ _ = None |- _ =>
        pose proof (find_none _ _ Hf i (proj1 (list_elem_of_In _ _) Hi)) as Hn
    end;
    simpl in Hn; apply String.eqb_neq in Hn; done.
Qed.

(** X6. A creation goes ahead only when every check has passed: if the
    handler answers "Creation started", then it has changed nothing yet, the
    name is well formed and not registered (the name query agrees), no
    registered record has the same [port] field, the target directory
    [<cwd>/instances/<name>] does not exist, and the port to be recorded is
    set (the default 2536 when the request gave none). *)
Theorem create_goes_ahead_only_when_checked
    (req : Instances.create_request) (pr : Instances.probes) (s s' : server)
    (c : Instances.creation) :
  Instances.create req pr s = (Await c, s') →
  s' = s
  ∧ Instances.validName (Instances.instanceName c) = true
  ∧ InstancesMore.checkName (Instances.instanceName c) s = true
  ∧ (∀ i, i ∈ instances (data (os s)) →
       Js.ToString (inst_port i) ≠ Js.ToString (Instances.instancePort c))
  ∧ Instances.installPath c
    = path_join (cwd (conf (os s))) ["instances"; Instances.instanceName c]
  ∧ existsSync (os s) (Instances.installPath c) = false
  ∧ Instances.instancePort c = Js.or_else (Instances.req_port req) (Js.Str "2536")
  ∧ Js.truthy (Instances.instancePort c) = true.
Proof. apply create_await_inv. Qed.

Lemma create_goes_ahead_only_when_checked_witness :
  Instances.validName "a" = true
  ∧ existsSync (os Ex.empty) "/srv/instances/a" = false.
Proof.
  destruct (create_goes_ahead_only_when_checked Ex.req_a Ex.tools Ex.empty Ex.empty
              Ex.creation_a) as (_ & H1 & _ & _ & _ & H2 & _).
  - vm_compute. reflexivity.
  - split; [exact H1 | exact H2].
Defined.

Lemma getInstancePort_explicit w i :
  Js.truthy (inst_port i) = true →
  Instances.getInstancePort w i = Js.ToString (inst_port i).
Proof. intros H. unfold Instances.getInstancePort. by rewrite H. Qed.

(** X7. A creation whose registration follows its checks with nothing in
    between keeps the ports distinct: when every record carries its port and
    no two records with different ids share an effective port, the same holds
    once the new record (named and numbered as requested, id taken from the
    clock) has been appended to the registry. *)
Theorem create_then_register_keeps_ports_distinct
    (req : Instances.create_request) (pr : Instances.probes) (s s' : server)
    (c : Instances.creation) (now : Z) :
  ports_explicit (data (os s)) →
  distinct_ports (os s) →
  Instances.create req pr s = (Await c, s') →
  let s'' := Instances.create_resume c None now s' in
  instances (data (os s''))
  = instances (data (os s))
    ++ [Instance (Js.string_of_Z now) (Instances.instanceName c) (Instances.installPath c)
          (Instances.instancePort c) (Instances.instanceType c) None]
  ∧ ports_explicit (data (os s''))
  ∧ distinct_ports (os s'').
Proof.
  intros Hexp Hd Hc s''.
  destruct (create_await_inv _ _ _ _ _ Hc)
    as (-> & _ & _ & Hfree & _ & _ & _ & Htr).
  subst s''. unfold Instances.create_resume.
  set (new := Instance _ _ _ _ _ _).
  assert (∀ i, i ∈ instances (data (os s)) ++ [new] →
               Js.truthy (inst_port i) = true) as Hexp'.
  { intros i [Hi| ->%list_elem_of_singleton]%elem_of_app; [by apply Hexp | done]. }
  split; [done|]. split; [exact Hexp'|].
  intros a b Ha Hb Hab. cbn in Ha, Hb.
  rewrite !getInstancePort_explicit by (by apply Hexp').
  apply elem_of_app in Ha as [Ha|Ha]; apply elem_of_app in Hb as [Hb|Hb].
  - specialize (Hd a b Ha Hb Hab).
    by rewrite !getInstancePort_explicit in Hd by (by apply Hexp).
  - apply list_elem_of_singleton in Hb as ->. by apply Hfree.
  - apply list_elem_of_singleton in Ha as ->. intros E. symmetry in E. by apply (Hfree b).
  - apply list_elem_of_singleton in Ha as ->. apply list_elem_of_singleton in Hb as ->. done.
Qed.

Lemma create_then_register_keeps_ports_distinct_witness :
  distinct_ports (os (Instances.create_resume Ex.creation_a None 1700000000000%Z Ex.s0)).
Proof.
  refine (proj2 (proj2 (create_then_register_keeps_ports_distinct
                          Ex.req_a Ex.tools Ex.s0 Ex.s0 Ex.creation_a 1700000000000%Z _ _ _))).
  - intros i Hi. cbn in Hi.
    repeat (apply elem_of_cons in Hi as [->|Hi]); try reflexivity.
    by apply elem_of_nil in Hi.
  - intros a b Ha Hb Hab. cbn in Ha, Hb.
    repeat (apply elem_of_cons in Ha as [->|Ha]); try (by apply elem_of_nil in Ha);
      repeat (apply elem_of_cons in Hb as [->|Hb]); try (by apply elem_of_nil in Hb);
      try (by exfalso; apply Hab); vm_compute; discriminate.
  - vm_compute. reflexivity.
Defined.

(** ** Configuration update *)




(** X9. A committed port update keeps the ports distinct: when every record
    carries its port and no two records with different ids share an
    effective port, a request that passes the conflict check leaves the
    registry in the same condition, on both paths (running instance, or
    stopped instance after a successful bind test). *)
Theorem config_commit_keeps_ports_distinct (s : server) (id : string) (port : Js.value)
    (i : instance) :
  Instances.find_instance (data (os s)) id = Some i →
  Js.truthy port = true →
  ports_explicit (data (os s)) →
  distinct_ports (os s) →
  (∀ j, j ∈ instances (data (os s)) → inst_id j ≠ id →
        Instances.getInstancePort (os s) j ≠ Js.ToString port) →
  let s1 := snd (Instances.config id port s) in
  let s' := match runningProcesses (inst s) !! id with
            | Some _ => s1
            | None => snd (Instances.config_resume id port (data (os s)) true s1)
            end in
  ports_explicit (data (os s')) ∧ distinct_ports (os s').
Proof.
  intros Hfind Hport Hexp Hd Hfree s1 s'.
  pose proof (config_bind_test_iff_stopped s id port i Hfind Hport Hfree) as Hc.
  assert (os s' = os (snd (Instances.config_commit id port (data (os s)) s))
          ∨ (os s' = set_data (data (os (snd (Instances.config_commit id port (data (os s)) s))))
                       (os (emit (BindTest (Js.ToString port)) s)))) as Hos.
  { subst s' s1. destruct (runningProcesses (inst s) !! id).
    - left. by destruct Hc as [-> _].
    - right. by rewrite Hc. }
  pose proof (distinct_ports_config_commit s id port Hport Hfree Hd) as Hd'.
  assert (ports_explicit (data (os (snd (Instances.config_commit id port (data (os s)) s)))))
    as Hexp'.
  { intros j Hj. cbn in Hj. apply elem_of_assign_port in Hj as [Hj|[_ ->]]; [by apply Hexp | done]. }
  destruct Hos as [-> | ->]; [done|].
  split; [exact Hexp'|].
  intros a b Ha Hb Hab. exact (Hd' a b Ha Hb Hab).
Qed.

Lemma config_commit_keeps_ports_distinct_witness :
  distinct_ports (os (snd (Instances.config "1" (Js.Num 4000) Ex.s2))).
Proof.
  refine (proj2 (config_commit_keeps_ports_distinct Ex.s2 "1" (Js.Num 4000) Ex.alpha
                   _ _ _ _ _)).
  - vm_compute. reflexivity.
  - reflexivity.
  - intros j Hj. cbn in Hj.
    repeat (apply elem_of_cons in Hj as [->|Hj]); try reflexivity.
    by apply elem_of_nil in Hj.
  - intros a b Ha Hb Hab. cbn in Ha, Hb.
    repeat (apply elem_of_cons in Ha as [->|Ha]); try (by apply elem_of_nil in Ha);
      repeat (apply elem_of_cons in Hb as [->|Hb]); try (by apply elem_of_nil in Hb);
      try (by exfalso; apply Hab); vm_compute; discriminate.
  - intros j Hj Hid. cbn in Hj.
    repeat (apply elem_of_cons in Hj as [->|Hj]); try (by apply elem_of_nil in Hj);
      try (by exfalso; apply Hid); vm_compute; discriminate.
Defined.




(** ** Start, and the process table *)

Lemma start_success (s : server) (id : string) (i : instance) :
  Instances.find_instance (data (os s)) id = Some i →
  runningProcesses (inst s) !! id = None →
  existsSync (os s) (inst_path i) = true →
  let s' := snd (Instances.start id s) in
  let child := next_child (os s) in
  fst (Instances.start id s) = Json 200 (BMessage "Starting")
  ∧ effects (os s')
    = effects (os s)
      ++ [let '(command, args, shell) := launch (os s) i in
          Spawn child command args (inst_path i) shell]
  ∧ runningProcesses (inst s') = <[id := child]> (runningProcesses (inst s))
  ∧ closures (inst s') = <[child := Closure id false]> (closures (inst s))
  ∧ next_child (os s') = S child
  ∧ data (os s') = data (os s)
  ∧ Instances.list_status s' i = running.
Proof.
  intros Hfind Hrun Hpath s' child. subst s' child.
  assert (inst_id i = id) as Hid.
  { unfold Instances.find_instance in Hfind. apply find_some in Hfind as [_ H].
    by apply String.eqb_eq. }
  unfold Instances.start, launch, spawn. rewrite Hfind, Hrun.
  set (s1 := match inst_proxy i with Some p => _ | None => _ end).
  assert (os s1 = os s ∧ runningProcesses (inst s1) = runningProcesses (inst s)
          ∧ closures (inst s1) = closures (inst s)) as (Hos & Hr & Hc).
  { subst s1. destruct (inst_proxy i) as [p|]; [| done].
    by destruct (negb (String.eqb (host p) "")). }
  rewrite Hos, Hpath. cbn [negb].
  destruct (String.eqb (inst_type i) "") eqn:Et.
  - apply String.eqb_eq in Et. rewrite Et. unfold Instances.list_status. cbn.
    rewrite Hos, Hr, Hc, Hid, lookup_insert_eq. done.
  - unfold Instances.list_status.
    destruct (String.eqb (inst_type i) "gsuid") eqn:Eg; cbn;
      rewrite Hos, Hr, Hc, Hid, lookup_insert_eq; done.
Qed.

(** X11. A start that passes its guards spawns exactly one process, with the
    command line of the instance's type ([uv run core] through a shell for
    GSUID, [node app.js] otherwise) in the instance's directory, records it
    in the table under the instance's id with callbacks not yet marked as
    started, and answers "Starting"; the other entries of the table and the
    registry are unchanged, and the listing reports the instance as running
    from then on, before any output. *)
Theorem start_spawns_one_process (s : server) (id : string) (i : instance) :
  Instances.find_instance (data (os s)) id = Some i →
  runningProcesses (inst s) !! id = None →
  existsSync (os s) (inst_path i) = true →
  let s' := snd (Instances.start id s) in
  let child := next_child (os s) in
  fst (Instances.start id s) = Json 200 (BMessage "Starting")
  ∧ effects (os s')
    = effects (os s)
      ++ [let '(command, args, shell) := launch (os s) i in
          Spawn child command args (inst_path i) shell]
  ∧ runningProcesses (inst s') = <[id := child]> (runningProcesses (inst s))
  ∧ closures (inst s') = <[child := Closure id false]> (closures (inst s))
  ∧ next_child (os s') = S child
  ∧ data (os s') = data (os s)
  ∧ Instances.list_status s' i = running.
Proof. apply start_success. Qed.

Lemma start_spawns_one_process_witness :
  effects (os (snd (Instances.start "2" Ex.s0)))
  = effects (os Ex.s0) ++ [Spawn 0 "uv" ["run"; "core"] "/srv/instances/beta" true].
Proof.
  refine (proj1 (proj2 (start_spawns_one_process Ex.s0 "2" Ex.beta _ _ _)));
    vm_compute; reflexivity.
Defined.

Lemma table_ok_frame s s' :
  runningProcesses (inst s') = runningProcesses (inst s) →
  closures (inst s') = closures (inst s) →
  next_child (os s) ≤ next_child (os s') →
  table_ok s → table_ok s'.
Proof.
  intros Hr Hc Hn [H1 H2]. split.
  - intros id child. rewrite Hr, Hc. apply H1.
  - intros child c. rewrite Hc. intros H. specialize (H2 _ _ H). lia.
Qed.

Lemma table_ok_delete s s' id :
  runningProcesses (inst s') = delete id (runningProcesses (inst s)) →
  closures (inst s') = closures (inst s) →
  next_child (os s) ≤ next_child (os s') →
  table_ok s → table_ok s'.
Proof.
  intros Hr Hc Hn [H1 H2]. split.
  - intros id' child. rewrite Hr, Hc.
    intros [_ H]%lookup_delete_Some. by apply H1.
  - intros child c. rewrite Hc. intros H. specialize (H2 _ _ H). lia.
Qed.

Lemma table_ok_flag s s' child c b :
  closures (inst s) !! child = Some c →
  runningProcesses (inst s') = runningProcesses (inst s) →
  closures (inst s') = <[child := Closure (c_id c) b]> (closures (inst s)) →
  next_child (os s) ≤ next_child (os s') →
  table_ok s → table_ok s'.
Proof.
  intros Hch Hr Hc Hn [H1 H2]. split.
  - intros id h. rewrite Hr, Hc. intros H. destruct (H1 _ _ H) as (c' & Hc' & Hid).
    destruct (decide (child = h)) as [->|Hne].
    + rewrite lookup_insert_eq. eexists; split; [done|]. simpl. congruence.
    + rewrite lookup_insert_ne by done. eauto.
  - intros h c'. rewrite Hc. destruct (decide (child = h)) as [->|Hne].
    + intros _. specialize (H2 _ _ Hch). lia.
    + rewrite lookup_insert_ne by done. intros H. specialize (H2 _ _ H). lia.
Qed.

Lemma table_ok_start s s' id :
  runningProcesses (inst s') = <[id := next_child (os s)]> (runningProcesses (inst s)) →
  closures (inst s') = <[next_child (os s) := Closure id false]> (closures (inst s)) →
  next_child (os s') = S (next_child (os s)) →
  table_ok s → table_ok s'.
Proof.
  intros Hr Hc Hn [H1 H2]. split.
  - intros id' h. rewrite Hr, Hc. destruct (decide (id = id')) as [->|Hne].
    + rewrite lookup_insert_eq. intros [= <-]. rewrite lookup_insert_eq. eauto.
    + rewrite lookup_insert_ne by done. intros H.
      destruct (H1 _ _ H) as (c & Hc' & Hid).
      rewrite lookup_insert_ne; [eauto|].
      specialize (H2 _ _ Hc'). lia.
  - intros h c. rewrite Hc, Hn. destruct (decide (next_child (os s) = h)) as [<-|Hne].
    + intros _. lia.
    + rewrite lookup_insert_ne by done. intros H. specialize (H2 _ _ H). lia.
Qed.

Lemma start_path_missing s id i :
  Instances.find_instance (data (os s)) id = Some i →
  runningProcesses (inst s) !! id = None →
  existsSync (os s) (inst_path i) = false →
  next_child (os (snd (Instances.start id s))) = next_child (os s)
  ∧ runningProcesses (inst (snd (Instances.start id s))) = runningProcesses (inst s)
  ∧ closures (inst (snd (Instances.start id s))) = closures (inst s).
Proof.
  intros Hfind Hrun Hpath. unfold Instances.start. rewrite Hfind, Hrun.
  destruct (inst_proxy i) as [p|]; [destruct (negb (String.eqb (host p) ""))|];
    rewrite ?broadcastLog_os, Hpath; done.
Qed.

Lemma table_ok_log id m s : table_ok s → table_ok (Instances.broadcastLog id m s).
Proof. by apply table_ok_frame. Qed.
Lemma table_ok_status id st s : table_ok s → table_ok (Instances.broadcastStatus id st s).
Proof. by apply table_ok_frame. Qed.
Lemma table_ok_global m s : table_ok s → table_ok (Instances.broadcastGlobalLog m s).
Proof. by apply table_ok_frame. Qed.
Lemma table_ok_deps_global m s : table_ok s → table_ok (Dependencies.broadcastGlobalLog m s).
Proof. by apply table_ok_frame. Qed.
Lemma table_ok_terminal id m s :
  table_ok s → table_ok (Instances.broadcastTerminalOutput id m s).
Proof. unfold Instances.broadcastTerminalOutput. case_match; [|done]. by apply table_ok_frame. Qed.
Lemma table_ok_emit e s : table_ok s → table_ok (emit e s).
Proof. by apply table_ok_frame. Qed.
Lemma table_ok_checkPortAvailable p s :
  table_ok s → table_ok (Instances.checkPortAvailable p s).
Proof. by apply table_ok_frame. Qed.
Lemma table_ok_upd_deps f s : table_ok s → table_ok (upd_deps f s).
Proof. by apply table_ok_frame. Qed.
Lemma table_ok_upd_inst f s :
  (∀ i, runningProcesses (f i) = runningProcesses i) →
  (∀ i, closures (f i) = closures i) →
  table_ok s → table_ok (upd_inst f s).
Proof. intros H1 H2. apply table_ok_frame; simpl; auto. Qed.
Lemma table_ok_upd_os f s :
  (∀ w, next_child (f w) = next_child w) → table_ok s → table_ok (upd_os f s).
Proof. intros H1. apply table_ok_frame; simpl; rewrite ?H1; auto. Qed.
Lemma table_ok_next n s :
  next_child (os s) ≤ n → table_ok s → table_ok (upd_os (set_next_child n) s).
Proof. intros H1. by apply table_ok_frame. Qed.

#[local] Hint Resolve table_ok_log table_ok_status table_ok_global table_ok_deps_global
  table_ok_terminal table_ok_emit table_ok_checkPortAvailable table_ok_upd_deps : tab.
#[local] Hint Extern 2 (table_ok (upd_inst _ _)) =>
  apply table_ok_upd_inst; [intros; reflexivity | intros; reflexivity |] : tab.
#[local] Hint Extern 2 (table_ok (upd_os (set_next_child _) _)) =>
  apply table_ok_next; [simpl; lia |] : tab.
#[local] Hint Extern 3 (table_ok (upd_os _ _)) =>
  apply table_ok_upd_os; [intros; reflexivity |] : tab.

Ltac table_frame := handler_cases; auto 20 with tab.

Lemma step_table_ok e s : table_ok s → table_ok (step e s).
Proof.
  intros H. destruct e; simpl.
  - revert H. apply table_ok_frame; [done | done | simpl; lia].
  - destruct (Instances.find_instance (data (os s)) id) as [i|] eqn:Hfind;
      [| unfold Instances.start; by rewrite Hfind].
    destruct (runningProcesses (inst s) !! id) as [child|] eqn:Hrun;
      [unfold Instances.start; by rewrite Hfind, Hrun|].
    destruct (existsSync (os s) (inst_path i)) eqn:Hpath.
    + destruct (start_success s id i Hfind Hrun Hpath)
        as (_ & _ & Hr & Hc & Hn & _).
      revert H. by apply (table_ok_start s _ id).
    + destruct (start_path_missing s id i Hfind Hrun Hpath) as (Hn & Hr & Hc).
      revert H. apply table_ok_frame; [done | done | lia].
  - destruct (runningProcesses (inst s) !! id) as [child|] eqn:Hrun.
    + destruct (stop_effect id child s Hrun) as (Hr & Hc & _ & _).
      revert H. apply (table_ok_delete s _ id); [done | done |].
      unfold Instances.stop. rewrite Hrun. by destruct (win32 (conf (os s))).
    + by rewrite stop_not_running.
  - revert H. apply table_ok_frame; [done | done | simpl; lia].
  - unfold Instances.stdout_data.
    destruct (closures (inst s) !! child) as [c|] eqn:Hc; [| done].
    destruct (hasStarted c) eqn:Hs; cbn [negb].
    + revert H. apply table_ok_frame;
        by destruct (negb (String.eqb (Js.trim chunk) "")).
    + revert H. apply (table_ok_flag s _ child c true Hc);
        by destruct (negb (String.eqb (Js.trim chunk) "")).
  - unfold Instances.stderr_data.
    destruct (closures (inst s) !! child) as [c|] eqn:Hc; [| done].
    revert H. apply table_ok_frame;
      by destruct (negb (String.eqb (Js.trim chunk) "")).
  - unfold Instances.on_error.
    destruct (closures (inst s) !! child) as [c|] eqn:Hc; [| done].
    revert H. by apply (table_ok_delete s _ (c_id c)).
  - destruct (closures (inst s) !! child) as [c|] eqn:Hc.
    + destruct (on_close_effect child c code s Hc) as (Hr & Hc' & _ & _).
      revert H. apply (table_ok_delete s _ (c_id c)); [done | done |].
      unfold Instances.on_close. rewrite Hc. by repeat case_match.
    + unfold Instances.on_close. by rewrite Hc.
  - unfold Instances.checkPort. table_frame.
  - unfold Instances.create. table_frame.
  - unfold Instances.create_resume. table_frame.
  - unfold Instances.config, Instances.config_commit. table_frame.
  - unfold Instances.config_resume, Instances.config_commit. table_frame.
  - unfold Instances.terminal, spawn. table_frame.
  - unfold Instances.broadcastTerminalOutput. table_frame.
  - unfold Dependencies.redis_start. table_frame.
  - unfold Dependencies.redis_start_spawn, spawn. table_frame.
  - unfold Dependencies.redis_start_verify. table_frame.
  - unfold Dependencies.redis_output. table_frame.
  - unfold Dependencies.redis_on_close. table_frame.
  - unfold Dependencies.redis_stop. table_frame.
Qed.

Lemma run_table_ok es s : table_ok s → table_ok (run es s).
Proof.
  revert s. induction es as [|e es IH]; intros s H; [done|].
  simpl. apply IH. by apply step_table_ok.
Qed.

Lemma table_ok_boot c d files : table_ok (boot c d files).
Proof. split; intros ? ?; simpl; by rewrite lookup_empty. Qed.

(** X12. In every state the server can reach, each process of the table was
    spawned by a start (its handle is below the next handle to be given out),
    the callbacks registered on it are those of the instance it is recorded
    under, and no two instances are recorded with the same process. *)
Theorem process_table_consistent (c : config) (d : datafile) (files : gmap string fsnode)
    (es : list event) :
  let s := run es (boot c d files) in
  (∀ id child, runningProcesses (inst s) !! id = Some child →
     child < next_child (os s)
     ∧ ∃ cl, closures (inst s) !! child = Some cl ∧ c_id cl = id)
  ∧ (∀ id id' child,
       runningProcesses (inst s) !! id = Some child →
       runningProcesses (inst s) !! id' = Some child → id = id').
Proof.
  intros s. destruct (run_table_ok es _ (table_ok_boot c d files)) as [H1 H2].
  fold s in H1, H2. split.
  - intros id child H. destruct (H1 _ _ H) as (cl & Hc & Hid). split; [by eapply H2 | eauto].
  - intros id id' child H H'.
    destruct (H1 _ _ H) as (cl & Hc & Hid). destruct (H1 _ _ H') as (cl' & Hc' & Hid').
    congruence.
Qed.

Lemma process_table_consistent_witness :
  1 < next_child (os (run [Start "1"; Start "2"; Stop "1"] Ex.s0)).
Proof.
  refine (proj1 (proj1 (process_table_consistent Ex.cfg _ Ex.files
                          [Start "1"; Start "2"; Stop "1"]) "2" 1 _)).
  vm_compute. reflexivity.
Defined.

(** X13. In every reachable state, when a process of the table exits (or
    fails to launch), its exit callback removes the entry of its own
    instance and no other, and the listing reports that instance as stopped
    from then on. *)
Theorem exit_removes_own_entry (c : config) (d : datafile) (files : gmap string fsnode)
    (es : list event) (id : string) (child : nat) (code : option Z) (message : string)
    (i : instance) :
  let s := run es (boot c d files) in
  runningProcesses (inst s) !! id = Some child →
  inst_id i = id →
  (runningProcesses (inst (Instances.on_close child code s))
   = delete id (runningProcesses (inst s))
   ∧ Instances.list_status (Instances.on_close child code s) i = stopped)
  ∧ (runningProcesses (inst (Instances.on_error child message s))
     = delete id (runningProcesses (inst s))
     ∧ Instances.list_status (Instances.on_error child message s) i = stopped).
Proof.
  intros s Hrun Hi.
  destruct (run_table_ok es _ (table_ok_boot c d files)) as [H1 _].
  destruct (H1 id child Hrun) as (cl & Hc & Hid).
  fold s in Hc. split.
  - destruct (on_close_effect child cl code s Hc) as (Hr & _). rewrite Hid in Hr.
    split; [done|]. unfold Instances.list_status. by rewrite Hr, Hi, lookup_delete_eq.
  - unfold Instances.on_error, Instances.list_status. rewrite Hc, Hid, Hi. simpl.
    by rewrite lookup_delete_eq.
Qed.

Lemma exit_removes_own_entry_witness :
  runningProcesses (inst (Instances.on_close 1 None (run [Start "1"; Start "2"] Ex.s0)))
  = delete "2" (runningProcesses (inst (run [Start "1"; Start "2"] Ex.s0))).
Proof.
  refine (proj1 (proj1 (exit_removes_own_entry Ex.cfg _ Ex.files [Start "1"; Start "2"]
                          "2" 1 None "" Ex.beta _ _))).
  - vm_compute. reflexivity.
  - reflexivity.
Defined.

Lemma stop_effects id child s :
  runningProcesses (inst s) !! id = Some child →
  effects (os (snd (Instances.stop id s))) = effects (os s) ++ [kill_action (os s) child]
  ∧ fs (os (snd (Instances.stop id s))) = fs (os s)
  ∧ next_child (os (snd (Instances.stop id s))) = next_child (os s)
  ∧ conf (os (snd (Instances.stop id s))) = conf (os s).
Proof.
  intros H. unfold Instances.stop, kill_action. rewrite H.
  by destruct (win32 (conf (os s))).
Qed.

Lemma on_close_effects child c code s :
  closures (inst s) !! child = Some c →
  ∃ tail, effects (os (Instances.on_close child code s)) = effects (os s) ++ tail
          ∧ ∀ e, e ∈ tail → e = Instances.redis_stop_request.
Proof.
  intros H. unfold Instances.on_close. rewrite H.
  repeat case_match;
    first [ exists [Instances.redis_stop_request]; split; [reflexivity|];
            by intros e ->%list_elem_of_singleton
          | exists []; split; [by rewrite app_nil_r|];
            intros e He; by apply elem_of_nil in He ].
Qed.

(** X14. An exit callback deletes the entry of its instance's id, whichever
    process holds it.  In any reachable state where an instance is running:
    if it is stopped and started again before the exit callback of the first
    process has run, that callback then removes the entry of the second
    process: the instance is listed as stopped while the second process has
    been spawned and no kill has been issued for it. *)
Theorem late_exit_removes_restarted_process (c : config) (d : datafile)
    (files : gmap string fsnode) (es : list event) (id : string) (i : instance)
    (old : nat) (code : option Z) :
  let s := run es (boot c d files) in
  Instances.find_instance (data (os s)) id = Some i →
  existsSync (os s) (inst_path i) = true →
  runningProcesses (inst s) !! id = Some old →
  let new := next_child (os s) in
  let s3 := run [Stop id; Start id; Close old code] s in
  new ≠ old
  ∧ runningProcesses (inst (run [Stop id; Start id] s)) !! id = Some new
  ∧ runningProcesses (inst s3) !! id = None
  ∧ Instances.list_status s3 i = stopped
  ∧ ∃ tail,
      effects (os s3)
      = effects (os s)
        ++ [kill_action (os s) old;
            let '(command, args, shell) := launch (os s) i in
            Spawn new command args (inst_path i) shell]
        ++ tail
      ∧ ∀ e, e ∈ tail → e = Instances.redis_stop_request.
Proof.
  intros s Hfind Hpath Hrun new s3.
  destruct (run_table_ok es _ (table_ok_boot c d files)) as [H1 H2]. fold s in H1, H2.
  destruct (H1 id old Hrun) as (cl & Hcl & Hid).
  pose proof (H2 _ _ Hcl) as Hlt.
  assert (inst_id i = id) as Hi.
  { unfold Instances.find_instance in Hfind. apply find_some in Hfind as [_ H].
    by apply String.eqb_eq. }
  destruct (stop_effect id old s Hrun) as (Hr1 & Hc1 & Hd1 & _).
  destruct (stop_effects id old s Hrun) as (He1 & Hf1 & Hn1 & Hk1).
  set (s1 := snd (Instances.stop id s)) in *.
  assert (Instances.find_instance (data (os s1)) id = Some i) as Hfind1 by by rewrite Hd1.
  assert (runningProcesses (inst s1) !! id = None) as Hrun1
    by (rewrite Hr1; apply lookup_delete_eq).
  assert (existsSync (os s1) (inst_path i) = true) as Hpath1.
  { unfold existsSync in *. by rewrite Hf1. }
  destruct (start_success s1 id i Hfind1 Hrun1 Hpath1) as (_ & He2 & Hr2 & Hc2 & Hn2 & Hd2 & _).
  set (s2 := snd (Instances.start id s1)) in *.
  assert (closures (inst s2) !! old = Some cl) as Hcl2.
  { rewrite Hc2, Hn1, lookup_insert_ne by lia. by rewrite Hc1. }
  destruct (on_close_effect old cl code s2 Hcl2) as (Hr3 & _).
  destruct (on_close_effects old cl code s2 Hcl2) as (tail & He3 & Htail).
  change s3 with (Instances.on_close old code s2).
  change (run [Stop id; Start id] s) with s2.
  split; [subst new; lia|]. split; [by rewrite Hr2, Hn1, lookup_insert_eq|].
  split; [rewrite Hr3, Hid; apply lookup_delete_eq|].
  split; [unfold Instances.list_status; rewrite Hr3, Hid, Hi; by rewrite lookup_delete_eq|].
  exists tail. split; [| exact Htail].
  rewrite He3, He2, He1, Hn1. unfold launch. rewrite Hk1.
  by rewrite <- !app_assoc.
Qed.

Lemma late_exit_removes_restarted_process_witness :
  runningProcesses (inst (run [Stop "1"; Start "1"; Close 0 None]
                            (run [Start "1"; Start "2"] Ex.s0))) !! "1" = None.
Proof.
  refine (proj1 (proj2 (proj2 (late_exit_removes_restarted_process Ex.cfg _ Ex.files
                                 [Start "1"; Start "2"] "1" Ex.alpha 0 None _ _ _))));
    vm_compute; reflexivity.
Defined.

(** ** Deletion *)

Lemma findIndex_Some {A} (p : A → bool) (l : list A) (n : nat) :
  InstancesMore.findIndex p l = Some n →
  ∃ l1 x l2, l = l1 ++ x :: l2 ∧ length l1 = n ∧ p x = true
             ∧ (∀ y, y ∈ l1 → p y = false) ∧ find p l = Some x.
Proof.
  revert n. induction l as [|y l IH]; intros n; simpl; [done|].
  destruct (p y) eqn:Hy.
  - intros [= <-]. exists [], y, l. repeat split; try done.
    intros z Hz. by apply elem_of_nil in Hz.
  - destruct (InstancesMore.findIndex p l) as [m|] eqn:E; simpl; [| done].
    intros [= <-]. destruct (IH m eq_refl) as (l1 & x & l2 & -> & Hlen & Hx & Hl1 & Hf).
    exists (y :: l1), x, l2. repeat split; try done.
    + simpl. by rewrite Hlen.
    + intros z [->|Hz]%elem_of_cons; [done | by apply Hl1].
Qed.

Lemma findIndex_None {A} (p : A → bool) (l : list A) :
  InstancesMore.findIndex p l = None ↔ find p l = None.
Proof.
  induction l as [|y l IH]; simpl; [done|].
  destruct (p y); [done|].
  destruct (InstancesMore.findIndex p l); simpl.
  - split; [done|]. intros H. apply IH in H. done.
  - split; [intros _; by apply IH | done].
Qed.

Lemma delete_effect (s : server) (id : string) :
  (Instances.find_instance (data (os s)) id = None →
     InstancesMore.delete_instance id s = (Json 404 (BError "Instance not found"), s))
  ∧ (∀ i, Instances.find_instance (data (os s)) id = Some i →
       let s' := snd (InstancesMore.delete_instance id s) in
       fst (InstancesMore.delete_instance id s) = Json 200 BSuccess
       ∧ (∃ l1 l2, instances (data (os s)) = l1 ++ i :: l2
                   ∧ instances (data (os s')) = l1 ++ l2
                   ∧ ∀ j, j ∈ l1 → inst_id j ≠ id)
       ∧ inst s' = inst s
       ∧ deps s' = deps s
       ∧ effects (os s') = effects (os s)
       ∧ (∀ p, InstancesMore.under (inst_path i) p = false →
               fs (os s') !! p = fs (os s) !! p)
       ∧ (existsSync (os s) (inst_path i) = true →
          ∀ p, InstancesMore.under (inst_path i) p = true → fs (os s') !! p = None)).
Proof.
  unfold Instances.find_instance, InstancesMore.delete_instance. split.
  - intros H. apply findIndex_None in H. by rewrite H.
  - intros i H.
    destruct (InstancesMore.findIndex _ (instances (data (os s)))) as [n|] eqn:E;
      [| apply findIndex_None in E; congruence].
    destruct (findIndex_Some _ _ _ E) as (l1 & x & l2 & Hl & Hlen & Hx & Hl1 & Hf).
    assert (x = i) as -> by congruence.
    assert (instances (data (os s)) !! n = Some i) as Hn.
    { rewrite Hl, <- Hlen. by rewrite list_lookup_middle. }
    rewrite Hn. cbn zeta.
    assert (delete n (instances (data (os s))) = l1 ++ l2) as Hdel.
    { rewrite Hl, <- Hlen. apply delete_middle. }
    split; [done|]. split.
    { exists l1, l2. split; [done|]. split.
      - by destruct (existsSync (os s) (inst_path i)).
      - intros j Hj. specialize (Hl1 j Hj). simpl in Hl1. by apply String.eqb_neq. }
    destruct (existsSync (os s) (inst_path i)) eqn:Hex; cbn;
      repeat split; try done.
    + intros p Hp. unfold InstancesMore.rmSync.
      destruct (fs (os s) !! p) as [node|] eqn:Hfs.
      * apply map_lookup_filter_Some. done.
      * apply map_lookup_filter_None. by left.
    + intros _ p Hp. unfold InstancesMore.rmSync.
      apply map_lookup_filter_None. right. intros node _. simpl. congruence.
Qed.

(** X15. Deleting a registered instance removes exactly the first record with
    that id and keeps the others in their order; it removes the instance's
    directory and what lies under it and no other file; and it does not look
    at the process table: the modules' state and the log of actions are
    unchanged, so a running instance stays in the table and no kill is
    issued.  Deleting an unknown id answers "Instance not found" and changes
    nothing. *)
Theorem delete_removes_one_record (s : server) (id : string) :
  (Instances.find_instance (data (os s)) id = None →
     InstancesMore.delete_instance id s = (Json 404 (BError "Instance not found"), s))
  ∧ (∀ i, Instances.find_instance (data (os s)) id = Some i →
       let s' := snd (InstancesMore.delete_instance id s) in
       fst (InstancesMore.delete_instance id s) = Json 200 BSuccess
       ∧ (∃ l1 l2, instances (data (os s)) = l1 ++ i :: l2
                   ∧ instances (data (os s')) = l1 ++ l2
                   ∧ ∀ j, j ∈ l1 → inst_id j ≠ id)
       ∧ inst s' = inst s
       ∧ deps s' = deps s
       ∧ effects (os s') = effects (os s)
       ∧ (∀ p, InstancesMore.under (inst_path i) p = false →
               fs (os s') !! p = fs (os s) !! p)
       ∧ (existsSync (os s) (inst_path i) = true →
          ∀ p, InstancesMore.under (inst_path i) p = true → fs (os s') !! p = None)).
Proof. apply delete_effect. Qed.

Lemma delete_removes_one_record_witness :
  InstancesMore.delete_instance "9" Ex.s2 = (Json 404 (BError "Instance not found"), Ex.s2)
  ∧ inst (snd (InstancesMore.delete_instance "2" Ex.s2)) = inst Ex.s2
  ∧ fs (os (snd (InstancesMore.delete_instance "2" Ex.s2))) !! "/srv/instances/beta" = None.
Proof.
  split; [| split].
  - apply (proj1 (delete_removes_one_record Ex.s2 "9")). vm_compute. reflexivity.
  - refine (proj1 (proj2 (proj2 (proj2 (delete_removes_one_record Ex.s2 "2") Ex.beta _)))).
    vm_compute. reflexivity.
  - refine (proj2 (proj2 (proj2 (proj2 (proj2 (proj2
              (proj2 (delete_removes_one_record Ex.s2 "2") Ex.beta _)))))) _ _ _);
      vm_compute; reflexivity.
Defined.

Lemma find_none_intro {A} (p : A → bool) (l : list A) :
  (∀ x, x ∈ l → p x = false) → find p l = None.
Proof.
  induction l as [|y l IH]; intros H; [done|]. simpl.
  rewrite (H y) by apply list_elem_of_here.
  apply IH. intros x Hx. apply H. by apply list_elem_of_further.
Qed.

(** X16. A deleted instance that was running stays in the process table:
    when ids are unique, its id can no longer be started (unknown instance)
    but it can still be stopped, and stopping it issues the kill of its
    process. *)
Theorem deleted_running_instance_can_still_be_stopped (s : server) (id : string)
    (i : instance) (child : nat) :
  Instances.find_instance (data (os s)) id = Some i →
  NoDup (map inst_id (instances (data (os s)))) →
  runningProcesses (inst s) !! id = Some child →
  let s' := snd (InstancesMore.delete_instance id s) in
  Instances.start id s' = (Json 404 (BError "Instance not found"), s')
  ∧ fst (Instances.stop id s') = Json 200 (BMessage "Stop signal sent")
  ∧ effects (os (snd (Instances.stop id s')))
    = effects (os s) ++ [kill_action (os s) child].
Proof.
  intros Hfind Hnd Hrun s'.
  assert (inst_id i = id) as Hi.
  { unfold Instances.find_instance in Hfind. apply find_some in Hfind as [_ H].
    by apply String.eqb_eq. }
  destruct (proj2 (delete_effect s id) i Hfind)
    as (_ & (l1 & l2 & Hl & Hl' & Hl1) & Hinst & _ & Heff & _).
  fold s' in Hl', Hinst, Heff.
  assert (Instances.find_instance (data (os s')) id = None) as Hnone.
  { unfold Instances.find_instance. rewrite Hl'.
    apply find_none_intro. intros j Hj. apply String.eqb_neq.
    apply elem_of_app in Hj as [Hj|Hj]; [by apply Hl1|].
    intros Hid. rewrite Hl, map_app in Hnd. apply NoDup_app in Hnd as (_ & _ & Hnd).
    simpl in Hnd. apply NoDup_cons in Hnd as [Hnd _]. apply Hnd.
    rewrite Hi, <- Hid. apply list_elem_of_In, in_map. by apply list_elem_of_In. }
  assert (runningProcesses (inst s') !! id = Some child) as Hrun' by by rewrite Hinst.
  assert (conf (os s') = conf (os s)) as Hconf.
  { subst s'. unfold InstancesMore.delete_instance.
    repeat case_match; done. }
  split; [unfold Instances.start; by rewrite Hnone|].
  destruct (stop_effects id child s' Hrun') as (He & _).
  split.
  - unfold Instances.stop. by rewrite Hrun'.
  - rewrite He, Heff. unfold kill_action. by rewrite Hconf.
Qed.

Lemma deleted_running_instance_can_still_be_stopped_witness :
  Instances.start "2" (snd (InstancesMore.delete_instance "2" Ex.s2))
  = (Json 404 (BError "Instance not found"), snd (InstancesMore.delete_instance "2" Ex.s2)).
Proof.
  refine (proj1 (deleted_running_instance_can_still_be_stopped Ex.s2 "2" Ex.beta 1 _ _ _)).
  - vm_compute. reflexivity.
  - cbn. repeat constructor; intros H; repeat (apply elem_of_cons in H as [H|H]; try done);
      by apply elem_of_nil in H.
  - vm_compute. reflexivity.
Defined.

(** ** Commands *)



(** ** Terminals *)




(** ** Redis: keep-alive and start *)

(** X19. The keep-alive switch is read back as it was set and leaves the
    instance records alone.  Once it is set, the exit callback of an
    instance's process issues no stop request for Redis, even when it leaves
    the process table empty; once it is cleared, an exit callback that leaves
    the table empty issues exactly one. *)
Theorem keepalive_governs_auto_stop (s : server) (enabled : bool) :
  let s' := snd (DependenciesMore.redis_keepalive enabled s) in
  DependenciesMore.redis_keepalive_enabled s' = enabled
  ∧ instances (data (os s')) = instances (data (os s))
  ∧ inst s' = inst s
  ∧ ∀ child cl code, closures (inst s) !! child = Some cl →
      redis_stop_requests (Instances.on_close child code s')
      = redis_stop_requests s
        + (if negb enabled
              && bool_decide (size (delete (c_id cl) (runningProcesses (inst s))) = 0)
           then 1 else 0).
Proof.
  intros s'. subst s'. unfold DependenciesMore.redis_keepalive. cbn [snd].
  split; [done|]. split; [done|]. split; [done|].
  intros child cl code Hcl.
  set (s' := Dependencies.broadcastGlobalLog _ _).
  assert (closures (inst s') !! child = Some cl) as Hcl' by done.
  destruct (on_close_effect child cl code s' Hcl') as (_ & _ & _ & Hr).
  rewrite Hr. change (redis_stop_requests s') with (redis_stop_requests s).
  change (runningProcesses (inst s')) with (runningProcesses (inst s)).
  change (redisKeepAlive (data (os s'))) with (Some enabled).
  f_equal. destruct enabled; cbn [negb andb].
  - rewrite bool_decide_false; [done|]. intros [_ H]. done.
  - destruct (decide (size (delete (c_id cl) (runningProcesses (inst s))) = 0)) as [E|E].
    + rewrite !bool_decide_true; done.
    + rewrite !bool_decide_false; [done | done |]. intros [? _]. done.
Qed.

Lemma keepalive_governs_auto_stop_witness :
  redis_stop_requests
    (Instances.on_close 0 None
       (snd (DependenciesMore.redis_keepalive true (run [Start "1"; Stop "1"] Ex.s0))))
  = redis_stop_requests (run [Start "1"; Stop "1"] Ex.s0) + 0.
Proof.
  refine (proj2 (proj2 (proj2 (keepalive_governs_auto_stop (run [Start "1"; Stop "1"] Ex.s0)
                                 true))) 0 (Closure "1" false) None _).
  vm_compute. reflexivity.
Defined.

(** X20. The continuation of a Redis start picks its binary in this order:
    the configured path when it exists, else the bundled binary when it
    exists, else it answers "Redis not found" and spawns nothing.  Once it
    has spawned, the start is verified after the delay: it succeeds, with the
    handle kept and "Redis started" logged, when the process has not closed
    in between; when it has closed, whatever its exit code, the start is
    reported as failed and the handle is cleared. *)
Theorem redis_start_outcome (s : server) :
  let h := next_child (os s) in
  (∀ p, redisPath (data (os s)) = Some p → existsSync (os s) p = true →
     fst (Dependencies.redis_start_spawn s) = Await h
     ∧ effects (os (snd (Dependencies.redis_start_spawn s)))
       = effects (os s) ++ [redis_spawn (os s) h p])
  ∧ ((∀ p, redisPath (data (os s)) = Some p → existsSync (os s) p = false) →
     existsSync (os s) (localRedis (os s)) = true →
     fst (Dependencies.redis_start_spawn s) = Await h
     ∧ effects (os (snd (Dependencies.redis_start_spawn s)))
       = effects (os s) ++ [redis_spawn (os s) h (localRedis (os s))])
  ∧ ((∀ p, redisPath (data (os s)) = Some p → existsSync (os s) p = false) →
     existsSync (os s) (localRedis (os s)) = false →
     Dependencies.redis_start_spawn s
     = (Done (Json 200 (BFailure "Redis not found. Please install Redis first.")), s))
  ∧ (∀ child s2, Dependencies.redis_start_spawn s = (Await child, s2) →
     Dependencies.redis_start_verify child s2
     = (Json 200 BSuccess, Dependencies.broadcastGlobalLog "[SYSTEM] Redis started" s2)
     ∧ redisProcess (deps s2) = Some child
     ∧ ∀ code, let s3 := Dependencies.redis_on_close child code s2 in
         redisProcess (deps s3) = None
         ∧ Dependencies.redis_start_verify child s3
           = (Json 200 (BFailure "Redis 启动失败，请检查日志"), s3)).
Proof.
  intros h. subst h. unfold Dependencies.redis_start_spawn, spawn, localRedis, redis_spawn.
  split; [| split; [| split]].
  - intros p Hp He. rewrite Hp, He. done.
  - intros Hp He. destruct (redisPath (data (os s))) as [p|] eqn:E.
    + rewrite (Hp p eq_refl), He. done.
    + rewrite He. done.
  - intros Hp He. destruct (redisPath (data (os s))) as [p|] eqn:E.
    + rewrite (Hp p eq_refl), He. done.
    + rewrite He. done.
  - intros child s2 H.
    assert (redisProcess (deps s2) = Some child
            ∧ startFailed (deps s2) !! child = Some false) as [Hh Hf].
    { repeat case_match; simplify_eq; simpl; by rewrite lookup_insert_eq. }
    split; [| split; [done|]].
    + unfold Dependencies.redis_start_verify. by rewrite Hf, Hh.
    + intros code.
      assert (redisProcess (deps (Dependencies.redis_on_close child code s2)) = None) as Hn
        by (by destruct code as [[| |]|]).
      split; [exact Hn|].
      unfold Dependencies.redis_start_verify. rewrite Hn.
      by destruct (default false _).
Qed.

Lemma redis_start_outcome_witness :
  fst (Dependencies.redis_start_spawn Ex.r0) = Await 0
  ∧ Dependencies.redis_start_verify 0 Ex.r1
    = (Json 200 BSuccess, Dependencies.broadcastGlobalLog "[SYSTEM] Redis started" Ex.r1).
Proof.
  split.
  - refine (proj1 (proj1 (proj2 (redis_start_outcome Ex.r0)) _ _)).
    + intros p Hp. vm_compute in Hp. discriminate.
    + vm_compute. reflexivity.
  - refine (proj1 (proj2 (proj2 (proj2 (redis_start_outcome (snd (Dependencies.redis_start Ex.r0))))) 0 Ex.r1 _)).
    vm_compute. reflexivity.
Defined.

(** *** server.yaml: the port written at creation *)

Lemma list_ascii_app (a b : string) :
  list_ascii_of_string (a +:+ b) = list_ascii_of_string a ++ list_ascii_of_string b.
Proof. induction a as [|c a IH]; simpl; [done|by rewrite IH]. Qed.

Lemma digit_not_space c : Js.is_digit c = true → Js.is_space c = false.
Proof. destruct c as [[] [] [] [] [] [] [] []]; vm_compute; intros; congruence. Qed.

Lemma digit_not_p c : Js.is_digit c = true → Ascii.eqb "p" c = false.
Proof. destruct c as [[] [] [] [] [] [] [] []]; vm_compute; intros; congruence. Qed.

Lemma space_not_p c : Js.is_space c = true → Ascii.eqb "p" c = false.
Proof. destruct c as [[] [] [] [] [] [] [] []]; vm_compute; intros; congruence. Qed.

Lemma take_while_app_digits lp X :
  forallb Js.is_digit lp = true → Js.take_while Js.is_digit X = [] →
  Js.take_while Js.is_digit (lp ++ X) = lp.
Proof.
  induction lp as [|d lp IH]; simpl; [done|].
  intros [Ha Hl]%andb_prop He. rewrite Ha, IH; done.
Qed.

Lemma take_drop_while_digits X :
  Js.take_while Js.is_digit (Js.drop_while Js.is_digit X) = [].
Proof.
  induction X as [|c X IH]; simpl; [done|].
  destruct (Js.is_digit c) eqn:E; [done|]. simpl. by rewrite E.
Qed.

Lemma port_match_at_written lp X :
  lp ≠ [] → forallb Js.is_digit lp = true → Js.take_while Js.is_digit X = [] →
  Instances.port_match_at (list_ascii_of_string "port: " ++ lp ++ X) = Some lp.
Proof.
  intros Hne Hd HX. destruct lp as [|d lp]; [done|].
  pose proof Hd as [Hd1 _]%andb_prop.
  unfold Instances.port_match_at. simpl.
  rewrite (digit_not_space d Hd1).
  change (d :: lp ++ X) with ((d :: lp) ++ X).
  rewrite (take_while_app_digits _ _ Hd HX). done.
Qed.

Lemma strip_prefix_cons a p c s :
  Instances.strip_prefix (a :: p) (c :: s)
  = if Ascii.eqb a c then Instances.strip_prefix p s else None.
Proof. done. Qed.

Lemma strip_prefix_Some p s rest :
  Instances.strip_prefix p s = Some rest → s = p ++ rest.
Proof.
  revert s. induction p as [|a p IH]; intros [|c s];
    cbn [Instances.strip_prefix app]; try congruence.
  destruct (Ascii.eqb a c) eqn:E; [|done].
  apply Ascii.eqb_eq in E. subst c. intros H. by rewrite (IH _ H).
Qed.

Lemma port_rest_at_None s :
  InstancesMore.port_rest_at s = None ↔ Instances.port_match_at s = None.
Proof.
  unfold InstancesMore.port_rest_at, Instances.port_match_at.
  destruct (Instances.strip_prefix _ s); [|done].
  by destruct (Js.take_while _ _).
Qed.

Lemma port_rest_at_not_p c s :
  Ascii.eqb "p" c = false → InstancesMore.port_rest_at (c :: s) = None.
Proof.
  intros H. unfold InstancesMore.port_rest_at.
  cbn [list_ascii_of_string Instances.strip_prefix]. by rewrite H.
Qed.

Lemma port_match_from_cons c s :
  Instances.port_match_from (c :: s)
  = match Instances.port_match_at (c :: s) with
    | Some digits => Some digits
    | None => Instances.port_match_from s
    end.
Proof. done. Qed.

Lemma port_match_from_at s d :
  Instances.port_match_at s = Some d → Instances.port_match_from s = Some d.
Proof.
  intros H. destruct s; [by vm_compute in H|]. by rewrite port_match_from_cons, H.
Qed.

Lemma port_rest_at_Some s rest :
  InstancesMore.port_rest_at s = Some rest → Js.take_while Js.is_digit rest = [].
Proof.
  unfold InstancesMore.port_rest_at. destruct (Instances.strip_prefix _ s); [|done].
  destruct (Js.take_while _ _); [done|]. intros [= <-]. apply take_drop_while_digits.
Qed.

Section replace_port.

Variable r' : list ascii.
Let r : list ascii := "p"%char :: r'.
Let R := InstancesMore.replace_port_from r.

Lemma replace_step c s :
  InstancesMore.port_rest_at (c :: s) = None → R (c :: s) = c :: R s.
Proof. intros H. unfold R. simpl. by rewrite H. Qed.

Lemma replace_head c s : ∃ Y, R (c :: s) = c :: Y.
Proof.
  destruct (InstancesMore.port_rest_at (c :: s)) as [rest|] eqn:E.
  - destruct (Ascii.eqb "p" c) eqn:Ec.
    + apply Ascii.eqb_eq in Ec. subst c. exists (r' ++ rest).
      unfold R. simpl InstancesMore.replace_port_from. by rewrite E.
    + by rewrite (port_rest_at_not_p c s Ec) in E.
  - exists (R s). by apply replace_step.
Qed.

Lemma strip_no_p q s :
  forallb (λ a, negb (Ascii.eqb "p" a)) q = true →
  Instances.strip_prefix q s = None → Instances.strip_prefix q (R s) = None.
Proof.
  revert s. induction q as [|a q IH]; intros s; [by destruct s|].
  cbn [forallb]. intros [Ha Hq]%andb_prop. destruct s as [|c s]; [done|].
  cbn [Instances.strip_prefix]. destruct (Ascii.eqb a c) eqn:E.
  - apply Ascii.eqb_eq in E. subst c. apply negb_true_iff in Ha.
    rewrite (replace_step _ _ (port_rest_at_not_p _ _ Ha)).
    cbn [Instances.strip_prefix]. rewrite Ascii.eqb_refl. by apply IH.
  - destruct (replace_head c s) as [Y ->]. cbn [Instances.strip_prefix]. by rewrite E.
Qed.

Lemma replace_spaces x :
  Js.drop_while Js.is_space (R x) = R (Js.drop_while Js.is_space x).
Proof.
  induction x as [|c x IH]; [done|].
  simpl Js.drop_while at 2. destruct (Js.is_space c) eqn:E.
  - rewrite (replace_step _ _ (port_rest_at_not_p _ _ (space_not_p _ E))).
    simpl. by rewrite E.
  - destruct (replace_head c x) as [Y ->]. simpl. by rewrite E.
Qed.

Lemma replace_no_digits y :
  Js.take_while Js.is_digit y = [] → Js.take_while Js.is_digit (R y) = [].
Proof.
  destruct y as [|c y]; [done|]. simpl.
  destruct (Js.is_digit c) eqn:E; [done|]. intros _.
  destruct (replace_head c y) as [Y ->]. simpl. by rewrite E.
Qed.

Lemma replace_keeps_no_match s :
  Instances.port_match_at s = None → Instances.port_match_at (R s) = None.
Proof.
  intros H. pose proof (proj2 (port_rest_at_None s) H) as Hr.
  unfold Instances.port_match_at in *.
  destruct (Instances.strip_prefix _ s) as [rest|] eqn:E.
  - apply strip_prefix_Some in E. subst s. simpl app in *.
    rewrite (replace_step _ _ Hr).
    rewrite (replace_step _ _ (port_rest_at_not_p "o" _ eq_refl)).
    rewrite (replace_step _ _ (port_rest_at_not_p "r" _ eq_refl)).
    rewrite (replace_step _ _ (port_rest_at_not_p "t" _ eq_refl)).
    rewrite (replace_step _ _ (port_rest_at_not_p ":" _ eq_refl)).
    cbn [list_ascii_of_string Instances.strip_prefix]. rewrite !Ascii.eqb_refl.
    rewrite replace_spaces.
    destruct (Js.take_while _ (Js.drop_while _ rest)) eqn:Et; [|done].
    by rewrite (replace_no_digits _ Et).
  - destruct s as [|c s]; [done|].
    change (list_ascii_of_string "port:")
      with ("p"%char :: list_ascii_of_string "ort:") in *.
    rewrite strip_prefix_cons in E. destruct (Ascii.eqb "p" c) eqn:Ec.
    + apply Ascii.eqb_eq in Ec. subst c. rewrite (replace_step _ _ Hr).
      rewrite strip_prefix_cons, Ascii.eqb_refl.
      by rewrite (strip_no_p (list_ascii_of_string "ort:") s eq_refl E).
    + destruct (replace_head c s) as [Y ->]. by rewrite strip_prefix_cons, Ec.
Qed.

Lemma replace_without_match s :
  Instances.port_match_from s = None → R s = s.
Proof.
  induction s as [|c s IH]; [done|]. simpl Instances.port_match_from.
  destruct (Instances.port_match_at (c :: s)) eqn:E; [done|]. intros H.
  rewrite (replace_step _ _ (proj2 (port_rest_at_None _) E)). by rewrite IH.
Qed.

Lemma replace_reads_back_aux lp s q :
  r' = list_ascii_of_string "ort: " ++ lp →
  lp ≠ [] → forallb Js.is_digit lp = true →
  Instances.port_match_from s = Some q →
  Instances.port_match_from (R s) = Some lp.
Proof.
  intros Hr Hne Hd. induction s as [|c s IH]; [done|].
  rewrite port_match_from_cons.
  destruct (InstancesMore.port_rest_at (c :: s)) as [rest|] eqn:E.
  - intros _. unfold R. cbn [InstancesMore.replace_port_from]. rewrite E.
    apply port_match_from_at. unfold r. rewrite Hr.
    change ("p"%char :: list_ascii_of_string "ort: " ++ lp)
      with (list_ascii_of_string "port: " ++ lp).
    rewrite <- app_assoc. apply port_match_at_written; [done..|].
    by apply port_rest_at_Some in E.
  - pose proof (proj1 (port_rest_at_None _) E) as Em. rewrite Em. intros H.
    pose proof (replace_keeps_no_match _ Em) as Hk.
    rewrite (replace_step _ _ E) in Hk |- *.
    rewrite port_match_from_cons, Hk. by apply IH.
Qed.

End replace_port.

Lemma replace_reads_back lp s q :
  lp ≠ [] → forallb Js.is_digit lp = true →
  Instances.port_match_from s = Some q →
  Instances.port_match_from
    (InstancesMore.replace_port_from (list_ascii_of_string "port: " ++ lp) s)
  = Some lp.
Proof. intros. by eapply (replace_reads_back_aux _ lp s q eq_refl). Qed.

Lemma is_port_number_inv p :
  is_port_number p = true →
  list_ascii_of_string p ≠ [] ∧ forallb Js.is_digit (list_ascii_of_string p) = true.
Proof. unfold is_port_number. by destruct (list_ascii_of_string p). Qed.

Lemma port_match_prepended p rest :
  is_port_number p = true →
  Instances.port_match ("port: " +:+ p +:+ nl_ +:+ rest) = Some p.
Proof.
  intros [Hne Hd]%is_port_number_inv. unfold Instances.port_match.
  rewrite !list_ascii_app.
  rewrite (port_match_from_at _ (list_ascii_of_string p)).
  - simpl. by rewrite string_of_list_ascii_of_string.
  - by apply port_match_at_written.
Qed.

Lemma serverConfig_reads_back p existing :
  is_port_number p = true →
  (∀ c, existing = Some c → InstancesMore.includes "port:" c = true →
        is_Some (Instances.port_match c)) →
  Instances.port_match (InstancesMore.serverConfig existing p) = Some p.
Proof.
  intros Hp Hc. unfold InstancesMore.serverConfig. destruct existing as [c|].
  - destruct (InstancesMore.includes "port:" c) eqn:Ei.
    + destruct (Hc c eq_refl Ei) as [q Hq].
      apply is_port_number_inv in Hp as [Hne Hd].
      unfold Instances.port_match in Hq |- *.
      destruct (Instances.port_match_from (list_ascii_of_string c)) as [q'|] eqn:Eq;
        [|done].
      unfold InstancesMore.replace_port.
      rewrite list_ascii_of_string_of_list_ascii, list_ascii_app.
      rewrite (replace_reads_back _ _ _ Hne Hd Eq). simpl.
      by rewrite string_of_list_ascii_of_string.
    + by apply port_match_prepended.
  - pose proof (port_match_prepended p
      ("host: " +:+ dquote +:+ "0.0.0.0" +:+ dquote +:+ nl_) Hp) as H.
    unfold Instances.port_match in H |- *.
    rewrite list_ascii_app. exact H.
Qed.

Lemma serverConfig_unchanged p c :
  Instances.port_match c = None → InstancesMore.replace_port c ("port: " +:+ p) = c.
Proof.
  unfold Instances.port_match, InstancesMore.replace_port. intros H.
  destruct (Instances.port_match_from (list_ascii_of_string c)) eqn:E; [done|].
  rewrite list_ascii_app.
  change (list_ascii_of_string "port: " ++ list_ascii_of_string p)
    with ("p"%char :: list_ascii_of_string "ort: " ++ list_ascii_of_string p).
  rewrite (replace_without_match _ _ E). apply string_of_list_ascii_of_string.
Qed.

(** X21. The port that instance creation writes to server.yaml is the port
    read back from it: for a port made of digits, whether the clone brought
    no server.yaml, one that does not mention [port:], or one in which
    [port:] is followed by a number, the first [port:] number of the written
    content is that port, and an instance whose record holds no port and
    whose server.yaml has this content is reported with that port. *)
Theorem port_written_is_port_read (p : string) (existing : option string) :
  is_port_number p = true →
  (∀ c, existing = Some c → InstancesMore.includes "port:" c = true →
        is_Some (Instances.port_match c)) →
  Instances.port_match (InstancesMore.serverConfig existing p) = Some p
  ∧ ∀ w i, Js.truthy (inst_port i) = false →
      fs w !! serverYamlPath i = Some (File (InstancesMore.serverConfig existing p)) →
      Instances.getInstancePort w i = p.
Proof.
  intros Hp Hc. pose proof (serverConfig_reads_back p existing Hp Hc) as H.
  split; [exact H|]. intros w i Ht Hf.
  unfold Instances.getInstancePort, existsSync, readFileSync. rewrite Ht.
  unfold serverYamlPath in Hf. rewrite Hf, H.
  by rewrite bool_decide_eq_true_2.
Qed.

(** X22. A cloned server.yaml that mentions [port:] with no number after any
    [port:] is written back unchanged at creation, whatever the port: the
    chosen port does not reach the file, and no port is read back from it. *)
Theorem port_not_written_without_number (p c : string) :
  InstancesMore.includes "port:" c = true →
  Instances.port_match c = None →
  InstancesMore.serverConfig (Some c) p = c
  ∧ Instances.port_match (InstancesMore.serverConfig (Some c) p) = None.
Proof.
  intros Hi Hm. unfold InstancesMore.serverConfig. rewrite Hi.
  by rewrite (serverConfig_unchanged p c Hm).
Qed.


Lemma port_written_is_port_read_witness :
  Instances.port_match
    (InstancesMore.serverConfig (Some "# yaml port:  80 end") "2537") = Some "2537".
Proof.
  refine (proj1 (port_written_is_port_read "2537" (Some "# yaml port:  80 end") _ _)).
  - vm_compute. reflexivity.
  - intros c [= <-] _. vm_compute. eexists. reflexivity.
Defined.

Lemma port_not_written_without_number_witness :
  InstancesMore.serverConfig (Some "port: auto") "2537" = "port: auto".
Proof.
  refine (proj1 (port_not_written_without_number "2537" "port: auto" _ _));
    vm_compute; reflexivity.
Defined.

(** X23. The exit callback of a Redis process clears the handle whichever
    process holds it.  When a new start has spawned its process and the exit
    of an earlier one arrives before the start is verified, the start is
    reported as failed although its own process has not closed, and the new
    process is left without a handle: a later stop request answers that Redis
    is not running and kills nothing. *)
Theorem redis_stale_exit_drops_new_handle
    (s s2 : server) (child old : nat) (code : option Z) :
  Dependencies.redis_start_spawn s = (Await child, s2) →
  old ≠ child →
  let s3 := Dependencies.redis_on_close old code s2 in
  startFailed (deps s3) !! child = Some false
  ∧ Dependencies.redis_start_verify child s3
    = (Json 200 (BFailure "Redis 启动失败，请检查日志"), s3)
  ∧ Dependencies.redis_stop s3 = (Json 200 (BFailure "Redis is not running"), s3).
Proof.
  intros H Hne s3.
  assert (startFailed (deps s2) !! child = Some false) as Hf.
  { unfold Dependencies.redis_start_spawn in H.
    repeat case_match; simplify_eq; simpl; by rewrite lookup_insert_eq. }
  assert (redisProcess (deps s3) = None) as Hn
    by (subst s3; by destruct code as [[| |]|]).
  assert (startFailed (deps s3) !! child = Some false) as Hf3.
  { subst s3. destruct code as [[| |]|]; simpl; try done;
      by rewrite lookup_insert_ne. }
  split; [exact Hf3|]. split.
  - unfold Dependencies.redis_start_verify. by rewrite Hn, Hf3.
  - unfold Dependencies.redis_stop. by rewrite Hn.
Qed.

Lemma redis_stale_exit_drops_new_handle_witness :
  Dependencies.redis_stop (Dependencies.redis_on_close 7 (Some 1%Z) Ex.r1)
  = (Json 200 (BFailure "Redis is not running"),
     Dependencies.redis_on_close 7 (Some 1%Z) Ex.r1).
Proof.
  refine (proj2 (proj2 (redis_stale_exit_drops_new_handle
            (snd (Dependencies.redis_start Ex.r0)) Ex.r1 0 7 (Some 1%Z) _ _))).
  - vm_compute. reflexivity.
  - discriminate.
Defined.

(** *** migrate_ports.js *)

Lemma sameValueZero_eq a b : MigratePorts.sameValueZero a b = true ↔ a = b.
Proof.
  destruct a, b; simpl; try (split; congruence).
  - rewrite Z.eqb_eq. split; congruence.
  - rewrite String.eqb_eq. split; congruence.
Qed.

Lemma has_elem_of U v : MigratePorts.has U v = true ↔ v ∈ U.
Proof.
  unfold MigratePorts.has. rewrite existsb_exists. split.
  - intros (x & Hx & E). apply sameValueZero_eq in E. subst x.
    by apply list_elem_of_In.
  - intros H. exists v. split; [by apply list_elem_of_In|by apply sameValueZero_eq].
Qed.

Lemma has_false U v : MigratePorts.has U v = false ↔ v ∉ U.
Proof. rewrite <- has_elem_of. by destruct (MigratePorts.has U v). Qed.

Lemma elem_of_add U v w : w ∈ MigratePorts.add U v ↔ w ∈ U ∨ w = v.
Proof.
  unfold MigratePorts.add. destruct (MigratePorts.has U v) eqn:E.
  - apply has_elem_of in E. split; [by left|]. by intros [?| ->].
  - rewrite elem_of_app, list_elem_of_singleton. done.
Qed.

Lemma length_add U v : length (MigratePorts.add U v) ≤ S (length U).
Proof.
  unfold MigratePorts.add. destruct (MigratePorts.has U v).
  - apply Nat.le_succ_diag_r.
  - rewrite length_app. simpl. by rewrite Nat.add_1_r.
Qed.

Lemma new_Set_from U vs :
  (∀ w, w ∈ fold_left MigratePorts.add vs U ↔ w ∈ U ∨ w ∈ vs)
  ∧ length (fold_left MigratePorts.add vs U) ≤ length U + length vs.
Proof.
  revert U. induction vs as [|v vs IH]; intros U; simpl.
  - split; [|by rewrite Nat.add_0_r]. intros w. rewrite elem_of_nil. tauto.
  - destruct (IH (MigratePorts.add U v)) as [He Hl]. split.
    + intros w. rewrite He, elem_of_add, elem_of_cons. tauto.
    + etrans; [exact Hl|]. pose proof (length_add U v). lia.
Qed.

Lemma elem_of_new_Set vs w : w ∈ MigratePorts.new_Set vs ↔ w ∈ vs.
Proof.
  unfold MigratePorts.new_Set. rewrite (proj1 (new_Set_from [] vs)), elem_of_nil. tauto.
Qed.

Lemma length_new_Set vs : length (MigratePorts.new_Set vs) ≤ length vs.
Proof. exact (proj2 (new_Set_from [] vs)). Qed.

(** The elements of a set that are numbers from [p] on. *)
Lemma num_from_le p U :
  length (List.filter (num_from (p + 1)) U) ≤ length (List.filter (num_from p) U).
Proof.
  induction U as [|v U IH]; simpl; [done|].
  destruct v as [|m|]; simpl; try exact IH.
  destruct (Z.leb_spec (p + 1) m), (Z.leb_spec p m); simpl; lia.
Qed.

Lemma num_from_lt p U :
  Js.Num p ∈ U →
  length (List.filter (num_from (p + 1)) U) < length (List.filter (num_from p) U).
Proof.
  induction U as [|v U IH]; [by intros ?%elem_of_nil|].
  intros [<-|H]%elem_of_cons.
  - simpl. rewrite Z.leb_refl. rewrite (proj2 (Z.leb_gt (p + 1) p)) by lia.
    simpl. pose proof (num_from_le p U). lia.
  - specialize (IH H). simpl. destruct v as [|m|]; simpl; try exact IH.
    destruct (Z.leb_spec (p + 1) m), (Z.leb_spec p m); simpl; lia.
Qed.

Lemma free_port_from fuel U p :
  length (List.filter (num_from p) U) < fuel →
  ∃ n, MigratePorts.free_port fuel U p = Some n.
Proof.
  revert p. induction fuel as [|fuel IH]; intros p H; [lia|]. simpl.
  destruct (MigratePorts.has U (Js.Num p)) eqn:E; [|by eexists].
  apply IH. apply has_elem_of in E. pose proof (num_from_lt p U E). lia.
Qed.

Lemma free_port_total fuel U p :
  length U < fuel → ∃ n, MigratePorts.free_port fuel U p = Some n.
Proof.
  intros H. apply free_port_from.
  pose proof (filter_length_le (num_from p) U) as Hl. lia.
Qed.

Lemma free_port_least fuel U p n :
  MigratePorts.free_port fuel U p = Some n →
  (p ≤ n)%Z ∧ (Js.Num n ∉ U) ∧ (∀ m, (p ≤ m < n)%Z → Js.Num m ∈ U).
Proof.
  revert p. induction fuel as [|fuel IH]; intros p; simpl; [done|].
  destruct (MigratePorts.has U (Js.Num p)) eqn:E.
  - intros H. destruct (IH _ H) as (Hle & Hn & Hm). split; [lia|]. split; [done|].
    intros m Hr. destruct (decide (m = p)) as [->|]; [by apply has_elem_of|].
    apply Hm. lia.
  - intros [= <-]. split; [lia|]. split; [by apply has_false|]. intros m Hr. lia.
Qed.

Lemma forEach_total fuel U c l :
  length U + length (List.filter portless l) < fuel →
  ∃ l' c', MigratePorts.forEach fuel U c l = Some (l', c').
Proof.
  revert U c. induction l as [|i l IH]; intros U c H; simpl; [by eexists _, _|].
  fold (portless i). simpl in H. destruct (portless i) eqn:E.
  - simpl in H. destruct (free_port_total fuel U 3000) as [n ->]; [lia|].
    destruct (IH (MigratePorts.add U (Js.Num n)) true) as (l' & c' & ->);
      [|by eexists _, _].
    pose proof (length_add U (Js.Num n)). lia.
  - destruct (IH U c H) as (l' & c' & ->). by eexists _, _.
Qed.

(** The two ways an instance leaves the loop. *)
Lemma forEach_cons fuel U c i l l' c' :
  MigratePorts.forEach fuel U c (i :: l) = Some (l', c') →
  (portless i = true ∧ ∃ n r,
      MigratePorts.free_port fuel U 3000 = Some n
      ∧ MigratePorts.forEach fuel (MigratePorts.add U (Js.Num n)) true l = Some (r, c')
      ∧ l' = MigratePorts.Inst (MigratePorts.name i) (Js.Num n) :: r)
  ∨ (portless i = false ∧ ∃ r,
      MigratePorts.forEach fuel U c l = Some (r, c') ∧ l' = i :: r).
Proof.
  simpl. fold (portless i). destruct (portless i).
  - destruct (MigratePorts.free_port fuel U 3000) as [n|]; [|done].
    destruct (MigratePorts.forEach fuel _ true l) as [[r c'']|] eqn:Er; [|done].
    intros [= <- <-]. left. split; [done|]. by exists n, r.
  - destruct (MigratePorts.forEach fuel U c l) as [[r c'']|] eqn:Er; [|done].
    intros [= <- <-]. right. split; [done|]. by exists r.
Qed.

Lemma forEach_shape fuel U c l l' c' :
  MigratePorts.forEach fuel U c l = Some (l', c') →
  List.map MigratePorts.name l' = List.map MigratePorts.name l
  ∧ Forall (λ i, portless i = false) l'
  ∧ (∀ k i, l !! k = Some i → portless i = false → l' !! k = Some i)
  ∧ c' = c || existsb portless l.
Proof.
  revert U c l'. induction l as [|i l IH]; intros U c l' H.
  - simpl in H. injection H as <- <-. by rewrite orb_false_r.
  - apply forEach_cons in H as [(E & n & r & Hn & Hr & ->)|(E & r & Hr & ->)];
      destruct (IH _ _ _ Hr) as (Hm & Hf & Hk & Hc); simpl; rewrite E.
    + split; [by rewrite Hm|]. split; [|split].
      * constructor; [|done]. apply free_port_least in Hn as (Hle & _).
        unfold portless. simpl. apply negb_false_iff, negb_true_iff, Z.eqb_neq. lia.
      * intros [|k] i'; simpl; [congruence|apply Hk].
      * rewrite Hc. by rewrite orb_true_r.
    + split; [by rewrite Hm|]. split; [|split].
      * by constructor.
      * intros [|k] i'; simpl; [done|apply Hk].
      * done.
Qed.

Lemma add_subseteq U v w : w ∈ U → w ∈ MigratePorts.add U v.
Proof. intros H. apply elem_of_add. by left. Qed.

Lemma forEach_ports fuel U c l l' c' i' :
  MigratePorts.forEach fuel U c l = Some (l', c') → i' ∈ l' →
  (i' ∈ l ∧ portless i' = false)
  ∨ (∃ m, MigratePorts.llonebotPort i' = Js.Num m ∧ Js.Num m ∉ U).
Proof.
  revert U c l'. induction l as [|i l IH]; intros U c l' H Hi.
  - simpl in H. injection H as <- <-. by apply elem_of_nil in Hi.
  - apply forEach_cons in H as [(E & n & r & Hn & Hr & ->)|(E & r & Hr & ->)];
      apply elem_of_cons in Hi as [->|Hi].
    + right. exists n. split; [done|]. by apply free_port_least in Hn as (_ & ? & _).
    + destruct (IH _ _ _ Hr Hi) as [[? ?]|(m & ? & Hm)].
      * left. split; [by apply list_elem_of_further|done].
      * right. exists m. split; [done|]. intros ?. by apply Hm, add_subseteq.
    + left. split; [apply list_elem_of_here|done].
    + destruct (IH _ _ _ Hr Hi) as [[? ?]|?]; [left|by right].
      split; [by apply list_elem_of_further|done].
Qed.

Lemma forEach_fresh fuel U c l l' c' k i :
  MigratePorts.forEach fuel U c l = Some (l', c') →
  (∀ i', i' ∈ l → portless i' = false → MigratePorts.llonebotPort i' ∈ U) →
  l !! k = Some i → portless i = true →
  ∃ n, l' !! k = Some (MigratePorts.Inst (MigratePorts.name i) (Js.Num n))
    ∧ (3000 ≤ n)%Z
    ∧ (Js.Num n ∉ U)
    ∧ (∀ j i', j ≠ k → l' !! j = Some i' → MigratePorts.llonebotPort i' ≠ Js.Num n)
    ∧ (∀ m, (3000 ≤ m < n)%Z →
         Js.Num m ∈ U
         ∨ ∃ j i', j < k ∧ l' !! j = Some i' ∧ MigratePorts.llonebotPort i' = Js.Num m).
Proof.
  revert U c l' k. induction l as [|i0 l IH]; intros U c l' k H HU Hk Hp; [done|].
  apply forEach_cons in H as [(E & n0 & r & Hn & Hr & ->)|(E & r & Hr & ->)].
  - pose proof (free_port_least _ _ _ _ Hn) as (Hle & Hnot & Hleast).
    destruct k as [|k]; simpl in Hk.
    + injection Hk as ->. exists n0. split; [done|]. split; [done|]. split; [done|].
      split; [|intros m Hm; left; by apply Hleast].
      intros [|j] i' Hj Hi'; [done|]. simpl in Hi'.
      apply list_elem_of_lookup_2 in Hi'.
      destruct (forEach_ports _ _ _ _ _ _ _ Hr Hi') as [[Hin Ht]|(m & -> & Hm)].
      * intros Heq. apply Hnot. rewrite <- Heq. apply HU; [|done].
        by apply list_elem_of_further.
      * intros [= ->]. apply Hm, elem_of_add. by right.
    + destruct (IH (MigratePorts.add U (Js.Num n0)) true r k Hr) as
        (n & Hl & Hge & Hn' & Hd & Hs); [|done..|].
      { intros i' Hi' Ht. apply add_subseteq, HU; [|done]. by apply list_elem_of_further. }
      exists n. split; [done|]. split; [done|]. split; [|split].
      * intros ?. by apply Hn', add_subseteq.
      * intros [|j] i' Hj Hi'; simpl in Hi'.
        -- injection Hi' as <-. simpl. intros [= ->]. apply Hn', elem_of_add. by right.
        -- apply (Hd j); [lia|done].
      * intros m Hm. destruct (Hs m Hm) as [[?| ->]%elem_of_add|(j & i' & ? & ? & ?)].
        -- by left.
        -- right. exists 0, (MigratePorts.Inst (MigratePorts.name i0) (Js.Num n0)).
           split; [lia|done].
        -- right. exists (S j), i'. split; [lia|done].
  - destruct k as [|k]; simpl in Hk; [congruence|].
    destruct (IH U c r k Hr) as (n & Hl & Hge & Hn' & Hd & Hs); [|done..|].
    { intros i' Hi' Ht. apply HU; [|done]. by apply list_elem_of_further. }
    exists n. split; [done|]. split; [done|]. split; [done|]. split.
    + intros [|j] i' Hj Hi'; simpl in Hi'.
      * injection Hi' as <-. intros Heq. apply Hn'. rewrite <- Heq.
        apply HU; [apply list_elem_of_here|done].
      * apply (Hd j); [lia|done].
    + intros m Hm. destruct (Hs m Hm) as [?|(j & i' & ? & ? & ?)]; [by left|].
      right. exists (S j), i'. split; [lia|done].
Qed.

Lemma forEach_settled fuel U c l :
  Forall (λ i, portless i = false) l → MigratePorts.forEach fuel U c l = Some (l, c).
Proof.
  induction 1 as [|i l Hi _ IH]; simpl; [done|].
  fold (portless i). by rewrite Hi, IH.
Qed.

Lemma used_ports_cover l i :
  i ∈ l → portless i = false →
  MigratePorts.llonebotPort i
  ∈ MigratePorts.new_Set (List.filter Js.truthy (List.map MigratePorts.llonebotPort l)).
Proof.
  intros Hi Ht. apply elem_of_new_Set, list_elem_of_In, filter_In. split.
  - apply in_map. by apply list_elem_of_In.
  - by apply negb_false_iff in Ht.
Qed.

Lemma used_ports_length l :
  length (MigratePorts.new_Set (List.filter Js.truthy (List.map MigratePorts.llonebotPort l)))
  + length (List.filter portless l) ≤ length l.
Proof.
  etrans; [apply Nat.add_le_mono_r, length_new_Set|].
  induction l as [|i l IH]; simpl; [done|]. unfold portless at 1.
  destruct (Js.truthy (MigratePorts.llonebotPort i)); simpl; lia.
Qed.

(** X24. The migration script ends, on any list of instances, once the loop
    that looks for a free port may test more ports than there are instances.
    Afterwards every instance has a port, the instances are the same ones in
    the same order, and an instance that had a port keeps its record. *)
Theorem migrate_gives_every_instance_a_port (fuel : nat) (l : list MigratePorts.inst) :
  length l < fuel →
  ∃ l' changed, MigratePorts.migrate fuel l = Some (l', changed)
    ∧ List.map MigratePorts.name l' = List.map MigratePorts.name l
    ∧ Forall (λ i, Js.truthy (MigratePorts.llonebotPort i) = true) l'
    ∧ ∀ k i, l !! k = Some i → Js.truthy (MigratePorts.llonebotPort i) = true →
        l' !! k = Some i.
Proof.
  intros Hf. unfold MigratePorts.migrate.
  destruct (forEach_total fuel
    (MigratePorts.new_Set (List.filter Js.truthy (List.map MigratePorts.llonebotPort l)))
    false l) as (l' & c' & H).
  { pose proof (used_ports_length l). lia. }
  exists l', c'. split; [done|].
  destruct (forEach_shape _ _ _ _ _ _ H) as (Hm & Ht & Hk & _).
  split; [done|]. split.
  - eapply Forall_impl; [exact Ht|]. intros i Hi. by apply negb_false_iff in Hi.
  - intros k i Hi Hp. apply Hk; [done|]. unfold portless. by rewrite Hp.
Qed.

(** X25. A port that the migration assigns is a number from 3000 on that no
    other instance holds afterwards, and it is the least such number: every
    smaller number from 3000 on is the port of another instance after the
    migration. *)
Theorem migrate_assigns_least_free_port
    (fuel : nat) (l l' : list MigratePorts.inst) (changed : bool)
    (k : nat) (i : MigratePorts.inst) :
  MigratePorts.migrate fuel l = Some (l', changed) →
  l !! k = Some i →
  Js.truthy (MigratePorts.llonebotPort i) = false →
  ∃ n, l' !! k = Some (MigratePorts.Inst (MigratePorts.name i) (Js.Num n))
    ∧ (3000 ≤ n)%Z
    ∧ (∀ j i', j ≠ k → l' !! j = Some i' → MigratePorts.llonebotPort i' ≠ Js.Num n)
    ∧ (∀ m, (3000 ≤ m < n)%Z →
         ∃ j i', j ≠ k ∧ l' !! j = Some i' ∧ MigratePorts.llonebotPort i' = Js.Num m).
Proof.
  intros H Hk Hp. unfold MigratePorts.migrate in H.
  assert (portless i = true) as Hp' by (unfold portless; by rewrite Hp).
  destruct (forEach_fresh _ _ _ _ _ _ k i H (used_ports_cover l) Hk Hp')
    as (n & Hl & Hge & _ & Hd & Hs).
  exists n. split; [done|]. split; [done|]. split; [done|].
  intros m Hm. destruct (Hs m Hm) as [Hu|(j & i' & ? & ? & ?)].
  - apply elem_of_new_Set, list_elem_of_In, filter_In in Hu as [Hin Ht].
    apply in_map_iff in Hin as (i' & Hi' & Hin).
    apply list_elem_of_In, list_elem_of_lookup_1 in Hin as [j Hj].
    exists j, i'. split; [|split; [|done]].
    + intros ->. rewrite Hk in Hj. injection Hj as ->. congruence.
    + destruct (forEach_shape _ _ _ _ _ _ H) as (_ & _ & Hkeep & _).
      apply Hkeep; [done|]. unfold portless. by rewrite Hi', Ht.
  - exists j, i'. split; [lia|done].
Qed.

(** X26. The migration asks for data.json to be written exactly when some
    instance had no port; when it does not, the instances are unchanged; and
    running it again on its own result changes nothing and asks for no
    write. *)
Theorem migrate_writes_only_when_needed
    (fuel : nat) (l l' : list MigratePorts.inst) (changed : bool) :
  MigratePorts.migrate fuel l = Some (l', changed) →
  changed = existsb portless l
  ∧ (changed = false → l' = l)
  ∧ ∀ fuel', MigratePorts.migrate fuel' l' = Some (l', false).
Proof.
  intros H. unfold MigratePorts.migrate in *.
  destruct (forEach_shape _ _ _ _ _ _ H) as (_ & Ht & _ & Hc). simpl in Hc.
  split; [done|]. split; [|intros fuel'; by apply forEach_settled].
  intros ->. symmetry in Hc.
  assert (Forall (λ i, portless i = false) l) as Hall.
  { apply Forall_forall. intros i Hi. destruct (portless i) eqn:E; [|done].
    assert (existsb portless l = true) as Hex; [|congruence].
    apply existsb_exists. exists i. split; [by apply list_elem_of_In|done]. }
  rewrite (forEach_settled _ _ _ _ Hall) in H. congruence.
Qed.

Lemma migrate_gives_every_instance_a_port_witness :
  ∃ l' changed, MigratePorts.migrate 4 ExMore.unmigrated = Some (l', changed)
    ∧ List.map MigratePorts.name l' = List.map MigratePorts.name ExMore.unmigrated
    ∧ Forall (λ i, Js.truthy (MigratePorts.llonebotPort i) = true) l'
    ∧ ∀ k i, ExMore.unmigrated !! k = Some i →
        Js.truthy (MigratePorts.llonebotPort i) = true → l' !! k = Some i.
Proof.
  apply (migrate_gives_every_instance_a_port 4 ExMore.unmigrated).
  simpl. lia.
Defined.

Lemma migrate_assigns_least_free_port_witness :
  ∃ n, ExMore.migrated !! 2 = Some (MigratePorts.Inst "c" (Js.Num n))
    ∧ (3000 ≤ n)%Z
    ∧ (∀ j i', j ≠ 2 → ExMore.migrated !! j = Some i' →
         MigratePorts.llonebotPort i' ≠ Js.Num n)
    ∧ (∀ m, (3000 ≤ m < n)%Z →
         ∃ j i', j ≠ 2 ∧ ExMore.migrated !! j = Some i'
                 ∧ MigratePorts.llonebotPort i' = Js.Num m).
Proof.
  apply (migrate_assigns_least_free_port 4 ExMore.unmigrated ExMore.migrated true 2
           (MigratePorts.Inst "c" (Js.Num 0))); vm_compute; reflexivity.
Defined.

Lemma migrate_writes_only_when_needed_witness :
  true = existsb portless ExMore.unmigrated
  ∧ (true = false → ExMore.migrated = ExMore.unmigrated)
  ∧ ∀ fuel', MigratePorts.migrate fuel' ExMore.migrated = Some (ExMore.migrated, false).
Proof.
  apply (migrate_writes_only_when_needed 4 ExMore.unmigrated ExMore.migrated true).
  vm_compute. reflexivity.
Defined.

(** X27. The Redis status follows the handle: once a start has spawned its
    process the status is running whatever the connection test on the port
    says, and after a stop request or after the exit of the process the
    status is the answer of the connection test alone, so a Redis started
    outside the launcher is still reported. *)
Theorem redis_status_follows_handle (s : server) (portActive : bool) :
  (∀ child s2, Dependencies.redis_start_spawn s = (Await child, s2) →
     DependenciesMore.redis_status portActive s2 = true)
  ∧ DependenciesMore.redis_status portActive (snd (Dependencies.redis_stop s)) = portActive
  ∧ ∀ child code,
      DependenciesMore.redis_status portActive (Dependencies.redis_on_close child code s)
      = portActive.
Proof.
  unfold DependenciesMore.redis_status. split; [|split].
  - intros child s2 H.
    assert (redisProcess (deps s2) = Some child) as ->; [|done].
    unfold Dependencies.redis_start_spawn in H.
    repeat case_match; by simplify_eq.
  - unfold Dependencies.redis_stop.
    destruct (redisProcess (deps s)) eqn:E; simpl; [done|by rewrite E].
  - intros child code.
    assert (redisProcess (deps (Dependencies.redis_on_close child code s)) = None) as ->;
      [|done].
    by destruct code as [[| |]|].
Qed.

Lemma redis_status_follows_handle_witness :
  DependenciesMore.redis_status false Ex.r1 = true.
Proof.
  refine (proj1 (redis_status_follows_handle (snd (Dependencies.redis_start Ex.r0)) false)
            0 Ex.r1 _).
  vm_compute. reflexivity.
Defined.
